(** * JustLearnBot: the adaptive assessment engine of [chatbot.py]

    A shallow embedding of the adaptive test engine (question retrieval,
    de-duplication, the per-topic difficulty state machine, the outcome
    classifier and the follow-up test builders) together with the
    behavioural properties proved about it.

    Conventions of the embedding.
    - Python dictionaries keyed by topic are [gmap string _]; the set of
      used question hashes is a [gset string]; lists stay lists.
    - Strings are byte strings; [upper]/[lower] act on ASCII letters.
    - The engine follows one learner: [user_data] and the SQLite tables are
      restricted to that learner's entry.  The session cache
      ([user_data[user_id]]) and the stored session
      ([user_sessions] row) are two separate components of the [World],
      because the code reads and writes them independently.
    - Every call of [random.choice], [random.choices], [random.sample] and
      [random.shuffle] draws from an explicit stream of numbers carried by
      the world, so each run is a function of that stream.
    - Time stamps, log lines, session ids and message texts are left out. *)

From Stdlib Require Import Ascii String.
From stdpp Require Import gmap strings list fin_maps.

(** ** Python string helpers *)

Module Py.

Definition is_lower_ascii (c : ascii) : bool :=
  (97 <=? nat_of_ascii c) && (nat_of_ascii c <=? 122).

Definition is_upper_ascii (c : ascii) : bool :=
  (65 <=? nat_of_ascii c) && (nat_of_ascii c <=? 90).

Definition upper_ascii (c : ascii) : ascii :=
  if is_lower_ascii c then ascii_of_nat (nat_of_ascii c - 32) else c.

Definition lower_ascii (c : ascii) : ascii :=
  if is_upper_ascii c then ascii_of_nat (nat_of_ascii c + 32) else c.

(** [s.upper()] *)
Fixpoint upper (s : string) : string :=
  match s with
  | EmptyString => EmptyString
  | String c r => String (upper_ascii c) (upper r)
  end.

(** [s.lower()] *)
Fixpoint lower (s : string) : string :=
  match s with
  | EmptyString => EmptyString
  | String c r => String (lower_ascii c) (lower r)
  end.

(** [a in b] on strings: [a] occurs in [b] as a contiguous substring. *)
Fixpoint str_in (a b : string) : bool :=
  String.prefix a b ||
  match b with
  | EmptyString => false
  | String _ r => str_in a r
  end.

(** [s[:n]] *)
Definition take_prefix (n : nat) (s : string) : string := String.substring 0 n s.

(** [x in l] on a list of strings *)
Definition mem (x : string) (l : list string) : bool := existsb (String.eqb x) l.

(** [if x not in l: l.append(x)] *)
Definition append_if_absent (x : string) (l : list string) : list string :=
  if mem x l then l else l ++ [x].

(** [repr] of a string without quotes, backslashes or control characters *)
Definition repr (s : string) : string := "'" +:+ s +:+ "'".

(** Order on [(key, value)] tuples used by [sorted(d.items())]. *)
Definition item_leb (a b : string * string) : bool :=
  match String.compare a.1 b.1 with
  | Lt => true
  | Gt => false
  | Eq => String.leb a.2 b.2
  end.

Fixpoint insert_sorted (a : string * string) (l : list (string * string))
  : list (string * string) :=
  match l with
  | [] => [a]
  | b :: r => if item_leb a b then a :: l else b :: insert_sorted a r
  end.

(** [sorted(d.items())] *)
Definition sorted_items (l : list (string * string)) : list (string * string) :=
  foldr insert_sorted [] l.

Fixpoint join (sep : string) (l : list string) : string :=
  match l with
  | [] => EmptyString
  | [a] => a
  | a :: r => a +:+ sep +:+ join sep r
  end.

(** [str] of a list of string pairs *)
Definition str_items (l : list (string * string)) : string :=
  "[" +:+ join ", " (map (fun kv => "(" +:+ repr kv.1 +:+ ", " +:+ repr kv.2 +:+ ")") l) +:+ "]".

End Py.

(** ** Random draws *)

Definition Rng := list nat.

Definition draw (g : Rng) : nat := hd 0 g.

(** One element of a non-empty list, as [random.choice] (possibly after
    shuffling the list) or [random.choices(..., k=1)[0]] with positive
    weights returns: any position can come out. *)
Definition choice {A} (d : A) (l : list A) (g : Rng) : A * Rng :=
  (nth (draw g mod length l) l d, tl g).

(** Removes the element at position [i]. *)
Fixpoint remove_nth {A} (i : nat) (l : list A) : list A :=
  match l, i with
  | [], _ => []
  | _ :: r, 0 => r
  | a :: r, S j => a :: remove_nth j r
  end.

(** [random.sample(l, k)]: [k] elements at distinct positions, in drawing
    order.  [random.shuffle(l)] is [sample l (length l)]. *)
Fixpoint sample {A} (k : nat) (l : list A) (g : Rng) : list A * Rng :=
  match k, l with
  | 0, _ => ([], g)
  | _, [] => ([], g)
  | S k', d :: _ =>
      let i := draw g mod length l in
      let '(r, g') := sample k' (remove_nth i l) (tl g) in
      (nth i l d :: r, g')
  end.

Definition shuffle {A} (l : list A) (g : Rng) : list A * Rng := sample (length l) l g.

(** ** Questions *)

(** A multiple-choice question as stored in the [mcqs] table.  A missing key
    of the dictionary reads as the empty string, as the code's [q.get] with
    an empty default does. *)
Record Question := {
  q_topic : string;
  q_difficulty : string;
  q_question : string;
  q_choices : list (string * string);
  q_correct_answer : string;
  q_explanation : string
}.

(** [hashlib.md5(content.encode('utf-8')).hexdigest()] is taken as an
    interface: the development holds for every digest function. *)
Class Md5 := md5_hexdigest : string → string.

(** [get_question_hash] *)
Definition get_question_hash `{Md5} (question : Question) : string :=
  let question_text := q_question question in
  let correct_answer := q_correct_answer question in
  let choices := Py.str_items (Py.sorted_items (q_choices question)) in
  let content := question_text +:+ "|" +:+ correct_answer +:+ "|" +:+ choices in
  md5_hexdigest content.

(** The first 50 characters of the question text, the older identifier of
    a question. *)
Definition question_id (q : Question) : string := Py.take_prefix 50 (q_question q).

(** ** Constants *)

Definition TOPIC_MAPPING : list (string * list string) := [
  ("Algorithm Analysis and Big-O Notation",
     ["Big-O"; "Algorithm Analysis"; "Algorithmic Analysis"; "Big O"; "Big-O Notation"]);
  ("Array-Based Lists", ["Arrays"; "Array"; "Array-Based"; "Array Based Lists"]);
  ("Linked Lists", ["Linked List"; "LinkedList"; "LinkedLists"]);
  ("Stacks", ["Stack"]);
  ("Queues", ["Queue"]);
  ("Recursion", ["Recursive"]);
  ("Searching and Hashing", ["Hashing"; "Hash"; "Search"; "Searching"]);
  ("Binary Trees", ["Tree"; "Trees"; "Binary Tree"]);
  ("Graphs", ["Graph"]);
  ("Sorting Algorithms", ["Sorting"; "Sort Algorithms"; "Sort"])
].

Definition DIFFICULTY_MAPPING : list (string * string) := [
  ("easy", "Easy"); ("medium", "Medium"); ("med", "Medium"); ("hard", "Hard")
].

Fixpoint assoc_get (k : string) (l : list (string * string)) : option string :=
  match l with
  | [] => None
  | (k', v) :: r => if String.eqb k k' then Some v else assoc_get k r
  end.

(** [DIFFICULTY_MAPPING.get(difficulty.lower(), difficulty)] *)
Definition standard_difficulty (difficulty : string) : string :=
  default difficulty (assoc_get (Py.lower difficulty) DIFFICULTY_MAPPING).

(** ** Question bank retrieval *)

(** [[q for q in all_mcqs if q["topic"] == topic and q["difficulty"] == d]] *)
Definition exact_matches (topic d : string) (all_mcqs : list Question) : list Question :=
  List.filter (fun q => String.eqb (q_topic q) topic && String.eqb (q_difficulty q) d) all_mcqs.

(** The loop over [TOPIC_MAPPING.items()]: for every entry that names
    [topic] (as main topic or as variation), the questions of the main topic
    and of each variation at difficulty [d], in that order. *)
Definition variation_matches (topic d : string) (all_mcqs : list Question) : list Question :=
  flat_map (fun entry : string * list string =>
    let main_topic := entry.1 in
    let variations := entry.2 in
    if String.eqb topic main_topic || Py.mem topic variations
    then flat_map (fun variation => exact_matches variation d all_mcqs) (main_topic :: variations)
    else []) TOPIC_MAPPING.

(** Exact match first, known variations of the topic name otherwise. *)
Definition alias_matches (topic d : string) (all_mcqs : list Question) : list Question :=
  match exact_matches topic d all_mcqs with
  | [] => variation_matches topic d all_mcqs
  | l => l
  end.

Definition partial_matches (topic d : string) (all_mcqs : list Question) : list Question :=
  List.filter (fun q => Py.str_in (Py.lower topic) (Py.lower (q_topic q))
                        && Py.str_in (Py.lower d) (Py.lower (q_difficulty q))) all_mcqs.

Definition topic_matches (topic : string) (all_mcqs : list Question) : list Question :=
  List.filter (fun q => Py.str_in (Py.lower topic) (Py.lower (q_topic q))) all_mcqs.

Definition has_difficulty (d : string) (l : list Question) : bool :=
  existsb (fun q => String.eqb (q_difficulty q) d) l.

(** The difficulty the last resort settles on. *)
Definition closest_difficulty (std_difficulty : string) (l : list Question) : string :=
  if has_difficulty std_difficulty l then std_difficulty
  else if String.eqb std_difficulty "Medium"
       then (if has_difficulty "Easy" l then "Easy" else "Hard")
  else if String.eqb std_difficulty "Easy" then "Medium"
  else if String.eqb std_difficulty "Hard" then "Medium"
  else std_difficulty.

(** The candidate list [matching_questions] of
    [get_random_question_by_topic_and_difficulty] before the final draw. *)
Definition random_candidates (topic difficulty : string) (all_mcqs : list Question)
  : list Question :=
  let std_difficulty := standard_difficulty difficulty in
  match alias_matches topic std_difficulty all_mcqs with
  | (_ :: _) as l => l
  | [] =>
    match partial_matches topic std_difficulty all_mcqs with
    | (_ :: _) as l => l
    | [] =>
      match topic_matches topic all_mcqs with
      | [] => []
      | (_ :: _) as l =>
        let closest := closest_difficulty std_difficulty l in
        match List.filter (fun q => String.eqb (q_difficulty q) closest) l with
        | [] => l
        | (_ :: _) as c => c
        end
      end
    end
  end.

(** [get_random_question_by_topic_and_difficulty] *)
Definition get_random_question_by_topic_and_difficulty
    (topic difficulty : string) (all_mcqs : list Question) (g : Rng)
  : option Question * Rng :=
  match random_candidates topic difficulty all_mcqs with
  | [] => (None, g)
  | (q :: _) as l => let '(sel, g') := choice q l g in (Some sel, g')
  end.

(** ** Sessions *)

(** [first_question_state[topic]] *)
Record FirstQuestionState := {
  is_first_question : bool;
  first_was_medium : bool;
  gave_second_easy : bool
}.

(** One entry of [session["answers"]]. *)
Record Answer := {
  a_topic : string;
  a_difficulty : string;
  a_correct : bool
}.

(** The dictionary built by [start_adaptive_test_session]
    ([test_type] is the constant "Adaptive Test"). *)
Record AdaptiveSession := {
  topics : list string;
  remaining_topics : list string;
  current_question : option Question;
  completed_topics : list string;
  weak_topics : list string;
  passed_topics : list string;
  needs_more_training : list string;
  answers : list Answer;
  questions_asked : gmap string (gmap string (list string));
  topic_question_count : gmap string nat;
  first_question_state : gmap string FirstQuestionState;
  hard_failures_count : gmap string nat;
  easy_attempts_after_medium : gmap string nat;
  came_from_hard_failure : gmap string bool;
  used_question_hashes : gset string
}.

(** The dictionary of a fixed, sequential test: the follow-up tests of
    [start_reevaluation_test] and [start_advanced_reevaluation_test], and the
    exams of [UserTracker.start_test_session]. *)
Record SequentialSession := {
  test_type : string;
  questions : list Question;
  current_question_index : nat;
  correct_answers : nat;
  incorrect_topics : list string;
  seq_topics : list string;
  user_answers : list string
}.

(** A stored session; the constructor stands for the [test_type] tag the
    code dispatches on. *)
Inductive Session :=
  | Adaptive (s : AdaptiveSession)
  | Sequential (s : SequentialSession).

Definition set_remaining_topics v s :=
  {| topics := topics s; remaining_topics := v; current_question := current_question s;
     completed_topics := completed_topics s; weak_topics := weak_topics s;
     passed_topics := passed_topics s; needs_more_training := needs_more_training s;
     answers := answers s; questions_asked := questions_asked s;
     topic_question_count := topic_question_count s;
     first_question_state := first_question_state s;
     hard_failures_count := hard_failures_count s;
     easy_attempts_after_medium := easy_attempts_after_medium s;
     came_from_hard_failure := came_from_hard_failure s;
     used_question_hashes := used_question_hashes s |}.

Definition set_current_question v s :=
  {| topics := topics s; remaining_topics := remaining_topics s; current_question := v;
     completed_topics := completed_topics s; weak_topics := weak_topics s;
     passed_topics := passed_topics s; needs_more_training := needs_more_training s;
     answers := answers s; questions_asked := questions_asked s;
     topic_question_count := topic_question_count s;
     first_question_state := first_question_state s;
     hard_failures_count := hard_failures_count s;
     easy_attempts_after_medium := easy_attempts_after_medium s;
     came_from_hard_failure := came_from_hard_failure s;
     used_question_hashes := used_question_hashes s |}.

Definition set_completed_topics v s :=
  {| topics := topics s; remaining_topics := remaining_topics s;
     current_question := current_question s;
     completed_topics := v; weak_topics := weak_topics s;
     passed_topics := passed_topics s; needs_more_training := needs_more_training s;
     answers := answers s; questions_asked := questions_asked s;
     topic_question_count := topic_question_count s;
     first_question_state := first_question_state s;
     hard_failures_count := hard_failures_count s;
     easy_attempts_after_medium := easy_attempts_after_medium s;
     came_from_hard_failure := came_from_hard_failure s;
     used_question_hashes := used_question_hashes s |}.

Definition set_needs_more_training v s :=
  {| topics := topics s; remaining_topics := remaining_topics s;
     current_question := current_question s;
     completed_topics := completed_topics s; weak_topics := weak_topics s;
     passed_topics := passed_topics s; needs_more_training := v;
     answers := answers s; questions_asked := questions_asked s;
     topic_question_count := topic_question_count s;
     first_question_state := first_question_state s;
     hard_failures_count := hard_failures_count s;
     easy_attempts_after_medium := easy_attempts_after_medium s;
     came_from_hard_failure := came_from_hard_failure s;
     used_question_hashes := used_question_hashes s |}.

Definition set_answers v s :=
  {| topics := topics s; remaining_topics := remaining_topics s;
     current_question := current_question s;
     completed_topics := completed_topics s; weak_topics := weak_topics s;
     passed_topics := passed_topics s; needs_more_training := needs_more_training s;
     answers := v; questions_asked := questions_asked s;
     topic_question_count := topic_question_count s;
     first_question_state := first_question_state s;
     hard_failures_count := hard_failures_count s;
     easy_attempts_after_medium := easy_attempts_after_medium s;
     came_from_hard_failure := came_from_hard_failure s;
     used_question_hashes := used_question_hashes s |}.

Definition set_questions_asked v s :=
  {| topics := topics s; remaining_topics := remaining_topics s;
     current_question := current_question s;
     completed_topics := completed_topics s; weak_topics := weak_topics s;
     passed_topics := passed_topics s; needs_more_training := needs_more_training s;
     answers := answers s; questions_asked := v;
     topic_question_count := topic_question_count s;
     first_question_state := first_question_state s;
     hard_failures_count := hard_failures_count s;
     easy_attempts_after_medium := easy_attempts_after_medium s;
     came_from_hard_failure := came_from_hard_failure s;
     used_question_hashes := used_question_hashes s |}.

Definition set_topic_question_count v s :=
  {| topics := topics s; remaining_topics := remaining_topics s;
     current_question := current_question s;
     completed_topics := completed_topics s; weak_topics := weak_topics s;
     passed_topics := passed_topics s; needs_more_training := needs_more_training s;
     answers := answers s; questions_asked := questions_asked s;
     topic_question_count := v;
     first_question_state := first_question_state s;
     hard_failures_count := hard_failures_count s;
     easy_attempts_after_medium := easy_attempts_after_medium s;
     came_from_hard_failure := came_from_hard_failure s;
     used_question_hashes := used_question_hashes s |}.

Definition set_first_question_state v s :=
  {| topics := topics s; remaining_topics := remaining_topics s;
     current_question := current_question s;
     completed_topics := completed_topics s; weak_topics := weak_topics s;
     passed_topics := passed_topics s; needs_more_training := needs_more_training s;
     answers := answers s; questions_asked := questions_asked s;
     topic_question_count := topic_question_count s;
     first_question_state := v;
     hard_failures_count := hard_failures_count s;
     easy_attempts_after_medium := easy_attempts_after_medium s;
     came_from_hard_failure := came_from_hard_failure s;
     used_question_hashes := used_question_hashes s |}.

Definition set_hard_failures_count v s :=
  {| topics := topics s; remaining_topics := remaining_topics s;
     current_question := current_question s;
     completed_topics := completed_topics s; weak_topics := weak_topics s;
     passed_topics := passed_topics s; needs_more_training := needs_more_training s;
     answers := answers s; questions_asked := questions_asked s;
     topic_question_count := topic_question_count s;
     first_question_state := first_question_state s;
     hard_failures_count := v;
     easy_attempts_after_medium := easy_attempts_after_medium s;
     came_from_hard_failure := came_from_hard_failure s;
     used_question_hashes := used_question_hashes s |}.

Definition set_easy_attempts_after_medium v s :=
  {| topics := topics s; remaining_topics := remaining_topics s;
     current_question := current_question s;
     completed_topics := completed_topics s; weak_topics := weak_topics s;
     passed_topics := passed_topics s; needs_more_training := needs_more_training s;
     answers := answers s; questions_asked := questions_asked s;
     topic_question_count := topic_question_count s;
     first_question_state := first_question_state s;
     hard_failures_count := hard_failures_count s;
     easy_attempts_after_medium := v;
     came_from_hard_failure := came_from_hard_failure s;
     used_question_hashes := used_question_hashes s |}.

Definition set_came_from_hard_failure v s :=
  {| topics := topics s; remaining_topics := remaining_topics s;
     current_question := current_question s;
     completed_topics := completed_topics s; weak_topics := weak_topics s;
     passed_topics := passed_topics s; needs_more_training := needs_more_training s;
     answers := answers s; questions_asked := questions_asked s;
     topic_question_count := topic_question_count s;
     first_question_state := first_question_state s;
     hard_failures_count := hard_failures_count s;
     easy_attempts_after_medium := easy_attempts_after_medium s;
     came_from_hard_failure := v;
     used_question_hashes := used_question_hashes s |}.

Definition set_used_question_hashes v s :=
  {| topics := topics s; remaining_topics := remaining_topics s;
     current_question := current_question s;
     completed_topics := completed_topics s; weak_topics := weak_topics s;
     passed_topics := passed_topics s; needs_more_training := needs_more_training s;
     answers := answers s; questions_asked := questions_asked s;
     topic_question_count := topic_question_count s;
     first_question_state := first_question_state s;
     hard_failures_count := hard_failures_count s;
     easy_attempts_after_medium := easy_attempts_after_medium s;
     came_from_hard_failure := came_from_hard_failure s;
     used_question_hashes := v |}.

(** ** The learner's world: cache and database *)

(** A row of [user_tests]. *)
Record TestResult := {
  tr_test_type : string;
  tr_topics : list string;
  tr_score : option (nat * nat);
  tr_weak_topics : list string;
  tr_passed_topics : list string;
  tr_needs_more_training : list string
}.

(** [user_data[user_id]] *)
Record UserInfo := {
  current_test_session : option Session;
  weak_topic_pool : list string;
  needs_more_training_pool : list string
}.

Record World := {
  user_data : option UserInfo;        (* the learner's cache entry, if any *)
  db_session : option Session;        (* row of [user_sessions] *)
  db_weak_topics : list string;       (* rows of [user_weak_topics] *)
  db_needs_training : list string;    (* rows of [user_needs_training] *)
  db_tests : list TestResult;         (* rows of [user_tests], oldest first *)
  rng : Rng
}.

Definition set_user_data v w :=
  {| user_data := v; db_session := db_session w; db_weak_topics := db_weak_topics w;
     db_needs_training := db_needs_training w; db_tests := db_tests w; rng := rng w |}.

Definition set_db_session v w :=
  {| user_data := user_data w; db_session := v; db_weak_topics := db_weak_topics w;
     db_needs_training := db_needs_training w; db_tests := db_tests w; rng := rng w |}.

Definition set_db_weak_topics v w :=
  {| user_data := user_data w; db_session := db_session w; db_weak_topics := v;
     db_needs_training := db_needs_training w; db_tests := db_tests w; rng := rng w |}.

Definition set_db_needs_training v w :=
  {| user_data := user_data w; db_session := db_session w;
     db_weak_topics := db_weak_topics w;
     db_needs_training := v; db_tests := db_tests w; rng := rng w |}.

Definition set_db_tests v w :=
  {| user_data := user_data w; db_session := db_session w;
     db_weak_topics := db_weak_topics w;
     db_needs_training := db_needs_training w; db_tests := v; rng := rng w |}.

Definition set_rng v w :=
  {| user_data := user_data w; db_session := db_session w;
     db_weak_topics := db_weak_topics w;
     db_needs_training := db_needs_training w; db_tests := db_tests w; rng := v |}.

(** *** [DatabaseManager] *)

(** [save_user_session]: the row is replaced; [None] just deletes it.  The
    JSON round trip turns the set of hashes into a list and back, which
    loses nothing. *)
Definition save_user_session (session_data : option Session) (w : World) : World :=
  set_db_session session_data w.

Definition load_user_session (w : World) : option Session := db_session w.

Definition clear_user_session (w : World) : World := set_db_session None w.

(** [INSERT OR IGNORE] under the [UNIQUE(user_id, topic)] constraint. *)
Definition add_weak_topic (topic : string) (w : World) : World :=
  set_db_weak_topics (Py.append_if_absent topic (db_weak_topics w)) w.

Definition add_needs_training_topic (topic : string) (w : World) : World :=
  set_db_needs_training (Py.append_if_absent topic (db_needs_training w)) w.

Definition save_user_test (test_data : TestResult) (w : World) : World :=
  set_db_tests (db_tests w ++ [test_data]) w.

(** The rows of a pool table after [INSERT OR IGNORE] of each topic in turn. *)
Definition insert_all (topic_list rows : list string) : list string :=
  foldl (fun rows topic => Py.append_if_absent topic rows) rows topic_list.

(** [for topic in topic_list: db_manager.add_weak_topic(user_id, topic)] *)
Definition add_weak_topics (topic_list : list string) (w : World) : World :=
  set_db_weak_topics (insert_all topic_list (db_weak_topics w)) w.

(** [for topic in topic_list: db_manager.add_needs_training_topic(user_id, topic)] *)
Definition add_needs_training_topics (topic_list : list string) (w : World) : World :=
  set_db_needs_training (insert_all topic_list (db_needs_training w)) w.

(** *** Cache helpers of [chatbot.py] *)

(** [get_user_data]: a fresh dictionary read from the database. *)
Definition get_user_data (w : World) : UserInfo :=
  {| current_test_session := load_user_session w;
     weak_topic_pool := db_weak_topics w;
     needs_more_training_pool := db_needs_training w |}.

(** [save_user_data]: writes the cached session and pools back. *)
Definition save_user_data (w : World) : World :=
  match user_data w with
  | None => w
  | Some data =>
      let w := save_user_session (current_test_session data) w in
      let w := add_weak_topics (weak_topic_pool data) w in
      add_needs_training_topics (needs_more_training_pool data) w
  end.

(** [user_data.get(user_id, {}).get("current_test_session")] *)
Definition cached_session (w : World) : option Session :=
  match user_data w with
  | None => None
  | Some data => current_test_session data
  end.

(** [user_data[user_id]["current_test_session"] = v] for a cached learner *)
Definition set_cached_session (v : option Session) (w : World) : World :=
  match user_data w with
  | None => w
  | Some data =>
      set_user_data (Some {| current_test_session := v;
                             weak_topic_pool := weak_topic_pool data;
                             needs_more_training_pool := needs_more_training_pool data |}) w
  end.

(** In-place mutation of the cached adaptive session object. *)
Definition modify_cached (f : AdaptiveSession → AdaptiveSession) (w : World) : World :=
  match cached_session w with
  | Some (Adaptive s) => set_cached_session (Some (Adaptive (f s))) w
  | _ => w
  end.

(** ** Adaptive session life cycle *)

(** [start_adaptive_test_session] *)
Definition start_adaptive_test_session (selected : list string) (w : World) : World :=
  let session_data := Adaptive
    {| topics := selected; remaining_topics := selected; current_question := None;
       completed_topics := []; weak_topics := []; passed_topics := [];
       needs_more_training := []; answers := []; questions_asked := ∅;
       topic_question_count := ∅; first_question_state := ∅;
       hard_failures_count := ∅; easy_attempts_after_medium := ∅;
       came_from_hard_failure := ∅; used_question_hashes := ∅ |} in
  let w := save_user_session (Some session_data) w in
  match user_data w with
  | Some _ => set_cached_session (Some session_data) w
  | None => set_user_data (Some (get_user_data w)) w
  end.

(** [get_current_adaptive_topic] *)
Definition get_current_adaptive_topic (w : World) : option string :=
  match load_user_session w with
  | Some (Adaptive session) => head (remaining_topics session)
  | _ => None
  end.

(** [set_current_adaptive_question]: works on the stored session and then
    replaces the cached one by a copy of it. *)
Definition set_current_adaptive_question `{Md5} (question : Question) (w : World) : World :=
  match load_user_session w with
  | Some (Adaptive session) =>
      let session := set_current_question (Some question) session in
      let used_hashes := used_question_hashes session ∪ {[ get_question_hash question ]} in
      let session := set_used_question_hashes used_hashes session in
      let w := save_user_session (Some (Adaptive session)) w in
      match user_data w with
      | Some _ => set_cached_session (Some (Adaptive session)) w
      | None => w
      end
  | _ => w
  end.

(** [record_adaptive_answer] *)
Definition record_adaptive_answer (is_correct : bool) (topic difficulty : string)
    (w : World) : World :=
  match cached_session w with
  | Some (Adaptive session) =>
      let entry := {| a_topic := topic; a_difficulty := difficulty; a_correct := is_correct |} in
      save_user_data (modify_cached (fun s => set_answers (answers s ++ [entry]) s) w)
  | _ => w
  end.

(** [move_to_next_adaptive_topic] *)
Definition move_to_next_adaptive_topic (w : World) : World * option string :=
  match cached_session w with
  | Some (Adaptive session) =>
      let w :=
        match remaining_topics session with
        | completed_topic :: rest =>
            modify_cached (fun s => set_completed_topics (completed_topics s ++ [completed_topic])
                                      (set_remaining_topics rest s)) w
        | [] => w
        end in
      let next_topic :=
        match cached_session w with
        | Some (Adaptive s) => head (remaining_topics s)
        | _ => None
        end in
      (save_user_data w, next_topic)
  | _ => (w, None)
  end.

(** ** Outcome classifier *)

(** [topic_results[topic]["total"] += 1] and the conditional increment of
    ["correct"]; a new topic is appended, as a Python dictionary keeps
    insertion order. *)
Fixpoint tally (topic : string) (correct : bool) (l : list (string * (nat * nat)))
  : list (string * (nat * nat)) :=
  match l with
  | [] => [(topic, ((if correct then 1 else 0), 1))]
  | (t, (c, n)) :: r =>
      if String.eqb t topic
      then (t, ((if correct then S c else c), S n)) :: r
      else (t, (c, n)) :: tally topic correct r
  end.

(** The dictionary [topic_results] of [update_adaptive_test_results]:
    per topic, the pair (correct, total). *)
Definition topic_results (l : list Answer) : list (string * (nat * nat)) :=
  foldl (fun acc a => tally (a_topic a) (a_correct a) acc) [] l.

(** [score < 0.5] for [score = correct / total] with [total > 0]: the
    quotient of two small integers is below one half exactly when twice the
    numerator is below the denominator. *)
Definition below_half (c n : nat) : bool := 2 * c <? n.

Definition classify_weak (needs : list string) (res : list (string * (nat * nat)))
  : list string :=
  map fst (List.filter (fun r : string * (nat * nat) =>
             negb (Py.mem r.1 needs) && (0 <? r.2.2) && below_half r.2.1 r.2.2) res).

Definition classify_passed (needs : list string) (res : list (string * (nat * nat)))
  : list string :=
  map fst (List.filter (fun r : string * (nat * nat) =>
             negb (Py.mem r.1 needs) && (0 <? r.2.2) && negb (below_half r.2.1 r.2.2)) res).

(** The values the code passes as [type] of a next action. *)
Inductive ActionType :=
  | act_next_question
  | act_topic_complete
  | act_warning
  | act_mark_weak_and_continue
  | act_needs_training_complete
  | act_topic_max_reached
  | act_next_topic
  | act_complete
  | act_offer_reevaluation.

Definition ActionType_eqb (a b : ActionType) : bool :=
  match a, b with
  | act_next_question, act_next_question
  | act_topic_complete, act_topic_complete
  | act_warning, act_warning
  | act_mark_weak_and_continue, act_mark_weak_and_continue
  | act_needs_training_complete, act_needs_training_complete
  | act_topic_max_reached, act_topic_max_reached
  | act_next_topic, act_next_topic
  | act_complete, act_complete
  | act_offer_reevaluation, act_offer_reevaluation => true
  | _, _ => false
  end.

(** The pool update loops at the end of [update_adaptive_test_results]: a
    topic missing from the local pool (first component) is appended to it
    and inserted into the table (second component). *)
Definition pool_step (insert : string → list string → list string)
    (st : list string * list string) (topic : string) : list string * list string :=
  if Py.mem topic st.1 then st else (st.1 ++ [topic], insert topic st.2).

Definition update_pool (topic_list local_pool rows : list string) : list string :=
  (foldl (pool_step Py.append_if_absent) (local_pool, rows) topic_list).2.

(** [update_adaptive_test_results].  The session it classifies is the
    stored one, read through [get_user_data]; the classified lists are
    written to the test history by [save_user_test]. *)
Definition update_adaptive_test_results (result_type : ActionType) (w : World) : World :=
  let user_info := get_user_data w in
  match current_test_session user_info with
  | Some (Adaptive session) =>
      let results := topic_results (answers session) in
      let needs := needs_more_training session in
      let weak := classify_weak needs results in
      let passed := classify_passed needs results in
      let w :=
        if ActionType_eqb result_type act_complete then
          let test_result :=
            {| tr_test_type := "Adaptive Test"; tr_topics := topics session;
               tr_score := None; tr_weak_topics := weak; tr_passed_topics := passed;
               tr_needs_more_training := needs |} in
          let w := save_user_test test_result w in
          let w := set_db_weak_topics
                     (update_pool weak (weak_topic_pool user_info) (db_weak_topics w)) w in
          let w := set_db_needs_training
                     (update_pool needs (needs_more_training_pool user_info)
                        (db_needs_training w)) w in
          clear_user_session w
        else w in
      save_user_data w
  | _ => w
  end.

(** ** The difficulty state machine *)

Record NextAction := {
  na_type : ActionType;
  na_difficulty : option string;
  na_topic : option string;
  set_hard_failure_flag : bool;
  reset_hard_failure_flag : bool
}.

Definition action (ty : ActionType) (d : option string) (t : option string) : NextAction :=
  {| na_type := ty; na_difficulty := d; na_topic := t;
     set_hard_failure_flag := false; reset_hard_failure_flag := false |}.

(** [determine_next_adaptive_action] *)
Definition determine_next_adaptive_action (is_correct : bool)
    (current_difficulty current_topic : string) (hard_failures : nat)
    (came_from_hard_failure : bool) : NextAction :=
  if is_correct then
    if String.eqb current_difficulty "Medium" then
      if came_from_hard_failure then
        {| na_type := act_next_question; na_difficulty := Some "Hard";
           na_topic := Some current_topic;
           set_hard_failure_flag := false; reset_hard_failure_flag := true |}
      else action act_next_question (Some "Hard") (Some current_topic)
    else if String.eqb current_difficulty "Easy" then
      action act_next_question (Some "Medium") (Some current_topic)
    else if String.eqb current_difficulty "Hard" then
      action act_topic_complete None (Some current_topic)
    else action act_next_question (Some "Medium") (Some current_topic)
  else
    if String.eqb current_difficulty "Medium" then
      action act_next_question (Some "Easy") (Some current_topic)
    else if String.eqb current_difficulty "Easy" then
      action act_topic_complete None (Some current_topic)
    else if String.eqb current_difficulty "Hard" then
      {| na_type := act_warning; na_difficulty := Some "Medium";
         na_topic := Some current_topic;
         set_hard_failure_flag := true; reset_hard_failure_flag := false |}
    else action act_next_question (Some "Medium") (Some current_topic).

(** ** De-duplicated retrieval *)

Definition empty_asked : gmap string (list string) :=
  <["Easy" := []]> (<["Medium" := []]> (<["Hard" := []]> ∅)).

(** The two [if ... not in ...] initialisations of the nested dictionary
    [questions_asked]. *)
Definition init_asked (topic difficulty : string)
    (qa : gmap string (gmap string (list string))) : gmap string (gmap string (list string)) :=
  let qa := match qa !! topic with Some _ => qa | None => <[topic := empty_asked]> qa end in
  match qa !! topic with
  | Some m =>
      match m !! difficulty with
      | Some _ => qa
      | None => <[topic := <[difficulty := []]> m]> qa
      end
  | None => qa
  end.

(** [questions_asked[topic][difficulty]] *)
Definition asked_for (topic difficulty : string)
    (qa : gmap string (gmap string (list string))) : list string :=
  match qa !! topic with
  | Some m => default [] (m !! difficulty)
  | None => []
  end.

(** Replaces the list [questions_asked[topic][difficulty]]. *)
Definition set_asked (topic difficulty : string) (l : list string)
    (qa : gmap string (gmap string (list string))) : gmap string (gmap string (list string)) :=
  match qa !! topic with
  | Some m => <[topic := <[difficulty := l]> m]> qa
  | None => qa
  end.

Definition cached_used (w : World) : gset string :=
  match cached_session w with
  | Some (Adaptive s) => used_question_hashes s
  | _ => ∅
  end.

Definition cached_asked (topic difficulty : string) (w : World) : list string :=
  match cached_session w with
  | Some (Adaptive s) => asked_for topic difficulty (questions_asked s)
  | _ => []
  end.

(** [session["used_question_hashes"].add(h)] followed by the write of the
    session copy to the database. *)
Definition mark_used_and_save (h : string) (w : World) : World :=
  let w := modify_cached (fun s => set_used_question_hashes (used_question_hashes s ∪ {[ h ]}) s) w in
  save_user_session (cached_session w) w.

(** The unfiltered retrieval, drawing from the world's random stream. *)
Definition random_question (topic difficulty : string) (all_mcqs : list Question)
    (w : World) : World * option Question :=
  let '(q, g) := get_random_question_by_topic_and_difficulty topic difficulty all_mcqs (rng w) in
  (set_rng g w, q).

Definition draw_choice (d : Question) (l : list Question) (w : World) : World * Question :=
  let '(q, g) := choice d l (rng w) in (set_rng g w, q).

(** Candidates of the requested difficulty that are neither hashed as used
    nor listed by identifier. *)
Definition unused_candidates `{Md5} (used : gset string) (asked : list string)
    (matching_questions : list Question) : list Question :=
  List.filter (fun q => negb (bool_decide (get_question_hash q ∈ used))
                        && negb (Py.mem (question_id q) asked)) matching_questions.

(** Questions of the same topic at the other difficulties whose hash is
    not used. *)
Definition other_difficulty_candidates `{Md5} (used : gset string) (topic difficulty : string)
    (all_mcqs : list Question) : list Question :=
  List.filter (fun q => negb (bool_decide (get_question_hash q ∈ used)))
    (flat_map (fun alt_difficulty =>
                 if String.eqb alt_difficulty difficulty then []
                 else exact_matches topic alt_difficulty all_mcqs)
              ["Easy"; "Medium"; "Hard"]).

(** [get_unused_question_by_topic_and_difficulty].  A cached session that
    is not adaptive carries no hashes and no identifier lists. *)
Definition get_unused_question_by_topic_and_difficulty `{Md5}
    (topic : string) (difficulty : option string) (all_mcqs : list Question) (w : World)
  : World * option Question :=
  let difficulty := default "Medium" difficulty in
  match cached_session w with
  | None => random_question topic difficulty all_mcqs w
  | Some _ =>
      let w := modify_cached (fun s =>
                 set_questions_asked (init_asked topic difficulty (questions_asked s)) s) w in
      let used := cached_used w in
      let asked := cached_asked topic difficulty w in
      let std_difficulty := standard_difficulty difficulty in
      let matching_questions := alias_matches topic std_difficulty all_mcqs in
      match unused_candidates used asked matching_questions with
      | (q0 :: _) as unused_questions =>
          let '(w, selected_question) := draw_choice q0 unused_questions w in
          let w := modify_cached (fun s =>
                     set_questions_asked
                       (set_asked topic difficulty (asked ++ [question_id selected_question])
                                  (questions_asked s)) s) w in
          (mark_used_and_save (get_question_hash selected_question) w, Some selected_question)
      | [] =>
          match matching_questions with
          | m0 :: _ =>
              match other_difficulty_candidates used topic difficulty all_mcqs with
              | (t0 :: _) as truly_unused =>
                  let '(w, selected_question) := draw_choice t0 truly_unused w in
                  (mark_used_and_save (get_question_hash selected_question) w,
                   Some selected_question)
              | [] =>
                  let '(w, selected_question) := draw_choice m0 matching_questions w in
                  (mark_used_and_save (get_question_hash selected_question) w,
                   Some selected_question)
              end
          | [] => random_question topic difficulty all_mcqs w
          end
      end
  end.

(** ** Processing an adaptive answer *)

(** Either the dictionary with an ["error"] key or a regular reply. *)
Inductive Result (A : Type) :=
  | Err (error : string)
  | Ok (value : A).
Arguments Err {A} error.
Arguments Ok {A} value.

(** The reply dictionary of [process_adaptive_answer]. *)
Record AnswerResult := {
  r_correct : bool;
  r_question : Question;
  r_correct_answer : string;
  r_explanation : string;
  r_next_action : NextAction;
  r_next_question : option Question;
  r_show_completion : option bool
}.

Definition reply (is_correct : bool) (current_question : Question)
    (next_action : NextAction) (next_question : option Question)
    (show_completion : option bool) : AnswerResult :=
  {| r_correct := is_correct; r_question := current_question;
     r_correct_answer := q_correct_answer current_question;
     r_explanation := q_explanation current_question;
     r_next_action := next_action; r_next_question := next_question;
     r_show_completion := show_completion |}.

(** [if key not in d: d[key] = v] *)
Definition init_key {V} (k : string) (v : V) (m : gmap string V) : gmap string V :=
  match m !! k with
  | Some _ => m
  | None => <[k := v]> m
  end.

Definition fresh_first_state : FirstQuestionState :=
  {| is_first_question := true; first_was_medium := false; gave_second_easy := false |}.

(** The per-topic initialisations at the start of [process_adaptive_answer]. *)
Definition init_tracking (current_topic : string) (s : AdaptiveSession) : AdaptiveSession :=
  let s := set_hard_failures_count (init_key current_topic 0 (hard_failures_count s)) s in
  let s := set_came_from_hard_failure
             (init_key current_topic false (came_from_hard_failure s)) s in
  let s := set_easy_attempts_after_medium
             (init_key current_topic 0 (easy_attempts_after_medium s)) s in
  set_first_question_state
    (init_key current_topic fresh_first_state (first_question_state s)) s.

Definition first_state_of (current_topic : string) (s : AdaptiveSession) : FirstQuestionState :=
  default fresh_first_state (first_question_state s !! current_topic).

(** [first_state["first_was_medium"] = True] *)
Definition mark_first_was_medium (current_topic : string) (s : AdaptiveSession) : AdaptiveSession :=
  let fs := first_state_of current_topic s in
  set_first_question_state
    (<[current_topic := {| is_first_question := is_first_question fs;
                           first_was_medium := true;
                           gave_second_easy := gave_second_easy fs |}]>
       (first_question_state s)) s.

(** [first_state["is_first_question"] = False] *)
Definition clear_first_question (current_topic : string) (s : AdaptiveSession) : AdaptiveSession :=
  let fs := first_state_of current_topic s in
  set_first_question_state
    (<[current_topic := {| is_first_question := false;
                           first_was_medium := first_was_medium fs;
                           gave_second_easy := gave_second_easy fs |}]>
       (first_question_state s)) s.

(** [d[key] += 1] on a counter dictionary *)
Definition incr_key (k : string) (m : gmap string nat) : gmap string nat :=
  <[k := S (default 0 (m !! k))]> m.

(** [db_manager.save_user_session(user_id, session)] for the session object
    the function works on, which is the cached one. *)
Definition save_cached (w : World) : World := save_user_session (cached_session w) w.

(** A string used as a condition: the empty topic counts as no topic. *)
Definition truthy (t : option string) : option string :=
  match t with
  | Some s => if String.eqb s EmptyString then None else Some s
  | None => None
  end.

(** The special sequence after a first Medium question
    ([if first_state["is_first_question"]: ...]).  [inr] is an early
    [return]. *)
Definition first_question_sequence `{Md5} (is_correct : bool) (current_question : Question)
    (all_mcqs : list Question) (s : AdaptiveSession) (w : World)
  : World + World * AnswerResult :=
  let current_topic := q_topic current_question in
  let current_difficulty := q_difficulty current_question in
  let first_state := first_state_of current_topic s in
  if is_first_question first_state then
    if String.eqb current_difficulty "Medium" then
      let w := modify_cached (mark_first_was_medium current_topic) w in
      if is_correct then inl (modify_cached (clear_first_question current_topic) w)
      else inl (save_cached w)
    else if String.eqb current_difficulty "Easy" && first_was_medium first_state then
      let w := modify_cached (fun s => set_easy_attempts_after_medium
                                         (incr_key current_topic (easy_attempts_after_medium s)) s) w in
      let easy_attempts := S (default 0 (easy_attempts_after_medium s !! current_topic)) in
      if negb is_correct then
        if easy_attempts <? 2 then
          let w := save_cached w in
          let '(w, next_question) :=
            get_unused_question_by_topic_and_difficulty current_topic (Some "Easy") all_mcqs w in
          match next_question with
          | Some q =>
              let w := set_current_adaptive_question q w in
              inr (w, reply is_correct current_question
                        (action act_next_question (Some "Easy") (Some current_topic))
                        (Some q) None)
          | None =>
              let w := save_cached (modify_cached (clear_first_question current_topic) w) in
              inr (w, reply is_correct current_question
                        (action act_mark_weak_and_continue None (Some current_topic))
                        None None)
          end
        else
          let w := save_cached (modify_cached (clear_first_question current_topic) w) in
          inr (w, reply is_correct current_question
                    (action act_mark_weak_and_continue None (Some current_topic))
                    None None)
      else inl (modify_cached (clear_first_question current_topic) w)
    else inl w
  else inl w.

(** The immediate check of Hard failures. *)
Definition hard_failure_check (is_correct : bool) (current_question : Question)
    (s : AdaptiveSession) (w : World) : World + World * AnswerResult :=
  let current_topic := q_topic current_question in
  if String.eqb (q_difficulty current_question) "Hard" && negb is_correct then
    let w := modify_cached (fun s => set_hard_failures_count
                                       (incr_key current_topic (hard_failures_count s)) s) w in
    let w := save_cached w in
    if 2 <=? S (default 0 (hard_failures_count s !! current_topic)) then
      let w := modify_cached (fun s => set_needs_more_training
                                         (Py.append_if_absent current_topic (needs_more_training s)) s) w in
      let w := save_cached w in
      inr (w, reply is_correct current_question
                (action act_needs_training_complete None (Some current_topic)) None None)
    else inl w
  else inl w.

(** The bookkeeping between the Hard check and the state machine:
    [questions_asked] and [topic_question_count]. *)
Definition count_question (current_question : Question) (s : AdaptiveSession) : AdaptiveSession :=
  let current_topic := q_topic current_question in
  let current_difficulty := q_difficulty current_question in
  let qa := init_asked current_topic current_difficulty (questions_asked s) in
  let qa := set_asked current_topic current_difficulty
              (Py.append_if_absent (question_id current_question)
                 (asked_for current_topic current_difficulty qa)) qa in
  let s := set_questions_asked qa s in
  set_topic_question_count
    (match topic_question_count s !! current_topic with
     | None => <[current_topic := 1]> (topic_question_count s)
     | Some n => <[current_topic := S n]> (topic_question_count s)
     end) s.

(** The flag updates requested by the next action. *)
Definition update_flags (current_topic : string) (next_action : NextAction)
    (s : AdaptiveSession) : AdaptiveSession :=
  let s := if set_hard_failure_flag next_action
           then set_came_from_hard_failure (<[current_topic := true]> (came_from_hard_failure s)) s
           else s in
  if reset_hard_failure_flag next_action
  then set_came_from_hard_failure (<[current_topic := false]> (came_from_hard_failure s)) s
  else s.

(** The action as stored in the reply, once its flag keys are deleted. *)
Definition strip_flags (a : NextAction) : NextAction :=
  action (na_type a) (na_difficulty a) (na_topic a).

Definition max_questions_per_topic : nat := 5.

Definition exception_message : string :=
  "An error occurred while processing your answer. Please try again or use /reset if you continue to have issues.".

(** Reads the session object the function holds.  It is the cached object
    throughout (nothing replaces the cache entry before the last use of the
    local variable), so the other case is the [except] clause. *)
Definition with_session {A} (w : World) (k : AdaptiveSession → World * Result A)
  : World * Result A :=
  match cached_session w with
  | Some (Adaptive s) => k s
  | _ => (w, Err exception_message)
  end.

Definition is_completion_type (ty : ActionType) : bool :=
  ActionType_eqb ty act_complete || ActionType_eqb ty act_offer_reevaluation
  || ActionType_eqb ty act_topic_complete.

(** The end of the test inside [process_adaptive_answer]. *)
Definition finish_adaptive (is_correct : bool) (current_question : Question)
    (next_action : NextAction) (w : World) : World * Result AnswerResult :=
  (update_adaptive_test_results act_complete w,
   Ok (reply is_correct current_question next_action None (Some true))).

(** [process_adaptive_answer] from the bookkeeping of the answered question
    to the end. *)
Definition continue_adaptive `{Md5} (is_correct : bool) (current_question : Question)
    (all_mcqs : list Question) (w : World) : World * Result AnswerResult :=
  let current_topic := q_topic current_question in
  let current_difficulty := q_difficulty current_question in
  let w := modify_cached (count_question current_question) w in
  with_session w (fun s =>
    let hard_failures := default 0 (hard_failures_count s !! current_topic) in
    let came_from := default false (came_from_hard_failure s !! current_topic) in
    let next_action :=
      determine_next_adaptive_action is_correct current_difficulty current_topic
        hard_failures came_from in
    let is_critical_hard_retry :=
      ActionType_eqb (na_type next_action) act_next_question
      && bool_decide (na_difficulty next_action = Some "Hard")
      && came_from in
    let w := modify_cached (update_flags current_topic next_action) w in
    let next_action := strip_flags next_action in
    if is_completion_type (na_type next_action) then
      if ActionType_eqb (na_type next_action) act_topic_complete then
        let '(w, next_topic) := move_to_next_adaptive_topic w in
        match truthy next_topic with
        | Some next_topic =>
            let '(w, next_question) :=
              get_unused_question_by_topic_and_difficulty next_topic (Some "Medium") all_mcqs w in
            match next_question with
            | Some q =>
                let w := set_current_adaptive_question q w in
                (w, Ok (reply is_correct current_question
                          (action act_next_topic None (Some next_topic)) (Some q) None))
            | None => finish_adaptive is_correct current_question next_action w
            end
        | None => finish_adaptive is_correct current_question next_action w
        end
      else
        (update_adaptive_test_results (na_type next_action) w,
         Ok (reply is_correct current_question next_action None
               (Some (ActionType_eqb (na_type next_action) act_complete))))
    else
      let current_question_count := default 0 (topic_question_count s !! current_topic) in
      if (max_questions_per_topic <=? current_question_count) && negb is_critical_hard_retry then
        (w, Ok (reply is_correct current_question
                  (action act_topic_max_reached None (Some current_topic)) None None))
      else
        let next_topic := default current_topic (na_topic next_action) in
        let next_difficulty := na_difficulty next_action in
        let '(w, next_question) :=
          if is_critical_hard_retry then
            let '(w, next_question) :=
              get_unused_question_by_topic_and_difficulty next_topic next_difficulty all_mcqs w in
            match next_question, next_difficulty with
            | None, Some d => random_question next_topic d all_mcqs w
            | _, _ => (w, next_question)
            end
          else
            get_unused_question_by_topic_and_difficulty next_topic next_difficulty all_mcqs w in
        let '(w, next_question) :=
          match next_question with
          | Some _ => (w, next_question)
          | None =>
              match cached_session w with
              | Some (Adaptive session) =>
                  if 0 <? length (remaining_topics session) then
                    let '(w, next_topic) := move_to_next_adaptive_topic w in
                    match truthy next_topic with
                    | Some next_topic =>
                        get_unused_question_by_topic_and_difficulty next_topic (Some "Medium")
                          all_mcqs w
                    | None => (w, None)
                    end
                  else (w, None)
              | _ => (w, None)
              end
          end in
        match next_question with
        | Some q =>
            let w := set_current_adaptive_question q w in
            (w, Ok (reply is_correct current_question next_action (Some q) None))
        | None =>
            (update_adaptive_test_results act_complete w,
             Ok (reply is_correct current_question (action act_complete None None)
                   None (Some true)))
        end).

(** [process_adaptive_answer] *)
Definition process_adaptive_answer `{Md5} (answer : string) (all_mcqs : list Question)
    (w : World) : World * Result AnswerResult :=
  match user_data w with
  | None => (w, Err "User session not found. Please start a new test with /adaptive_test.")
  | Some data =>
    match current_test_session data with
    | None => (w, Err "No active test session. Please start a new test.")
    | Some (Sequential _) => (w, Err "This is not an adaptive test session.")
    | Some (Adaptive session) =>
      match current_question session with
      | None => (w, Err "No current question. Please start a new test.")
      | Some current_question =>
          let is_correct :=
            String.eqb (Py.upper answer) (Py.upper (q_correct_answer current_question)) in
          let current_topic := q_topic current_question in
          let current_difficulty := q_difficulty current_question in
          let w := record_adaptive_answer is_correct current_topic current_difficulty w in
          let w := modify_cached (init_tracking current_topic) w in
          with_session w (fun s =>
            match first_question_sequence is_correct current_question all_mcqs s w with
            | inr (w, r) => (w, Ok r)
            | inl w =>
                with_session w (fun s =>
                  match hard_failure_check is_correct current_question s w with
                  | inr (w, r) => (w, Ok r)
                  | inl w => continue_adaptive is_correct current_question all_mcqs w
                  end)
            end)
      end
    end
  end.

(** ** The answer handler of the chat layer

    The branch [adaptive_answer:] of [button_handler], reduced to its calls
    into the engine; what the learner is shown next is the output. *)

Inductive Shown :=
  | shown_question (q : Question)
  | shown_completion
  | shown_error (msg : string).

(** [show_adaptive_test_completion], as far as it touches the state: once
    the summary is sent, the session is removed from the cache and from the
    database.  A learner missing from the cache is entered there when the
    summary had something to show (a recent adaptive test in the history,
    or a stored adaptive session). *)
Definition completion_data_found (w : World) : bool :=
  existsb (fun t => String.eqb (tr_test_type t) "Adaptive Test") (take 5 (rev (db_tests w)))
  || match load_user_session w with
     | Some (Adaptive _) => true
     | _ => false
     end.

Definition show_adaptive_test_completion (w : World) : World :=
  let w :=
    match user_data w with
    | Some _ => set_cached_session None w
    | None =>
        if completion_data_found w
        then set_user_data (Some {| current_test_session := None;
                                    weak_topic_pool := db_weak_topics w;
                                    needs_more_training_pool := db_needs_training w |}) w
        else w
    end in
  save_user_data (clear_user_session w).

(** [update_adaptive_test_results(user_id, "complete")] followed by
    [show_adaptive_test_completion], the end of every completing branch of
    the handler. *)
Definition complete_test (w : World) : World * Shown :=
  (show_adaptive_test_completion (update_adaptive_test_results act_complete w),
   shown_completion).

(** The common tail of the handler branches: a Medium question of the next
    topic, or the end of the test. *)
Definition open_next_topic `{Md5} (deduplicated : bool) (all_mcqs : list Question) (w : World)
  : World * Shown :=
  let '(w, next_topic) := move_to_next_adaptive_topic w in
  match truthy next_topic with
  | Some next_topic =>
      let '(w, next_question) :=
        if deduplicated
        then get_unused_question_by_topic_and_difficulty next_topic (Some "Medium") all_mcqs w
        else random_question next_topic "Medium" all_mcqs w in
      match next_question with
      | Some q => (set_current_adaptive_question q w, shown_question q)
      | None => complete_test w
      end
  | None => complete_test w
  end.

Definition handle_adaptive_answer `{Md5} (answer : string) (all_mcqs : list Question)
    (w : World) : World * Shown :=
  match process_adaptive_answer answer all_mcqs w with
  | (w, Err msg) => (w, shown_error msg)
  | (w, Ok result) =>
      match na_type (r_next_action result) with
      | act_mark_weak_and_continue => open_next_topic false all_mcqs w
      | act_topic_complete => open_next_topic false all_mcqs w
      | act_topic_max_reached => open_next_topic true all_mcqs w
      | act_needs_training_complete => open_next_topic true all_mcqs w
      | act_complete => complete_test w
      | _ =>
          match r_next_question result with
          | Some q => (w, shown_question q)
          | None => complete_test w
          end
      end
  end.

(** The branch [start_test] of [button_handler]. *)
Definition start_test `{Md5} (selected_topics : list string) (all_mcqs : list Question)
    (w : World) : World * Shown :=
  match selected_topics with
  | [] => (w, shown_error "please_select")
  | _ :: _ =>
      let w := start_adaptive_test_session selected_topics w in
      match truthy (get_current_adaptive_topic w) with
      | None => (w, shown_error "error_starting")
      | Some first_topic =>
          let '(w, first_question) := random_question first_topic "Medium" all_mcqs w in
          match first_question with
          | None => (w, shown_error "no_questions")
          | Some q => (set_current_adaptive_question q w, shown_question q)
          end
      end
  end.

(** A whole adaptive test: the selection of topics, then one handler call
    per submitted answer.  The list collects what the learner was shown. *)
Fixpoint submit_answers `{Md5} (answer_list : list string) (all_mcqs : list Question)
    (w : World) : World * list Shown :=
  match answer_list with
  | [] => (w, [])
  | a :: rest =>
      let '(w, s) := handle_adaptive_answer a all_mcqs w in
      let '(w, l) := submit_answers rest all_mcqs w in
      (w, s :: l)
  end.

Definition run_adaptive_test `{Md5} (selected_topics : list string) (answer_list : list string)
    (all_mcqs : list Question) (w : World) : World * list Shown :=
  let '(w, s) := start_test selected_topics all_mcqs w in
  let '(w, l) := submit_answers answer_list all_mcqs w in
  (w, s :: l).

Definition question_of (s : Shown) : option Question :=
  match s with
  | shown_question q => Some q
  | _ => None
  end.

(** The questions a run has put before the learner. *)
Definition served (l : list Shown) : list Question := omap question_of l.

Definition served_on (topic : string) (l : list Shown) : list Question :=
  List.filter (fun q => String.eqb (q_topic q) topic) (served l).

(** ** Follow-up tests *)

(** The reply dictionary of the builders. *)
Record StartResult := {
  first_question : Question
}.

Definition cat_options {A} (l : list (option A)) : list A := omap id l.

(** Installs a freshly built sequential session: database, cache, and the
    write-back of [save_user_data]. *)
Definition install_session (session_data : SequentialSession) (w : World) : World :=
  let w := save_user_session (Some (Sequential session_data)) w in
  let w := match user_data w with
           | None => set_user_data (Some (get_user_data w)) w
           | Some _ => w
           end in
  let w := set_cached_session (Some (Sequential session_data)) w in
  save_user_data w.

(** [start_reevaluation_test] of [chatbot.py]: the Standard follow-up. *)
Definition start_reevaluation_test (topic : string) (all_mcqs : list Question) (w : World)
  : World * Result StartResult :=
  let '(w, easy_question) := random_question topic "Easy" all_mcqs w in
  let '(w, medium_question) := random_question topic "Medium" all_mcqs w in
  let '(w, hard_question) := random_question topic "Hard" all_mcqs w in
  let qs := cat_options [easy_question; medium_question; hard_question] in
  match qs with
  | [] => (w, Err ("No questions available for reevaluation on " +:+ topic +:+ "."))
  | q :: _ =>
      let session_data :=
        {| test_type := "Reevaluation: " +:+ topic; questions := qs;
           current_question_index := 0; correct_answers := 0; incorrect_topics := [];
           seq_topics := [topic]; user_answers := [] |} in
      (install_session session_data w, Ok {| first_question := q |})
  end.




(** The reply dictionary of the sequential answer processors. *)
Record SequentialResult := {
  sr_correct : bool;
  sr_question : Question;
  sr_correct_answer : string;
  sr_explanation : string;
  sr_test_completed : bool;
  sr_test_results : option TestResult;
  sr_next_question : option Question
}.

(** The update of a sequential session by one answer: the counter of
    correct answers or the list of missed topics, and the index. *)
Definition score_answer (answer_entry : option string) (is_correct : bool) (question : Question)
    (session : SequentialSession) : SequentialSession :=
  {| test_type := test_type session; questions := questions session;
     current_question_index := S (current_question_index session);
     correct_answers := if is_correct then S (correct_answers session)
                        else correct_answers session;
     incorrect_topics :=
       if is_correct then incorrect_topics session
       else if String.eqb (q_topic question) EmptyString then incorrect_topics session
       else Py.append_if_absent (q_topic question) (incorrect_topics session);
     seq_topics := seq_topics session;
     user_answers := match answer_entry with
                     | Some a => user_answers session ++ [a]
                     | None => user_answers session
                     end |}.

(** The part shared by [process_reevaluation_answer] and
    [process_reevaluation_answer_advanced]; [is_weak correct total] is the
    test that marks the topics weak and [result_type] the recorded type. *)
Definition process_sequential_answer (is_weak : nat → nat → bool)
    (result_type : SequentialSession → string) (answer : string)
    (session : SequentialSession) (w : World) : World * Result SequentialResult :=
  let current_index := current_question_index session in
  match questions session !! current_index with
  | None => (w, Err "No more questions in this test.")
  | Some question =>
      let is_correct :=
        String.eqb (Py.upper answer) (Py.upper (q_correct_answer question)) in
      let session := score_answer None is_correct question session in
      let w := save_user_session (Some (Sequential session)) w in
      let w := set_cached_session (Some (Sequential session)) w in
      let w := save_user_data w in
      let test_completed := length (questions session) <=? current_question_index session in
      if test_completed then
        let total_questions := length (questions session) in
        let weak := if is_weak (correct_answers session) total_questions
                    then seq_topics session else [] in
        let test_result :=
          {| tr_test_type := result_type session; tr_topics := seq_topics session;
             tr_score := Some (correct_answers session, total_questions);
             tr_weak_topics := weak; tr_passed_topics := [];
             tr_needs_more_training := [] |} in
        let w := save_user_test test_result w in
        let w := add_weak_topics weak w in
        let w := set_cached_session None w in
        let w := clear_user_session w in
        let w := save_user_data w in
        (w, Ok {| sr_correct := is_correct; sr_question := question;
                  sr_correct_answer := q_correct_answer question;
                  sr_explanation := q_explanation question;
                  sr_test_completed := true; sr_test_results := Some test_result;
                  sr_next_question := None |})
      else
        (w, Ok {| sr_correct := is_correct; sr_question := question;
                  sr_correct_answer := q_correct_answer question;
                  sr_explanation := q_explanation question;
                  sr_test_completed := false; sr_test_results := None;
                  sr_next_question := questions session !! current_question_index session |})
  end.

(** [correct_answers < (total_questions * 2 // 3)] *)
Definition standard_is_weak (correct total : nat) : bool := correct <? (total * 2) / 3.

(** [correct_answers < (total_questions * 0.8)]: the product is compared as
    the exact fraction, which agrees with the floating-point product for
    the test lengths in use. *)
Definition advanced_is_weak (correct total : nat) : bool := 5 * correct <? 4 * total.

Definition session_test_type (s : Session) : string :=
  match s with
  | Adaptive _ => "Adaptive Test"
  | Sequential q => test_type q
  end.

(** [process_reevaluation_answer] *)
Definition process_reevaluation_answer (answer : string) (w : World)
  : World * Result SequentialResult :=
  match load_user_session w with
  | None => (w, Err "No active test session. Please start a new test.")
  | Some session =>
      let ty := session_test_type session in
      if negb (String.prefix "Reevaluation" ty) || Py.str_in "Advanced" ty then
        (w, Err "This is not a normal reevaluation test session.")
      else
        match session with
        | Sequential session =>
            process_sequential_answer standard_is_weak
              (fun s => "Reevaluation: " +:+ default "Unknown" (head (seq_topics s)))
              answer session w
        | Adaptive _ => (w, Err "This is not a normal reevaluation test session.")
        end
  end.

(** [process_reevaluation_answer_advanced] *)
Definition process_reevaluation_answer_advanced (answer : string) (w : World)
  : World * Result SequentialResult :=
  match load_user_session w with
  | None => (w, Err "No active test session. Please start a new test.")
  | Some session =>
      let ty := session_test_type session in
      if negb (String.prefix "Advanced Reevaluation" ty) then
        (w, Err "This is not an advanced reevaluation test session.")
      else
        match session with
        | Sequential session =>
            process_sequential_answer advanced_is_weak test_type answer session w
        | Adaptive _ => (w, Err "This is not an advanced reevaluation test session.")
        end
  end.

(** ** Answers typed as messages *)





(** ** Fixed exams: [UserTracker] of [bot/user_tracker.py] *)

Module UserTracker.

(** [get_user_data]: the cache entry, loaded from the database on a miss. *)
Definition cached_user_data (w : World) : World * UserInfo :=
  match user_data w with
  | Some data => (w, data)
  | None => let data := get_user_data w in (set_user_data (Some data) w, data)
  end.

(** [complete_test_session] *)
Definition complete_test_session (w : World) : World * Result TestResult :=
  let '(w, data) := cached_user_data w in
  match current_test_session data with
  | Some (Sequential session) =>
      let total_questions := length (questions session) in
      let test_result :=
        {| tr_test_type := test_type session; tr_topics := [];
           tr_score := Some (correct_answers session, total_questions);
           tr_weak_topics := incorrect_topics session; tr_passed_topics := [];
           tr_needs_more_training := [] |} in
      let w := save_user_test test_result w in
      let w := add_weak_topics (incorrect_topics session) w in
      let w := set_cached_session None w in
      let w := clear_user_session w in
      (set_user_data (Some (get_user_data w)) w, Ok test_result)
  | _ => (w, Err "No active test session")
  end.

(** [process_answer] *)
Definition process_answer (answer : string) (w : World) : World * Result SequentialResult :=
  let '(w, data) := cached_user_data w in
  match current_test_session data with
  | None => (w, Err "No active test session")
  | Some (Adaptive _) => (w, Err "No more questions in this test")
  | Some (Sequential session) =>
      match questions session !! current_question_index session with
      | None => (w, Err "No more questions in this test")
      | Some question =>
          let is_correct := String.eqb (Py.upper answer) (q_correct_answer question) in
          let session :=
            {| test_type := test_type session; questions := questions session;
               current_question_index := S (current_question_index session);
               correct_answers := if is_correct then S (correct_answers session)
                                  else correct_answers session;
               incorrect_topics :=
                 if is_correct then incorrect_topics session
                 else Py.append_if_absent (q_topic question) (incorrect_topics session);
               seq_topics := seq_topics session;
               user_answers := user_answers session ++ [Py.upper answer] |} in
          let w := save_user_session (Some (Sequential session)) w in
          let w := set_cached_session (Some (Sequential session)) w in
          let test_completed := length (questions session) <=? current_question_index session in
          let '(w, test_results) :=
            if test_completed then
              match complete_test_session w with
              | (w, Ok t) => (w, Some t)
              | (w, Err _) => (w, None)
              end
            else (w, None) in
          (w, Ok {| sr_correct := is_correct; sr_question := question;
                    sr_correct_answer := q_correct_answer question;
                    sr_explanation := q_explanation question;
                    sr_test_completed := test_completed; sr_test_results := test_results;
                    sr_next_question := None |})
      end
  end.

(** [start_test_session] *)
Definition start_test_session (ty : string) (qs : list Question) (w : World) : World :=
  let '(w, _) := cached_user_data w in
  let session_data :=
    {| test_type := ty; questions := qs; current_question_index := 0;
       correct_answers := 0; incorrect_topics := []; seq_topics := [];
       user_answers := [] |} in
  save_user_session (Some (Sequential session_data))
    (set_cached_session (Some (Sequential session_data)) w).

End UserTracker.

(** ** The builder of [bot/exam_manager.py] *)

Module ExamManager.

(** The topic names [SearchEngine.get_questions_by_topic] queries for. *)
Definition expanded_topics (topic : string) : list string :=
  topic :: flat_map (fun entry : string * list string =>
             if String.eqb topic entry.1 || Py.mem topic entry.2
             then entry.2 ++ [entry.1] else []) TOPIC_MAPPING.

(** The removal of duplicates by the first 50 characters of the text. *)
Fixpoint unique_by_id (seen : list string) (l : list Question) : list Question :=
  match l with
  | [] => []
  | q :: r =>
      if Py.mem (question_id q) seen then unique_by_id seen r
      else q :: unique_by_id (question_id q :: seen) r
  end.

(** [get_questions_by_topic([topic])] without a count. *)
Definition get_questions_by_topic (topic : string) (all_mcqs : list Question) (g : Rng)
  : list Question * Rng :=
  let mcqs := List.filter (fun q => Py.mem (q_topic q) (expanded_topics topic)) all_mcqs in
  let '(mcqs, g) := shuffle mcqs g in
  (unique_by_id [] mcqs, g).

Definition choose_one (l : list Question) (g : Rng) : list Question * Rng :=
  match l with
  | [] => ([], g)
  | q :: _ => let '(sel, g) := choice q l g in ([sel], g)
  end.

(** [ExamManager.start_reevaluation_test]; repeated shuffles of one list
    are one shuffle. *)
Definition start_reevaluation_test (topic : string) (all_mcqs : list Question) (w : World)
  : World * Result StartResult :=
  let '(w, data) := UserTracker.cached_user_data w in
  match current_test_session data with
  | Some _ => (w, Err "You already have an active test session. Complete it first.")
  | None =>
      let '(all_questions, g) := get_questions_by_topic topic all_mcqs (rng w) in
      let by_difficulty d := List.filter (fun q => String.eqb (q_difficulty q) d) all_questions in
      let '(e, g) := choose_one (by_difficulty "Easy") g in
      let '(m, g) := choose_one (by_difficulty "Medium") g in
      let '(h, g) := choose_one (by_difficulty "Hard") g in
      let '(qs, g) := shuffle (e ++ m ++ h) g in
      let w := set_rng g w in
      match qs with
      | [] => (w, Err ("No questions available for reevaluation on " +:+ topic +:+ "."))
      | q :: _ =>
          (UserTracker.start_test_session ("Reevaluation: " +:+ topic) qs w,
           Ok {| first_question := q |})
      end
  end.

End ExamManager.

(** ** Sample data for concrete runs *)

(** A stand-in digest for the concrete runs: the first four characters of
    the content, where the sample questions below differ. *)
Definition short_digest : Md5 := fun content => String.substring 0 4 content.

Definition mcq (topic difficulty text : string) : Question :=
  {| q_topic := topic; q_difficulty := difficulty; q_question := text;
     q_choices := [("A", "first"); ("B", "second"); ("C", "third"); ("D", "fourth")];
     q_correct_answer := "A"; q_explanation := "because" |}.

(** A learner nobody has seen yet. *)
Definition new_learner (g : Rng) : World :=
  {| user_data := None; db_session := None; db_weak_topics := [];
     db_needs_training := []; db_tests := []; rng := g |}.

(** A Standard follow-up on one topic with a single question left in it. *)
Definition single_question_followup : World :=
  {| user_data := None;
     db_session := Some (Sequential
       {| test_type := "Reevaluation: Queues"; questions := [mcq "Queues" "Medium" "m1"];
          current_question_index := 0; correct_answers := 0; incorrect_topics := [];
          seq_topics := ["Queues"]; user_answers := [] |});
     db_weak_topics := []; db_needs_training := []; db_tests := []; rng := [] |}.

(** The last question of a three-question follow-up of the given type, with
    [c] answers right so far and the learner's pools as given. *)
Definition last_of_three (ty : string) (c : nat) (weak needs : list string) : World :=
  {| user_data := None;
     db_session := Some (Sequential
       {| test_type := ty;
          questions := [mcq "Queues" "Hard" "h1"; mcq "Queues" "Hard" "h2";
                        mcq "Queues" "Hard" "h3"];
          current_question_index := 2; correct_answers := c; incorrect_topics := [];
          seq_topics := ["Queues"]; user_answers := [] |});
     db_weak_topics := weak; db_needs_training := needs; db_tests := []; rng := [] |}.

(** [user_data[user_id]["weak_topic_pool"]], empty without a cache entry *)
Definition cached_weak_pool (w : World) : list string :=
  match user_data w with
  | Some data => weak_topic_pool data
  | None => []
  end.

Definition cached_needs_pool (w : World) : list string :=
  match user_data w with
  | Some data => needs_more_training_pool data
  | None => []
  end.

(** The answer processor of either follow-up kind. *)
Definition process_followup_answer (advanced : bool) :=
  if advanced then process_reevaluation_answer_advanced else process_reevaluation_answer.

(** The session is of the kind the processor accepts. *)
Definition followup_kind (advanced : bool) (s : SequentialSession) : Prop :=
  if advanced then String.prefix "Advanced Reevaluation" (test_type s) = true
  else String.prefix "Reevaluation" (test_type s) = true
       ∧ Py.str_in "Advanced" (test_type s) = false.




Definition medium_only : list Question := [mcq "Queues" "Medium" "m1"].

Definition one_of_each : list Question :=
  [mcq "Queues" "Easy" "e1"; mcq "Queues" "Medium" "m1"; mcq "Queues" "Hard" "h1"].

(** What a retrieval for [topic] at [difficulty] may return: a candidate of
    [get_random_question_by_topic_and_difficulty], or nothing when there is
    no candidate. *)
Definition retrieved (topic difficulty : string) (all_mcqs : list Question)
    (o : option Question) : Prop :=
  match o with
  | Some q => In q (random_candidates topic difficulty all_mcqs)
  | None => random_candidates topic difficulty all_mcqs = []
  end.

(** The difficulties of the questions of the stored sequential session. *)
Definition stored_difficulties (w : World) : list string :=
  match load_user_session w with
  | Some (Sequential s) => map q_difficulty (questions s)
  | _ => []
  end.

(** The queue update of [move_to_next_adaptive_topic]. *)
Definition pop_topic (s : AdaptiveSession) : AdaptiveSession :=
  match remaining_topics s with
  | completed_topic :: rest =>
      set_completed_topics (completed_topics s ++ [completed_topic]) (set_remaining_topics rest s)
  | [] => s
  end.

(** The number of recorded answers on a topic, and of the correct ones. *)
Definition count_total (topic : string) (l : list Answer) : nat :=
  length (List.filter (fun a => String.eqb (a_topic a) topic) l).

Definition count_correct (topic : string) (l : list Answer) : nat :=
  length (List.filter (fun a => String.eqb (a_topic a) topic && a_correct a) l).

(** The row [update_adaptive_test_results] adds to the test history for a
    stored session. *)
Definition adaptive_test_result (session : AdaptiveSession) : TestResult :=
  let results := topic_results (answers session) in
  {| tr_test_type := "Adaptive Test"; tr_topics := topics session; tr_score := None;
     tr_weak_topics := classify_weak (needs_more_training session) results;
     tr_passed_topics := classify_passed (needs_more_training session) results;
     tr_needs_more_training := needs_more_training session |}.

(** A row of the test history that files the topic under needs-training
    and under neither list of the ratio rule. *)
Definition listed_needs_training (t : string) (tr : TestResult) : Prop :=
  In t (tr_needs_more_training tr)
  ∧ ¬ In t (tr_weak_topics tr)
  ∧ ¬ In t (tr_passed_topics tr).

(** Every row added to the history since it read [rows0] files the topic
    so. *)
Definition history_respects (t : string) (rows0 : list TestResult) (w : World) : Prop :=
  ∃ rows, db_tests w = rows0 ++ rows ∧ Forall (listed_needs_training t) rows.

(** The cached and the stored session are adaptive and both list the topic
    in [needs_more_training]. *)
Definition marked_needs_training (t : string) (w : World) : Prop :=
  ∃ s sd, cached_session w = Some (Adaptive s)
          ∧ db_session w = Some (Adaptive sd)
          ∧ In t (needs_more_training s)
          ∧ In t (needs_more_training sd).

(** While the test runs. *)
Definition needs_training_kept (t : string) (rows0 : list TestResult) (w : World) : Prop :=
  history_respects t rows0 w ∧ marked_needs_training t w.


(** [topic_results.get(topic)] as the pair (correct, total). *)
Fixpoint row (topic : string) (res : list (string * (nat * nat))) : option (nat * nat) :=
  match res with
  | [] => None
  | (t, cn) :: r => if String.eqb t topic then Some cn else row topic r
  end.

(** A bank with several questions of each difficulty on one topic. *)
Definition stacks_bank : list Question :=
  [mcq "Stacks" "Easy" "e1"; mcq "Stacks" "Easy" "e2"; mcq "Stacks" "Easy" "e3";
   mcq "Stacks" "Medium" "m1"; mcq "Stacks" "Medium" "m2"; mcq "Stacks" "Medium" "m3";
   mcq "Stacks" "Medium" "m4";
   mcq "Stacks" "Hard" "h1"; mcq "Stacks" "Hard" "h2"; mcq "Stacks" "Hard" "h3"].

(** Two Medium questions on a topic that has no other question. *)
Definition two_medium : list Question :=
  [mcq "Graphs" "Medium" "m1"; mcq "Graphs" "Medium" "m2"].

(** [session["answers"]] of the cached adaptive session *)
Definition logged_answers (w : World) : list Answer :=
  match cached_session w with
  | Some (Adaptive s) => answers s
  | _ => []
  end.

(** [session["topic_question_count"].get(topic)] of the cached session *)
Definition counted_questions (topic : string) (w : World) : option nat :=
  match cached_session w with
  | Some (Adaptive s) => topic_question_count s !! topic
  | _ => None
  end.

(** The state of a test on [selected_topics] after the given answers, with
    the content itself as digest. *)
Definition state_after (selected_topics answer_list : list string)
    (all_mcqs : list Question) (g : Rng) : World :=
  (run_adaptive_test (H := short_digest) selected_topics answer_list all_mcqs
     (new_learner g)).1.

(** What the learner was shown in that test. *)
Definition shown_in (selected_topics answer_list : list string)
    (all_mcqs : list Question) (g : Rng) : list Shown :=
  (run_adaptive_test (H := short_digest) selected_topics answer_list all_mcqs
     (new_learner g)).2.


(** A topic whose Medium questions are filed under its main name and whose
    Hard questions are filed under its other name. *)
Definition hard_under_alias : list Question :=
  [mcq "Stacks" "Medium" "m1"; mcq "Stacks" "Medium" "m2";
   mcq "Stack" "Hard" "h1"; mcq "Stack" "Hard" "h2"].


(** The questions of two topics, several of each difficulty on the first. *)
Definition two_topics : list Question := stacks_bank ++ one_of_each.

(** The questions of the stored sequential session. *)
Definition stored_questions (w : World) : list Question :=
  match load_user_session w with
  | Some (Sequential s) => questions s
  | _ => []
  end.

(** The type of the next action in the engine's reply to each answer of
    a test whose answers are pressed. *)
Fixpoint replies_to `{Md5} (answer_list : list string) (all_mcqs : list Question)
    (w : World) : list ActionType :=
  match answer_list with
  | [] => []
  | a :: rest =>
      match process_adaptive_answer a all_mcqs w with
      | (_, Err _) => []
      | (_, Ok r) =>
          na_type (r_next_action r)
          :: replies_to rest all_mcqs (handle_adaptive_answer a all_mcqs w).1
      end
  end.

Definition replies_in (selected_topics answer_list : list string)
    (all_mcqs : list Question) (g : Rng) : list ActionType :=
  replies_to (H := short_digest) answer_list all_mcqs
    (start_test (H := short_digest) selected_topics all_mcqs (new_learner g)).1.


From Stdlib Require OrderedTypeEx.
From stdpp Require sorting.


(** ** Invariants of a running adaptive test *)

(** A property of a session that no bookkeeping of the engine disturbs: it
    survives every update that keeps the selected topics, the queue, the
    completed topics and the answer log, and that only adds to the used
    hashes and to the needs-training list. *)
Definition session_stable (I : AdaptiveSession → Prop) : Prop :=
  ∀ s s',
    topics s' = topics s →
    remaining_topics s' = remaining_topics s →
    completed_topics s' = completed_topics s →
    answers s' = answers s →
    used_question_hashes s ⊆ used_question_hashes s' →
    (∀ t, In t (needs_more_training s) → In t (needs_more_training s')) →
    I s → I s'.

(** It survives the step of the queue to the next topic. *)
Definition pop_stable (I : AdaptiveSession → Prop) : Prop :=
  ∀ s, I s → I (pop_topic s).

(** It survives the logging of an answer. *)
Definition log_stable (I : AdaptiveSession → Prop) : Prop :=
  ∀ s entry, I s → I (set_answers (answers s ++ [entry]) s).

(** The cached and the stored session are adaptive and both have the
    property. *)
Definition held_in_sessions (I : AdaptiveSession → Prop) (w : World) : Prop :=
  ∃ s sd, cached_session w = Some (Adaptive s)
          ∧ db_session w = Some (Adaptive sd)
          ∧ I s ∧ I sd.

(** While the test runs, and after the completion display has removed the
    session from the cache. *)
Definition held_until_closed (I : AdaptiveSession → Prop) (w : World) : Prop :=
  held_in_sessions I w ∨ cached_session w = None.

(** ** Fixed exams, continued *)

(** Further methods of [UserTracker] in [bot/user_tracker.py]. *)
Module Tracker.

(** [get_current_question]: an adaptive session has no list of questions,
    so nothing is current in it. *)
Definition get_current_question (w : World) : World * option Question :=
  let '(w, data) := UserTracker.cached_user_data w in
  match current_test_session data with
  | Some (Sequential session) => (w, questions session !! current_question_index session)
  | _ => (w, None)
  end.

(** [has_active_test] *)
Definition has_active_test (w : World) : World * bool :=
  let '(w, data) := UserTracker.cached_user_data w in
  (w, match current_test_session data with Some _ => true | None => false end).

End Tracker.

(** Further methods of [ExamManager] in [bot/exam_manager.py]. *)
Module Exams.

(** [process_answer]: the reply of the tracker, with the next question
    while the test goes on. *)
Definition process_answer (answer : string) (w : World) : World * Result SequentialResult :=
  match UserTracker.process_answer answer w with
  | (w, Err msg) => (w, Err msg)
  | (w, Ok result) =>
      if sr_test_completed result then
        (w, Ok {| sr_correct := sr_correct result; sr_question := sr_question result;
                  sr_correct_answer := sr_correct_answer result;
                  sr_explanation := sr_explanation result;
                  sr_test_completed := true; sr_test_results := sr_test_results result;
                  sr_next_question := None |})
      else
        let '(w, next_question) := Tracker.get_current_question w in
        (w, Ok {| sr_correct := sr_correct result; sr_question := sr_question result;
                  sr_correct_answer := sr_correct_answer result;
                  sr_explanation := sr_explanation result;
                  sr_test_completed := false; sr_test_results := None;
                  sr_next_question := next_question |})
  end.

(** A sitting: one call of [process_answer] per submitted answer. *)
Fixpoint take_exam (answer_list : list string) (w : World)
  : World * list (Result SequentialResult) :=
  match answer_list with
  | [] => (w, [])
  | a :: rest =>
      let '(w, reply) := process_answer a w in
      let '(w, replies) := take_exam rest w in
      (w, reply :: replies)
  end.

End Exams.

(** Whether the answer matches the stored correct answer of the question,
    as [UserTracker.process_answer] compares them. *)
Definition graded (qa : Question * string) : bool :=
  String.eqb (Py.upper qa.2) (q_correct_answer qa.1).

(** The topics of the questions answered wrongly, each once, in the order
    of the first miss. *)
Definition missed_topics (l : list (Question * string)) : list string :=
  foldl (fun acc qa => if graded qa then acc else Py.append_if_absent (q_topic qa.1) acc) [] l.

(** The reply expected for the question at position [i] of [qs]. *)
Definition expected_reply (qs : list Question) (i : nat) (qa : Question * string)
    (r : Result SequentialResult) : Prop :=
  match r with
  | Err _ => False
  | Ok r =>
      sr_question r = qa.1
      ∧ sr_correct r = graded qa
      ∧ sr_correct_answer r = q_correct_answer qa.1
      ∧ sr_test_completed r = bool_decide (S i = length qs)
      ∧ sr_next_question r = (if bool_decide (S i = length qs) then None else qs !! S i)
  end.

(** ** The topic selection of the adaptive test *)

(** [TOPICS] *)
Definition TOPICS : list string := [
  "Algorithm Analysis and Big-O Notation"; "Array-Based Lists"; "Linked Lists";
  "Stacks"; "Queues"; "Recursion"; "Searching and Hashing"; "Binary Trees";
  "Graphs"; "Sorting Algorithms"
].

(** The entry of a user in [user_selections]. *)
Record Selection := {
  selected_topics : list string;
  all_topics : list string
}.

(** The entry made when the subject of the adaptive test is chosen. *)
Definition new_selection : Selection :=
  {| selected_topics := []; all_topics := TOPICS |}.

(** [l.remove(x)] for an [x] in [l]: the first item equal to [x] goes. *)
Fixpoint list_remove (x : string) (l : list string) : list string :=
  match l with
  | [] => []
  | y :: r => if String.eqb y x then r else y :: list_remove x r
  end.

(** The buttons of the selection keyboard. *)
Inductive Button :=
  | select_topic (topic : string)
  | select_all
  | clear_all.

(** The keyboard rows of the topics: whether the box is ticked, and the
    topic. *)
Definition Keyboard := list (bool * string).

(** The branches [select_topic:], [select_all] and [clear_all] of
    [button_handler]: the new entry of the user and the keyboard sent back. *)
Definition press (b : Button) (sel : Selection) : Selection * Keyboard :=
  match b with
  | select_topic topic =>
      let selected :=
        if Py.mem topic (selected_topics sel) then list_remove topic (selected_topics sel)
        else selected_topics sel ++ [topic] in
      ({| selected_topics := selected; all_topics := all_topics sel |},
       map (fun t => (Py.mem t selected, t)) (all_topics sel))
  | select_all =>
      ({| selected_topics := all_topics sel; all_topics := all_topics sel |},
       map (fun topic => (true, topic)) (all_topics sel))
  | clear_all =>
      ({| selected_topics := []; all_topics := all_topics sel |},
       map (fun topic => (false, topic)) (all_topics sel))
  end.

(** One handler call per pressed button. *)
Definition press_all (buttons : list Button) (sel : Selection) : Selection :=
  foldl (fun sel b => (press b sel).1) sel buttons.

(** The entry holds no topic twice and only topics of the keyboard. *)
Definition tidy (sel : Selection) : Prop :=
  NoDup (selected_topics sel)
  ∧ NoDup (all_topics sel)
  ∧ ∀ t, In t (selected_topics sel) → In t (all_topics sel).

(** The button is one of the keyboard built from [all_topics]. *)
Definition on_keyboard (sel : Selection) (b : Button) : Prop :=
  match b with
  | select_topic topic => In topic (all_topics sel)
  | _ => True
  end.

(** ** The mini test: [SearchEngine] of [bot/search_engine.py] *)

Module Search.

(** [difficulty_order.get(q.get("difficulty", ""), 4)] *)
Definition difficulty_order (d : string) : nat :=
  if String.eqb d "Medium" then 1
  else if String.eqb d "Easy" then 2
  else if String.eqb d "Hard" then 3
  else 4.

(** [alt_questions.sort(key=...)]: a stable sort by [difficulty_order]. *)
Fixpoint insert_by_order (q : Question) (l : list Question) : list Question :=
  match l with
  | [] => [q]
  | p :: r =>
      if difficulty_order (q_difficulty q) <=? difficulty_order (q_difficulty p)
      then q :: l else p :: insert_by_order q r
  end.

Definition sort_by_order (l : list Question) : list Question := foldr insert_by_order [] l.

(** The value of the first iteration of a loop that returns one. *)
Fixpoint first_return {A B} (f : A → option B) (l : list A) : option B :=
  match l with
  | [] => None
  | a :: r => match f a with Some b => Some b | None => first_return f r end
  end.

(** The last resort of [get_random_question_by_topic_and_difficulty]: the
    questions filed under the first name of the topic that has any, at any
    difficulty, Medium before Easy before Hard. *)
Definition last_resort (topic : string) (mcqs : list Question) : option Question :=
  first_return (fun entry : string * list string =>
    let main_topic := entry.1 in
    let variations := entry.2 in
    if String.eqb topic main_topic || Py.mem topic variations
    then first_return (fun variation =>
           head (sort_by_order
                   (List.filter (fun q => String.eqb (q_topic q) variation) mcqs)))
           (main_topic :: variations)
    else None) TOPIC_MAPPING.

(** [SearchEngine.get_random_question_by_topic_and_difficulty] *)
Definition get_random_question_by_topic_and_difficulty
    (topic difficulty : string) (mcqs : list Question) (g : Rng) : option Question * Rng :=
  let std_difficulty := standard_difficulty difficulty in
  match alias_matches topic std_difficulty mcqs with
  | (q :: _) as l => let '(sel, g) := choice q l g in (Some sel, g)
  | [] =>
      match partial_matches topic std_difficulty mcqs with
      | (q :: _) as l => let '(sel, g) := choice q l g in (Some sel, g)
      | [] => (last_resort topic mcqs, g)
      end
  end.

(** The inner loop of [get_questions_for_mini_test]: the draws for one
    topic, appended to the result so far. *)
Definition draws_for (mcqs : list Question) (st : list Question * Rng) (topic : string)
  : list Question * Rng :=
  foldl (fun (st : list Question * Rng) difficulty =>
    match get_random_question_by_topic_and_difficulty topic difficulty mcqs st.2 with
    | (Some question, g) => (st.1 ++ [question], g)
    | (None, g) => (st.1, g)
    end) st ["Easy"; "Medium"; "Hard"].

(** The two loops of [get_questions_for_mini_test], before the shuffle. *)
Definition mini_test_draws (weak_topics : list string) (mcqs : list Question) (g : Rng)
  : list Question * Rng :=
  foldl (draws_for mcqs) ([], g) weak_topics.

(** [SearchEngine.get_questions_for_mini_test] *)
Definition get_questions_for_mini_test (weak_topics : list string) (mcqs : list Question)
    (g : Rng) : list Question * Rng :=
  let '(result, g) := mini_test_draws weak_topics mcqs g in
  shuffle result g.

End Search.

(** What the starters of [ExamManager] return. *)
Record Started := { st_first_question : option Question }.

Module MiniTest.

(** [ExamManager.start_mini_test] *)
Definition start_mini_test (mcqs : list Question) (w : World) : World * Result Started :=
  let '(w, active) := Tracker.has_active_test w in
  if active then (w, Err "You already have an active test session. Complete it first.")
  else
    match db_weak_topics w with
    | [] => (w, Err "No weak topics detected. Take an exam first to identify your weak areas.")
    | (_ :: _) as weak_topics =>
        let '(questions, g) := Search.get_questions_for_mini_test weak_topics mcqs (rng w) in
        let w := set_rng g w in
        match questions with
        | [] => (w, Err "Failed to create mini test. No questions available for your weak topics.")
        | _ :: _ =>
            let w := UserTracker.start_test_session "Mini Test" questions w in
            let '(w, q) := Tracker.get_current_question w in
            (w, Ok {| st_first_question := q |})
        end
    end.

End MiniTest.

(** ** A sitting of a follow-up test *)

(** Whether the answer matches the correct answer of the question, as the
    follow-up processors compare them: both in upper case. *)
Definition graded_upper (qa : Question * string) : bool :=
  String.eqb (Py.upper qa.2) (Py.upper (q_correct_answer qa.1)).

(** The test that marks the topics of a follow-up weak. *)
Definition followup_is_weak (advanced : bool) : nat → nat → bool :=
  if advanced then advanced_is_weak else standard_is_weak.

(** The type recorded for a follow-up in the history. *)
Definition followup_result_type (advanced : bool) (s : SequentialSession) : string :=
  if advanced then test_type s
  else "Reevaluation: " +:+ default "Unknown" (head (seq_topics s)).

(** One call of the answer processor per submitted answer. *)
Fixpoint take_followup (advanced : bool) (answer_list : list string) (w : World)
  : World * list (Result SequentialResult) :=
  match answer_list with
  | [] => (w, [])
  | a :: rest =>
      let '(w, reply) := process_followup_answer advanced a w in
      let '(w, replies) := take_followup advanced rest w in
      (w, reply :: replies)
  end.

(** The reply expected for the question at position [i] of [qs]. *)
Definition followup_reply (qs : list Question) (i : nat) (qa : Question * string)
    (r : Result SequentialResult) : Prop :=
  match r with
  | Err _ => False
  | Ok r =>
      sr_question r = qa.1
      ∧ sr_correct r = graded_upper qa
      ∧ sr_correct_answer r = q_correct_answer qa.1
      ∧ sr_test_completed r = bool_decide (S i = length qs)
      ∧ sr_next_question r = (if bool_decide (S i = length qs) then None else qs !! S i)
  end.

(** The topics in the cached pool or in the table. *)
Definition known_weak (w : World) (x : string) : Prop :=
  In x (cached_weak_pool w) ∨ In x (db_weak_topics w).

Definition known_needs_training (w : World) (x : string) : Prop :=
  In x (cached_needs_pool w) ∨ In x (db_needs_training w).

(** ** The reset of a learner *)

(** [reset_command], the path without exception: the state of the learner
    and the entry in [user_selections].  The cache entry rebuilt at the end
    has no key for the needs-training pool. *)
Definition reset_command (sel : option Selection) (w : World) : World * option Selection :=
  let w := match user_data w with
           | Some _ => set_cached_session None w
           | None => w
           end in
  let w := save_user_data w in
  let w := match user_data w with
           | Some data =>
               set_user_data (Some {| current_test_session := None;
                                      weak_topic_pool := weak_topic_pool data;
                                      needs_more_training_pool := [] |}) w
           | None => w
           end in
  (w, None).

(** ** Serialisation of a session: [DatabaseManager] of
    [database/database_manager.py] *)

(** The members of a Python set are hashable: no list, dictionary or set
    is among them. *)
Inductive Atom :=
  | py_none
  | py_bool (b : bool)
  | py_int (z : Z)
  | py_str (s : string).

(** The values a session dictionary is made of; a set is given by its
    members in iteration order, a dictionary by its items in insertion
    order. *)
#[warnings="-register-all"] Inductive PyValue :=
  | py_atom (a : Atom)
  | py_list (items : list PyValue)
  | py_dict (items : list (string * PyValue))
  | py_set (members : list Atom).

(** [_convert_sets_to_lists] *)
Fixpoint convert_sets_to_lists (data : PyValue) : PyValue :=
  match data with
  | py_dict items => py_dict (map (fun '(k, v) => (k, convert_sets_to_lists v)) items)
  | py_list items => py_list (map convert_sets_to_lists items)
  | py_set members => py_list (map py_atom members)
  | py_atom a => py_atom a
  end.

(** Whether a set occurs in the value: [json.dumps] raises on such a
    value. *)
Fixpoint has_set (data : PyValue) : bool :=
  match data with
  | py_dict items => existsb (fun '(k, v) => has_set v) items
  | py_list items => existsb has_set items
  | py_set _ => true
  | py_atom _ => false
  end.

(** The atoms of a value, from left to right. *)
Fixpoint atoms (data : PyValue) : list Atom :=
  match data with
  | py_dict items => flat_map (fun '(k, v) => atoms v) items
  | py_list items => flat_map atoms items
  | py_set members => members
  | py_atom a => [a]
  end.

(** The keys of the dictionaries of a value, from the outside in. *)
Fixpoint dict_keys (data : PyValue) : list string :=
  match data with
  | py_dict items => flat_map (fun '(k, v) => k :: dict_keys v) items
  | py_list items => flat_map dict_keys items
  | _ => []
  end.

(** ** The hash of a question *)

(** The order [sorted] puts the items of the choices in. *)
Definition item_le (a b : string * string) : Prop := Py.item_leb a b = true.

(** ** Exams with a question count: [SearchEngine] and [ExamManager] *)

Module Balanced.

(** [for _ in range(n): random.shuffle(l)] *)
Fixpoint shuffle_times {A} (n : nat) (l : list A) (g : Rng) : list A * Rng :=
  match n with
  | 0 => (l, g)
  | S n => let '(l, g) := shuffle l g in shuffle_times n l g
  end.

(** [topic_questions[topic].append(mcq)], with a new topic entered at the
    end of the dictionary. *)
Fixpoint group_add (mcq : Question) (groups : list (string * list Question))
  : list (string * list Question) :=
  match groups with
  | [] => [(q_topic mcq, [mcq])]
  | (t, l) :: r =>
      if String.eqb t (q_topic mcq) then (t, l ++ [mcq]) :: r
      else (t, l) :: group_add mcq r
  end.

(** The dictionary [topic_questions]. *)
Definition group_by_topic (mcqs : list Question) : list (string * list Question) :=
  foldl (fun groups mcq => group_add mcq groups) [] mcqs.

(** All of [questions] if there are no more than [sample_count], a random
    sample of that size otherwise. *)
Definition take_sample (sample_count : nat) (questions : list Question) (g : Rng)
  : list Question * Rng :=
  if length questions <=? sample_count then (questions, g)
  else sample sample_count questions g.

(** The body of the loop over the topics when no difficulty is asked for:
    a third of [current_count] per difficulty, the rest to Medium. *)
Definition balanced_for_topic (current_count : nat) (topic_mcqs : list Question) (g : Rng)
  : list Question * Rng :=
  let by_difficulty d := List.filter (fun q => String.eqb (q_difficulty q) d) topic_mcqs in
  let questions_per_difficulty := current_count / 3 in
  let extra := current_count - questions_per_difficulty * 3 in
  let '(easy, g) := take_sample questions_per_difficulty (by_difficulty "Easy") g in
  let '(medium, g) := take_sample (questions_per_difficulty + extra) (by_difficulty "Medium") g in
  let '(hard, g) := take_sample questions_per_difficulty (by_difficulty "Hard") g in
  shuffle (easy ++ medium ++ hard) g.

(** The loop over [enumerate(unique_topics)], from index [i] on. *)
Fixpoint balanced_loop (questions_per_topic remaining i : nat)
    (groups : list (string * list Question)) (g : Rng) : list Question * Rng :=
  match groups with
  | [] => ([], g)
  | (_, topic_mcqs) :: rest =>
      let current_count := questions_per_topic + (if i <? remaining then 1 else 0) in
      let '(balanced_questions, g) := balanced_for_topic current_count topic_mcqs g in
      let '(more, g) := balanced_loop questions_per_topic remaining (S i) rest g in
      (balanced_questions ++ more, g)
  end.

(** [question['question'][:50] not in ids] *)
Definition unseen (ids : list string) (q : Question) : bool := negb (Py.mem (question_id q) ids).

(** [_get_balanced_questions_from_list(mcqs, topics, count)] without a
    difficulty; the argument [topics] is not used by the function. *)
Definition get_balanced_questions_from_list (mcqs : list Question) (count : nat) (g : Rng)
  : list Question * Rng :=
  let topic_questions := group_by_topic mcqs in
  match topic_questions with
  | [] => ([], g)
  | _ :: _ =>
      let questions_per_topic := Nat.max 1 (count / length topic_questions) in
      let remaining := count - questions_per_topic * length topic_questions in
      let '(result, g) := balanced_loop questions_per_topic remaining 0 topic_questions g in
      let '(result, g) :=
        if length result <? count then
          match List.filter (unseen (map question_id result)) mcqs with
          | [] => (result, g)
          | (_ :: _) as unused_questions =>
              let '(unused_questions, g) := shuffle_times 5 unused_questions g in
              (result ++ take (count - length result) unused_questions, g)
          end
        else (result, g) in
      let '(result, g) := shuffle result g in
      (ExamManager.unique_by_id [] result, g)
  end.

(** The topic names queried for a list of topics; only membership in the
    list matters to the query. *)
Definition expand (topics : list string) : list string :=
  flat_map ExamManager.expanded_topics topics.

(** [DatabaseManager.get_mcqs_by_topic_and_difficulty(topics)]: the rows
    whose topic is one of [topics]. *)
Definition get_mcqs_by_topic (topics : list string) (all_mcqs : list Question)
  : list Question :=
  List.filter (fun q => Py.mem (q_topic q) topics) all_mcqs.

(** [get_questions_by_topic(topics, count=count)], as the exam starters
    call it: no difficulty and no excluded topics. *)
Definition get_questions_by_topic (topics : list string) (count : nat)
    (all_mcqs : list Question) (g : Rng) : list Question * Rng :=
  let expanded_topics := expand topics in
  let mcqs := get_mcqs_by_topic expanded_topics all_mcqs in
  if 0 <? count then
    let '(result, g) := get_balanced_questions_from_list mcqs count g in
    if (length result <? count) && (0 <? length mcqs) then
      let unique_results := ExamManager.unique_by_id [] result in
      let question_ids := map question_id unique_results in
      let '(unique_results, g) :=
        match List.filter (unseen question_ids) mcqs with
        | [] => (unique_results, g)
        | (_ :: _) as remaining_mcqs =>
            let '(remaining_mcqs, g) := shuffle_times 5 remaining_mcqs g in
            let needed := count - length unique_results in
            if needed <=? length remaining_mcqs
            then (unique_results ++ take needed remaining_mcqs, g)
            else
              let unique_results := unique_results ++ remaining_mcqs in
              if length unique_results <? count then
                let '(all_available, g) := shuffle_times 10 mcqs g in
                (unique_results ++ take (count - length unique_results) all_available, g)
              else (unique_results, g)
        end in
      let '(unique_results, g) := shuffle_times 5 unique_results g in
      (take count unique_results, g)
    else (result, g)
  else
    let '(mcqs, g) := shuffle mcqs g in
    (ExamManager.unique_by_id [] mcqs, g).

(** [exam_topics["first_exam"]] and [exam_topics["second_exam"]] *)
Definition first_exam_topics : list string :=
  ["Big-O"; "Arrays"; "Linked Lists"; "Algorithm Analysis and Big-O Notation";
   "Array-Based Lists"; "Linked Lists"].

Definition second_exam_topics : list string :=
  ["Stacks"; "Queues"; "Recursion"; "Hashing"; "Searching and Hashing"].

(** The filter the exam starters apply to their topics. *)
Definition without_topics (exclude_topics topics : list string) : list string :=
  List.filter (fun t => negb (Py.mem t exclude_topics)
                        && negb (existsb (fun et => String.eqb (Py.lower t) (Py.lower et))
                                   exclude_topics)) topics.

(** The body shared by [start_first_exam], [start_second_exam] and
    [start_final_exam]. *)
Definition start_exam (ty : string) (topics : list string) (count : nat)
    (all_mcqs : list Question) (w : World) : World * Result Started :=
  let '(w, active) := Tracker.has_active_test w in
  if active then (w, Err "You already have an active test session. Complete it first.")
  else
    let '(selected_questions, g) := get_questions_by_topic topics count all_mcqs (rng w) in
    match selected_questions with
    | [] => (set_rng g w,
             Err "Failed to create exam. No questions available for these topics.")
    | _ :: _ =>
        let '(selected_questions, g) := shuffle_times 3 selected_questions g in
        let w := set_rng g w in
        let w := UserTracker.start_test_session ty selected_questions w in
        let '(w, q) := Tracker.get_current_question w in
        (w, Ok {| st_first_question := q |})
    end.

(** [ExamManager.start_first_exam] *)
Definition start_first_exam : list Question → World → World * Result Started :=
  start_exam "First Exam" first_exam_topics 20.

(** [ExamManager.start_second_exam] *)
Definition start_second_exam (exclude_hashing : bool)
  : list Question → World → World * Result Started :=
  start_exam "Second Exam"
    (if exclude_hashing
     then without_topics ["Hashing"; "Searching and Hashing"] second_exam_topics
     else second_exam_topics) 20.

(** The questions of the bank an exam on [topics] can draw from. *)
Definition eligible (topics : list string) (all_mcqs : list Question) : list Question :=
  get_mcqs_by_topic (expand topics) all_mcqs.

End Balanced.

(** The exam was started on [qs]: the reply carries the first question, and
    cache and store hold a fresh session of type [ty] over [qs]. *)
Definition exam_started (ty : string) (qs : list Question) (w' : World)
    (reply : Result Started) : Prop :=
  reply = Ok {| st_first_question := head qs |}
  ∧ cached_session w'
    = Some (Sequential {| test_type := ty; questions := qs; current_question_index := 0;
                          correct_answers := 0; incorrect_topics := []; seq_topics := [];
                          user_answers := [] |})
  ∧ db_session w' = cached_session w'.

(** The topics of the second exam as [start_second_exam] filters them. *)
Definition second_exam_selection (exclude_hashing : bool) : list string :=
  if exclude_hashing
  then Balanced.without_topics ["Hashing"; "Searching and Hashing"] Balanced.second_exam_topics
  else Balanced.second_exam_topics.

(** Twenty questions on one topic with different texts. *)
Definition twenty_questions : list Question :=
  map (mcq "Linked Lists" "Medium")
    ["q01"; "q02"; "q03"; "q04"; "q05"; "q06"; "q07"; "q08"; "q09"; "q10";
     "q11"; "q12"; "q13"; "q14"; "q15"; "q16"; "q17"; "q18"; "q19"; "q20"].

(** ** The final exam *)

(** [ORDER BY topic] *)
Fixpoint insert_topic (t : string) (l : list string) : list string :=
  match l with
  | [] => [t]
  | u :: r => if String.leb t u then t :: l else u :: insert_topic t r
  end.

(** [DatabaseManager.get_all_topics]: the distinct topics of the bank in
    order. *)
Definition get_all_topics (all_mcqs : list Question) : list string :=
  foldr insert_topic [] (remove_dups (map q_topic all_mcqs)).

(** The topics of the final exam as [start_final_exam] filters them. *)
Definition final_exam_selection (exclude_big_o : bool) (all_mcqs : list Question)
  : list string :=
  if exclude_big_o
  then Balanced.without_topics ["Big-O"; "Algorithm Analysis and Big-O Notation"]
         (get_all_topics all_mcqs)
  else get_all_topics all_mcqs.

(** [ExamManager.start_final_exam] *)
Definition start_final_exam (exclude_big_o : bool) (all_mcqs : list Question)
  : World → World * Result Started :=
  Balanced.start_exam "Final Exam" (final_exam_selection exclude_big_o all_mcqs) 40 all_mcqs.

(** The other names of the topic the final exam can leave out. *)
Definition big_o_aliases : list string :=
  ["Algorithm Analysis"; "Algorithmic Analysis"; "Big O"; "Big-O Notation"].

(** A bank that files one question under another name of the Big-O topic. *)
Definition aliased_bank : list Question :=
  [mcq "Big O" "Easy" "a1"; mcq "Algorithm Analysis and Big-O Notation" "Medium" "b1";
   mcq "Stacks" "Hard" "c1"].

(** ** The adaptive test of [ExamManager] and [UserTracker]

    The session dictionary of [UserTracker.start_adaptive_test_session] has
    the keys [topics], [remaining_topics], [current_question],
    [completed_topics], [weak_topics], [passed_topics] and [answers] (and
    [current_topic_index], which nothing reads); the further fields of the
    record stay empty, no method of the two classes reads or writes them. *)

Module AdaptiveTracker.

(** [start_adaptive_test_session] *)
Definition start_adaptive_test_session (topic_list : list string) (w : World) : World :=
  let session_data := Adaptive
    {| topics := topic_list; remaining_topics := topic_list; current_question := None;
       completed_topics := []; weak_topics := []; passed_topics := [];
       needs_more_training := []; answers := []; questions_asked := ∅;
       topic_question_count := ∅; first_question_state := ∅;
       hard_failures_count := ∅; easy_attempts_after_medium := ∅;
       came_from_hard_failure := ∅; used_question_hashes := ∅ |} in
  let w := save_user_session (Some session_data) w in
  match user_data w with
  | Some _ => set_cached_session (Some session_data) w
  | None => set_user_data (Some (get_user_data w)) w
  end.

(** [get_adaptive_test_session] *)
Definition get_adaptive_test_session (w : World) : option AdaptiveSession :=
  match load_user_session w with
  | Some (Adaptive session) => Some session
  | _ => None
  end.

(** [get_current_adaptive_topic] *)
Definition get_current_adaptive_topic (w : World) : option string :=
  match load_user_session w with
  | Some (Adaptive session) => head (remaining_topics session)
  | _ => None
  end.

(** [set_current_adaptive_question] *)
Definition set_current_adaptive_question (question : Question) (w : World) : World :=
  match load_user_session w with
  | Some (Adaptive session) =>
      let session := set_current_question (Some question) session in
      let w := save_user_session (Some (Adaptive session)) w in
      match user_data w with
      | Some _ => set_cached_session (Some (Adaptive session)) w
      | None => w
      end
  | _ => w
  end.

(** [record_adaptive_answer]: the session of the cache entry is extended
    and stored. *)
Definition record_adaptive_answer (is_correct : bool) (topic difficulty : string)
    (w : World) : World :=
  let '(w, data) := UserTracker.cached_user_data w in
  match current_test_session data with
  | Some (Adaptive session) =>
      let entry := {| a_topic := topic; a_difficulty := difficulty; a_correct := is_correct |} in
      let session := set_answers (answers session ++ [entry]) session in
      save_user_session (Some (Adaptive session))
        (set_cached_session (Some (Adaptive session)) w)
  | _ => w
  end.

(** [move_to_next_adaptive_topic] *)
Definition move_to_next_adaptive_topic (w : World) : World * option string :=
  let '(w, data) := UserTracker.cached_user_data w in
  match current_test_session data with
  | Some (Adaptive session) =>
      match remaining_topics session with
      | completed_topic :: rest =>
          let session := set_completed_topics (completed_topics session ++ [completed_topic])
                           (set_remaining_topics rest session) in
          (save_user_session (Some (Adaptive session))
             (set_cached_session (Some (Adaptive session)) w),
           head rest)
      | [] => (w, None)
      end
  | _ => (w, None)
  end.

(** [update_adaptive_test_results].  The lists of weak and passed topics
    are written to the session of the cache entry only, and the cache
    entry is read from the database again at the end; the progress table
    is left out. *)
Definition update_adaptive_test_results (result_type : ActionType) (w : World) : World :=
  let '(w, data) := UserTracker.cached_user_data w in
  match current_test_session data with
  | Some (Adaptive session) =>
      let results := topic_results (answers session) in
      let weak := classify_weak [] results in
      let passed := classify_passed [] results in
      let total_questions := length (answers session) in
      let correct_answers := length (List.filter a_correct (answers session)) in
      let w :=
        if ActionType_eqb result_type act_complete then
          let test_result :=
            {| tr_test_type := "Adaptive Test"; tr_topics := topics session;
               tr_score := Some (correct_answers, total_questions);
               tr_weak_topics := weak; tr_passed_topics := passed;
               tr_needs_more_training := [] |} in
          let w := save_user_test test_result w in
          let w := add_weak_topics weak w in
          clear_user_session w
        else w in
      set_user_data (Some (get_user_data w)) w
  | _ => w
  end.

End AdaptiveTracker.

(** What a call comes to: the dictionary returned, or the exception that
    leaves the function. *)
Inductive Outcome (A : Type) :=
  | returned (r : Result A)
  | raised (exception : string).
Arguments returned {A} r.
Arguments raised {A} exception.

Module AdaptiveExams.

(** [ExamManager._determine_next_adaptive_action] *)
Definition determine_next_adaptive_action (is_correct : bool)
    (current_difficulty current_topic : string) : NextAction :=
  if is_correct then
    if String.eqb current_difficulty "Medium" then
      action act_next_question (Some "Hard") (Some current_topic)
    else if String.eqb current_difficulty "Easy" then
      action act_next_question (Some "Hard") (Some current_topic)
    else if String.eqb current_difficulty "Hard" then
      action act_topic_complete None (Some current_topic)
    else action act_next_question (Some "Medium") (Some current_topic)
  else
    if String.eqb current_difficulty "Medium" then
      action act_next_question (Some "Easy") (Some current_topic)
    else if String.eqb current_difficulty "Easy" then
      action act_offer_reevaluation None (Some current_topic)
    else if String.eqb current_difficulty "Hard" then
      action act_warning (Some "Medium") (Some current_topic)
    else action act_next_question (Some "Medium") (Some current_topic).

(** [ExamManager.process_adaptive_answer].  A next action without a
    difficulty makes [get_random_question_by_topic_and_difficulty] call
    [lower] on [None]. *)
Definition process_adaptive_answer (answer : string) (mcqs : list Question) (w : World)
  : World * Outcome AnswerResult :=
  match AdaptiveTracker.get_adaptive_test_session w with
  | None => (w, returned (Err "No active adaptive test session. Please start a new test."))
  | Some session =>
      match current_question session with
      | None => (w, returned (Err "No current question. Please start a new test."))
      | Some current_question =>
          let is_correct := String.eqb (Py.upper answer) (q_correct_answer current_question) in
          let current_topic := q_topic current_question in
          let current_difficulty := q_difficulty current_question in
          let w := AdaptiveTracker.record_adaptive_answer is_correct current_topic
                     current_difficulty w in
          let next_action :=
            determine_next_adaptive_action is_correct current_difficulty current_topic in
          if ActionType_eqb (na_type next_action) act_complete
             || ActionType_eqb (na_type next_action) act_offer_reevaluation
          then
            (AdaptiveTracker.update_adaptive_test_results (na_type next_action) w,
             returned (Ok (reply is_correct current_question next_action None None)))
          else
            let next_topic := default current_topic (na_topic next_action) in
            match na_difficulty next_action with
            | None => (w, raised "AttributeError")
            | Some next_difficulty =>
                let '(next_question, g) :=
                  Search.get_random_question_by_topic_and_difficulty next_topic
                    next_difficulty mcqs (rng w) in
                let w := set_rng g w in
                let '(w, next_question) :=
                  match next_question with
                  | Some q => (w, Some q)
                  | None =>
                      match remaining_topics session with
                      | [] => (w, None)
                      | _ :: _ =>
                          let '(w, next_topic) :=
                            AdaptiveTracker.move_to_next_adaptive_topic w in
                          match truthy next_topic with
                          | Some next_topic =>
                              let '(q, g) :=
                                Search.get_random_question_by_topic_and_difficulty
                                  next_topic "Medium" mcqs (rng w) in
                              (set_rng g w, q)
                          | None => (w, None)
                          end
                      end
                  end in
                match next_question with
                | Some q =>
                    (AdaptiveTracker.set_current_adaptive_question q w,
                     returned (Ok (reply is_correct current_question next_action
                                     (Some q) None)))
                | None =>
                    (AdaptiveTracker.update_adaptive_test_results act_complete w,
                     returned (Ok (reply is_correct current_question
                                     (action act_complete None None) None None)))
                end
            end
      end
  end.

End AdaptiveExams.

(** An adaptive test of [ExamManager] on Stacks with the given question
    current. *)
Definition tracker_test_at (q : Question) : World :=
  AdaptiveTracker.set_current_adaptive_question q
    (AdaptiveTracker.start_adaptive_test_session ["Stacks"] (new_learner [])).


(** * Properties *)

(** ** Lists and pools *)

Lemma mem_In x l : Py.mem x l = true ↔ In x l.
Proof.
  unfold Py.mem. rewrite existsb_exists. split.
  - intros (y & Hy & Heq). apply String.eqb_eq in Heq. by subst.
  - intros Hin. exists x. split; [done|]. apply String.eqb_refl.
Qed.

Lemma mem_false_In x l : Py.mem x l = false ↔ ¬ In x l.
Proof. rewrite <- mem_In. destruct (Py.mem x l); split; congruence. Qed.

Lemma In_append_if_absent x t l : In x (Py.append_if_absent t l) ↔ x = t ∨ In x l.
Proof.
  unfold Py.append_if_absent. destruct (Py.mem t l) eqn:E.
  - apply mem_In in E. split; [tauto|]. intros [->|]; done.
  - rewrite in_app_iff. simpl. split; intros; intuition congruence.
Qed.

Lemma In_insert_all topic_list : ∀ rows x,
  In x (insert_all topic_list rows) ↔ In x topic_list ∨ In x rows.
Proof.
  unfold insert_all. induction topic_list as [|t l IH]; intros rows x; simpl.
  - tauto.
  - rewrite IH, In_append_if_absent. split; intros; intuition congruence.
Qed.

(** The batch insertion is the loop of single insertions. *)
Lemma add_weak_topics_loop topic_list : ∀ w,
  add_weak_topics topic_list w = foldl (fun w topic => add_weak_topic topic w) w topic_list.
Proof.
  induction topic_list as [|t l IH]; intros w.
  - by destruct w.
  - simpl. rewrite <- IH. by destruct w.
Qed.

Lemma add_needs_training_topics_loop topic_list : ∀ w,
  add_needs_training_topics topic_list w
  = foldl (fun w topic => add_needs_training_topic topic w) w topic_list.
Proof.
  induction topic_list as [|t l IH]; intros w.
  - by destruct w.
  - simpl. rewrite <- IH. by destruct w.
Qed.

Lemma In_update_pool topic_list : ∀ local_pool rows x,
  In x (update_pool topic_list local_pool rows)
  ↔ In x rows ∨ (In x topic_list ∧ ¬ In x local_pool).
Proof.
  unfold update_pool. induction topic_list as [|t l IH]; intros pool rows x; simpl.
  - tauto.
  - unfold pool_step at 2. simpl. destruct (Py.mem t pool) eqn:E.
    + apply mem_In in E. rewrite IH. split; [tauto|].
      intros [?|[[->|?] ?]]; tauto.
    + apply mem_false_In in E. rewrite IH, In_append_if_absent, in_app_iff. simpl.
      destruct (String.eqb_spec x t) as [->|Hne]; [tauto|].
      split; intros; intuition congruence.
Qed.

(** ** Sequential follow-up tests *)

(** The answer that completes a sequential test: the reply carries the
    test result, and the pools afterwards hold what they held, what the
    cache held, and the topics the result marks weak. *)
Lemma process_sequential_answer_last (is_weak : nat → nat → bool)
    (rt : SequentialSession → string) (answer : string) (s : SequentialSession) (w : World)
    (q : Question) :
  questions s !! current_question_index s = Some q →
  length (questions s) ≤ S (current_question_index s) →
  let is_correct := String.eqb (Py.upper answer) (Py.upper (q_correct_answer q)) in
  let c := if is_correct then S (correct_answers s) else correct_answers s in
  let weak := if is_weak c (length (questions s)) then seq_topics s else [] in
  ∃ w' r tr,
    process_sequential_answer is_weak rt answer s w = (w', Ok r)
    ∧ sr_correct r = is_correct
    ∧ sr_test_completed r = true
    ∧ sr_next_question r = None
    ∧ sr_test_results r = Some tr
    ∧ tr_weak_topics tr = weak
    ∧ tr_score tr = Some (c, length (questions s))
    ∧ (∀ x, In x (db_weak_topics w')
             ↔ In x weak ∨ In x (cached_weak_pool w) ∨ In x (db_weak_topics w))
    ∧ (∀ x, In x (db_needs_training w')
             ↔ In x (cached_needs_pool w) ∨ In x (db_needs_training w)).
Proof.
  intros Hq Hlen is_correct c weak.
  unfold process_sequential_answer. rewrite Hq.
  cbn [score_answer questions current_question_index correct_answers seq_topics].
  assert (Hdone : (length (questions s) <=? S (current_question_index s)) = true)
    by (apply Nat.leb_le; lia).
  rewrite Hdone. fold is_correct. fold c. fold weak.
  eexists _, _, _. split; [reflexivity|].
  cbn [sr_correct sr_test_completed sr_next_question sr_test_results tr_weak_topics tr_score].
  do 6 (split; [done|]). clearbody weak c is_correct.
  destruct w as [[d|] dbs dbw dbn dbt g]; split; intros x; cbn -[insert_all];
    rewrite ?In_insert_all; tauto.
Qed.

Lemma standard_is_weak_one c : standard_is_weak c 1 = false.
Proof. unfold standard_is_weak. by destruct c. Qed.

Lemma standard_is_weak_three c : standard_is_weak c 3 = negb (2 <=? c).
Proof. unfold standard_is_weak. by destruct c as [|[|[|c]]]. Qed.

Lemma advanced_is_weak_three c : advanced_is_weak c 3 = negb (3 <=? c).
Proof.
  unfold advanced_is_weak.
  destruct (Nat.leb_spec 3 c), (Nat.ltb_spec (5 * c) (4 * 3)); simpl; lia.
Qed.

(** C10.  A Standard follow-up that holds a single question is completed
    by its one answer, right or wrong, with no topic marked weak: the test
    [correct_answers < total_questions * 2 // 3] cannot succeed for one
    question, and the only topics the weak-topic table gains are those the
    write-back of the cache brings. *)
Theorem single_question_followup_never_marks_weak
    (answer : string) (w : World) (s : SequentialSession) (q : Question) :
  load_user_session w = Some (Sequential s) →
  String.prefix "Reevaluation" (test_type s) = true →
  Py.str_in "Advanced" (test_type s) = false →
  questions s = [q] →
  current_question_index s = 0 →
  (∀ c, standard_is_weak c 1 = false)
  ∧ ∃ w' r tr,
      process_reevaluation_answer answer w = (w', Ok r)
      ∧ sr_test_completed r = true
      ∧ sr_test_results r = Some tr
      ∧ tr_weak_topics tr = []
      ∧ ∀ t, In t (db_weak_topics w') → In t (cached_weak_pool w) ∨ In t (db_weak_topics w).
Proof.
  intros Hload Hpre Hadv Hqs Hidx. split; [apply standard_is_weak_one|].
  unfold process_reevaluation_answer. rewrite Hload. cbn [session_test_type].
  rewrite Hpre, Hadv. cbn [negb orb].
  destruct (process_sequential_answer_last standard_is_weak
              (fun s => "Reevaluation: " +:+ default "Unknown" (head (seq_topics s)))
              answer s w q) as (w' & r & tr & Hrun & _ & Hdone & _ & Hres & Hweak & _ & Hpool & _).
  { by rewrite Hqs, Hidx. }
  { rewrite Hqs, Hidx. simpl. lia. }
  exists w', r, tr. rewrite Hqs in Hweak. cbn [length] in Hweak.
  rewrite standard_is_weak_one in Hweak.
  repeat split; try done.
  intros t Ht. apply Hpool in Ht. rewrite Hqs in Ht. cbn [length] in Ht.
  rewrite standard_is_weak_one in Ht. simpl in Ht. tauto.
Qed.

Lemma single_question_followup_witness :
  ∃ w' r tr,
    process_reevaluation_answer "B" single_question_followup = (w', Ok r)
    ∧ sr_test_completed r = true
    ∧ sr_test_results r = Some tr
    ∧ tr_weak_topics tr = []
    ∧ ∀ t, In t (db_weak_topics w')
           → In t (cached_weak_pool single_question_followup)
             ∨ In t (db_weak_topics single_question_followup).
Proof.
  refine (proj2 (single_question_followup_never_marks_weak "B" single_question_followup
            _ (mcq "Queues" "Medium" "m1") _ _ _ _ _)); reflexivity.
Defined.

(** C7, as the code has it.  The last answer of a three-question follow-up
    completes it.  With at least 2 (Standard) or all 3 (Advanced) answers
    right the result lists no weak topic; otherwise it lists the topics of
    the test, which are inserted into the weak-topic table, for the Advanced
    kind as well.  No topic leaves the weak-topic table or the
    needs-training table: each holds afterwards what it held before, what
    the cache wrote back and, for the weak-topic table, the topics just
    marked. *)
Theorem followup_completion_never_removes
    (advanced : bool) (answer : string) (w : World) (s : SequentialSession) :
  load_user_session w = Some (Sequential s) →
  followup_kind advanced s →
  length (questions s) = 3 →
  current_question_index s = 2 →
  ∃ w' r tr,
    process_followup_answer advanced answer w = (w', Ok r)
    ∧ sr_test_completed r = true
    ∧ sr_test_results r = Some tr
    ∧ let c := if sr_correct r then S (correct_answers s) else correct_answers s in
      let passed := if advanced then 3 <=? c else 2 <=? c in
      tr_score tr = Some (c, 3)
      ∧ tr_weak_topics tr = (if passed then [] else seq_topics s)
      ∧ (∀ t, In t (db_weak_topics w')
              ↔ (passed = false ∧ In t (seq_topics s))
                ∨ In t (cached_weak_pool w) ∨ In t (db_weak_topics w))
      ∧ (∀ t, In t (db_needs_training w')
              ↔ In t (cached_needs_pool w) ∨ In t (db_needs_training w)).
Proof.
  intros Hload Hkind Hlen Hidx.
  destruct (questions s !! 2) as [q|] eqn:Hq.
  2: { apply lookup_ge_None in Hq. lia. }
  pose proof (process_sequential_answer_last
                (if advanced then advanced_is_weak else standard_is_weak)
                (if advanced then test_type
                 else fun s => "Reevaluation: " +:+ default "Unknown" (head (seq_topics s)))
                answer s w q) as Hlast.
  rewrite Hidx, Hlen in Hlast.
  destruct Hlast as (w' & r & tr & Hrun & Hcorrect & Hdone & _ & Hres & Hweak & Hscore
                     & Hpool & Hneeds); [done|lia|].
  exists w', r, tr. rewrite Hcorrect. cbn zeta.
  set (c := if (Py.upper answer =? Py.upper (q_correct_answer q))%string
            then S (correct_answers s) else correct_answers s) in *.
  set (passed := if advanced then 3 <=? c else 2 <=? c).
  assert (Hw : (if (if advanced then advanced_is_weak else standard_is_weak) c 3
                then seq_topics s else [])
               = if passed then [] else seq_topics s).
  { unfold passed. destruct advanced;
      rewrite ?advanced_is_weak_three, ?standard_is_weak_three; by destruct (_ <=? _). }
  split.
  { rewrite <- Hrun. unfold process_followup_answer, followup_kind in *.
    destruct advanced.
    - unfold process_reevaluation_answer_advanced. rewrite Hload. cbn [session_test_type].
      by rewrite Hkind.
    - unfold process_reevaluation_answer. rewrite Hload. cbn [session_test_type].
      destruct Hkind as [-> ->]. done. }
  do 3 (split; [done|]). split; [by rewrite Hweak, Hw|]. split; [|done].
  intros t. rewrite Hpool, Hw.
  destruct passed; simpl; intuition congruence.
Qed.

Lemma followup_completion_never_removes_witness :
  ∃ w' r tr,
    process_followup_answer false "A" (last_of_three "Reevaluation: Queues" 1 [] []) = (w', Ok r)
    ∧ sr_test_completed r = true
    ∧ sr_test_results r = Some tr
    ∧ tr_score tr = Some (2, 3)
    ∧ tr_weak_topics tr = [].
Proof.
  destruct (followup_completion_never_removes false "A"
              (last_of_three "Reevaluation: Queues" 1 [] []) _ eq_refl (conj eq_refl eq_refl)
              eq_refl eq_refl) as (w' & r & tr & Hrun & Hdone & Hres & Hrest).
  exists w', r, tr. rewrite Hrun.
  assert (Hr : sr_correct r = true).
  { vm_compute in Hrun. by injection Hrun as <- <-. }
  rewrite Hr in Hrest. destruct Hrest as (Hs & Hwk & _). done.
Defined.

(** C7 as stated fails: a Standard follow-up completed with 3 of 3 right
    leaves its topic in the weak-topic table, and an Advanced one completed
    with 3 of 3 right leaves its topic in the needs-training table. *)
Lemma followup_pass_leaves_topic_in_pool :
  (let '(w', r) := process_reevaluation_answer "A"
                     (last_of_three "Reevaluation: Queues" 2 ["Queues"] []) in
   (∃ v, r = Ok v ∧ sr_test_completed v = true
         ∧ (tr_score <$> sr_test_results v) = Some (Some (3, 3)))
   ∧ In "Queues" (db_weak_topics w'))
  ∧
  (let '(w', r) := process_reevaluation_answer_advanced "A"
                     (last_of_three "Advanced Reevaluation: Queues" 2 [] ["Queues"]) in
   (∃ v, r = Ok v ∧ sr_test_completed v = true
         ∧ (tr_score <$> sr_test_results v) = Some (Some (3, 3)))
   ∧ In "Queues" (db_needs_training w')).
Proof.
  split; vm_compute; (split; [eexists; split; [reflexivity|]; split; reflexivity | by left]).
Qed.

(** ** Random draws *)

Lemma remove_nth_perm {A} (d : A) (l : list A) : ∀ i,
  i < length l → nth i l d :: remove_nth i l ≡ₚ l.
Proof.
  induction l as [|a l IH]; intros i Hi; simpl in *; [lia|].
  destruct i as [|i]; [done|].
  etrans; [apply Permutation_swap|]. apply Permutation_cons; [done|]. apply IH. lia.
Qed.

Lemma remove_nth_length {A} (l : list A) : ∀ i,
  i < length l → length (remove_nth i l) = pred (length l).
Proof.
  induction l as [|a l IH]; intros i Hi; simpl in *; [lia|].
  destruct i as [|i]; [done|]. simpl. rewrite IH by lia. lia.
Qed.

(** A sample is a list of [min k (length l)] elements that, completed by
    the elements left over, is a rearrangement of [l]. *)
Lemma sample_spec {A} (k : nat) : ∀ (l : list A) g r g',
  sample k l g = (r, g') →
  length r = min k (length l) ∧ ∃ rest, r ++ rest ≡ₚ l.
Proof.
  induction k as [|k IH]; intros l g r g' Hs; simpl in Hs.
  - injection Hs as <- <-. split; [done|]. by exists l.
  - destruct l as [|d l]; [injection Hs as <- <-; split; [done|by exists []]|].
    set (i := draw g mod length (d :: l)) in *.
    assert (Hi : i < length (d :: l)) by (apply Nat.mod_upper_bound; simpl; lia).
    destruct (sample k (remove_nth i (d :: l)) (tl g)) as [r0 g0] eqn:E.
    injection Hs as <- <-.
    apply IH in E as [Hlen [rest Hperm]].
    rewrite remove_nth_length in Hlen by done.
    split; [simpl in *; lia|].
    exists rest. rewrite <- (remove_nth_perm d (d :: l) i Hi).
    simpl. by rewrite Hperm.
Qed.

Lemma shuffle_perm {A} (l : list A) g r g' : shuffle l g = (r, g') → r ≡ₚ l.
Proof.
  unfold shuffle. intros Hs. apply sample_spec in Hs as [Hlen [rest Hperm]].
  rewrite Nat.min_id in Hlen.
  assert (rest = []) as ->.
  { apply Permutation_length in Hperm. rewrite length_app in Hperm.
    destruct rest; [done|simpl in *; lia]. }
  by rewrite app_nil_r in Hperm.
Qed.

Lemma choice_In {A} (d : A) (l : list A) g : l ≠ [] → In (choice d l g).1 l.
Proof.
  intros Hl. unfold choice. simpl. apply nth_In.
  apply Nat.mod_upper_bound. by destruct l.
Qed.

(** ** Question bank retrieval *)

Lemma In_exact_matches topic d bank q :
  In q (exact_matches topic d bank) ↔ In q bank ∧ q_topic q = topic ∧ q_difficulty q = d.
Proof.
  unfold exact_matches. rewrite filter_In, andb_true_iff, !String.eqb_eq. tauto.
Qed.

Lemma In_variation_matches topic d bank q :
  In q (variation_matches topic d bank) → In q bank ∧ q_difficulty q = d.
Proof.
  unfold variation_matches. rewrite in_flat_map. intros ([m vs] & _ & Hq).
  cbn [fst snd] in Hq. destruct (_ || _); [|done].
  apply in_flat_map in Hq as (v & _ & Hq). apply In_exact_matches in Hq. tauto.
Qed.

Lemma In_alias_matches topic d bank q :
  In q (alias_matches topic d bank) → In q bank ∧ q_difficulty q = d.
Proof.
  unfold alias_matches. destruct (exact_matches topic d bank) as [|a l] eqn:E.
  - apply In_variation_matches.
  - rewrite <- E. rewrite In_exact_matches. tauto.
Qed.

(** ** The Advanced follow-up builder *)



Lemma install_session_loaded sd w :
  load_user_session (install_session sd w) = Some (Sequential sd)
  ∧ cached_session (install_session sd w) = Some (Sequential sd)
  ∧ rng (install_session sd w) = rng w.
Proof. by destruct w as [[d|] dbs dbw dbn dbt g]. Qed.




(** ** The Standard follow-up builder *)

Lemma get_random_question_retrieved topic d bank g :
  retrieved topic d bank (get_random_question_by_topic_and_difficulty topic d bank g).1.
Proof.
  unfold get_random_question_by_topic_and_difficulty, retrieved.
  destruct (random_candidates topic d bank) as [|q l] eqn:E; [done|].
  pose proof (choice_In q (q :: l) g) as Hin. destruct (choice q (q :: l) g).
  simpl in *. by apply Hin.
Qed.

Lemma random_question_spec topic d bank w :
  retrieved topic d bank (random_question topic d bank w).2
  ∧ ∃ g, (random_question topic d bank w).1 = set_rng g w.
Proof.
  unfold random_question.
  pose proof (get_random_question_retrieved topic d bank (rng w)) as Hr.
  destruct (get_random_question_by_topic_and_difficulty topic d bank (rng w)) as [q g].
  split; [done|]. by exists g.
Qed.

(** Questions filed under the topic at a standard difficulty are the
    candidates of a retrieval at that difficulty. *)
Lemma random_candidates_exact topic d bank :
  standard_difficulty d = d →
  exact_matches topic d bank ≠ [] →
  random_candidates topic d bank = exact_matches topic d bank.
Proof.
  intros Hd Hne. unfold random_candidates, alias_matches. rewrite Hd.
  by destruct (exact_matches topic d bank).
Qed.

Lemma random_candidates_nonempty topic d bank :
  topic_matches topic bank ≠ [] → random_candidates topic d bank ≠ [].
Proof.
  intros Hne. unfold random_candidates.
  destruct (alias_matches _ _ _); [|done].
  destruct (partial_matches _ _ _); [|done].
  destruct (topic_matches topic bank) as [|a l]; [done|].
  by destruct (List.filter _ _).
Qed.

(** What the Standard builder does guarantee.  It asks the retrieval for
    an Easy, a Medium and a Hard question and keeps the answers in that
    order.  It fails exactly when all three retrievals return nothing;
    otherwise it stores a session that starts at the first of the
    questions found.  When the topic has questions filed under each of the
    three difficulties, the test is one Easy, one Medium and one Hard
    question of the topic, in that order.  As soon as the name of the
    topic is part of the name some question is filed under, each of the
    three retrievals returns a question, whatever its difficulty. *)
Theorem standard_builder_spec (topic : string) (all_mcqs : list Question) (w : World) :
  ∃ w' res (e m h : option Question),
    start_reevaluation_test topic all_mcqs w = (w', res)
    ∧ retrieved topic "Easy" all_mcqs e
    ∧ retrieved topic "Medium" all_mcqs m
    ∧ retrieved topic "Hard" all_mcqs h
    ∧ (cat_options [e; m; h] = [] → ∃ msg, res = Err msg)
    ∧ (∀ q qs, cat_options [e; m; h] = q :: qs →
         res = Ok {| first_question := q |}
         ∧ ∃ s, load_user_session w' = Some (Sequential s)
                ∧ questions s = q :: qs
                ∧ current_question_index s = 0
                ∧ test_type s = "Reevaluation: " +:+ topic)
    ∧ (exact_matches topic "Easy" all_mcqs ≠ [] →
       exact_matches topic "Medium" all_mcqs ≠ [] →
       exact_matches topic "Hard" all_mcqs ≠ [] →
       ∃ qe qm qh,
         e = Some qe ∧ m = Some qm ∧ h = Some qh
         ∧ map q_difficulty [qe; qm; qh] = ["Easy"; "Medium"; "Hard"]
         ∧ map q_topic [qe; qm; qh] = [topic; topic; topic])
    ∧ (topic_matches topic all_mcqs ≠ [] → is_Some e ∧ is_Some m ∧ is_Some h).
Proof.
  unfold start_reevaluation_test.
  destruct (random_question_spec topic "Easy" all_mcqs w) as [He [g1 Hw1]].
  destruct (random_question topic "Easy" all_mcqs w) as [w1 e]. simpl in He, Hw1.
  destruct (random_question_spec topic "Medium" all_mcqs w1) as [Hm [g2 Hw2]].
  destruct (random_question topic "Medium" all_mcqs w1) as [w2 m]. simpl in Hm, Hw2.
  destruct (random_question_spec topic "Hard" all_mcqs w2) as [Hh [g3 Hw3]].
  destruct (random_question topic "Hard" all_mcqs w2) as [w3 h]. simpl in Hh, Hw3.
  destruct (cat_options [e; m; h]) as [|q qs] eqn:Hcat.
  - eexists _, _, e, m, h. split; [reflexivity|]. rewrite Hcat.
    do 3 (split; [done|]). split; [by eexists|]. split; [done|].
    destruct e, m, h; try done. unfold retrieved in He. split.
    + intros H1 H2 H3. rewrite random_candidates_exact in He; done.
    + intros Hne. by apply (random_candidates_nonempty topic "Easy") in Hne.
  - eexists _, _, e, m, h. split; [reflexivity|]. rewrite Hcat.
    do 3 (split; [done|]). split; [done|]. split; [|split].
    + intros q' qs' [= <- <-]. split; [done|].
      set (sd := {| test_type := _ |}).
      destruct (install_session_loaded sd w3) as (Hload & _ & _).
      exists sd. by rewrite Hload.
    + intros H1 H2 H3.
      unfold retrieved in He, Hm, Hh.
      rewrite random_candidates_exact in He, Hm, Hh by done.
      destruct e as [qe|]; [|done]. destruct m as [qm|]; [|done]. destruct h as [qh|]; [|done].
      apply In_exact_matches in He as (_ & Hte & He).
      apply In_exact_matches in Hm as (_ & Htm & Hm).
      apply In_exact_matches in Hh as (_ & Hth & Hh).
      exists qe, qm, qh. simpl. by rewrite He, Hm, Hh, Hte, Htm, Hth.
    + intros Hne. unfold retrieved in He, Hm, Hh.
      pose proof (random_candidates_nonempty topic "Easy" all_mcqs Hne).
      pose proof (random_candidates_nonempty topic "Medium" all_mcqs Hne).
      pose proof (random_candidates_nonempty topic "Hard" all_mcqs Hne).
      destruct e, m, h; done.
Qed.

Lemma standard_builder_spec_witness :
  ∃ w' res (e m h : option Question),
    start_reevaluation_test "Queues" one_of_each (new_learner []) = (w', res)
    ∧ ∃ qe qm qh,
        e = Some qe ∧ m = Some qm ∧ h = Some qh
        ∧ map q_difficulty [qe; qm; qh] = ["Easy"; "Medium"; "Hard"]
        ∧ map q_topic [qe; qm; qh] = ["Queues"; "Queues"; "Queues"].
Proof.
  destruct (standard_builder_spec "Queues" one_of_each (new_learner []))
    as (w' & res & e & m & h & Hrun & _ & _ & _ & _ & _ & Hex & _).
  exists w', res, e, m, h. split; [done|].
  apply Hex; vm_compute; discriminate.
Defined.

(** C6 at the failing input.  The topic has one Medium question and
    nothing else.  The Standard builder stores that question three times:
    the retrievals for the empty Easy and Hard difficulties fall back to
    the Medium question instead of returning nothing, so the guards that
    leave out a missing difficulty never fire.  The builder of
    [bot/exam_manager.py] stores the question once. *)
Lemma standard_builder_fills_empty_difficulty :
  exact_matches "Queues" "Easy" medium_only = []
  ∧ exact_matches "Queues" "Hard" medium_only = []
  ∧ stored_difficulties (start_reevaluation_test "Queues" medium_only (new_learner [])).1
    = ["Medium"; "Medium"; "Medium"]
  ∧ stored_questions (start_reevaluation_test "Queues" medium_only (new_learner [])).1
    = [mcq "Queues" "Medium" "m1"; mcq "Queues" "Medium" "m1"; mcq "Queues" "Medium" "m1"]
  ∧ stored_questions
      (ExamManager.start_reevaluation_test "Queues" medium_only (new_learner [])).1
    = [mcq "Queues" "Medium" "m1"].
Proof. by vm_compute. Qed.

(** The builder of [bot/exam_manager.py] does skip an empty difficulty, but
    shuffles the questions it found: here the Hard question comes first. *)
Example exam_manager_builder_shuffles :
  stored_difficulties
    (ExamManager.start_reevaluation_test "Queues" one_of_each
       (new_learner [0; 0; 0; 0; 0; 0; 2; 0; 0])).1
  = ["Hard"; "Easy"; "Medium"].
Proof. by vm_compute. Qed.

(** ** The cache and the stored session under the engine's operations *)

Lemma cached_session_user_data w x :
  cached_session w = Some x → ∃ data, user_data w = Some data ∧ current_test_session data = Some x.
Proof. unfold cached_session. destruct (user_data w) as [d|]; [|done]. eauto. Qed.

Lemma cached_session_set_cached_session v w x :
  cached_session w = Some x → cached_session (set_cached_session v w) = v.
Proof.
  intros (d & Hd & _)%cached_session_user_data.
  unfold set_cached_session, cached_session. rewrite Hd. done.
Qed.

Lemma db_session_set_cached_session v w :
  db_session (set_cached_session v w) = db_session w.
Proof. unfold set_cached_session. by destruct (user_data w). Qed.

Lemma db_tests_set_cached_session v w : db_tests (set_cached_session v w) = db_tests w.
Proof. unfold set_cached_session. by destruct (user_data w). Qed.

Lemma rng_set_cached_session v w : rng (set_cached_session v w) = rng w.
Proof. unfold set_cached_session. by destruct (user_data w). Qed.

Lemma cached_session_modify_cached f w s :
  cached_session w = Some (Adaptive s) →
  cached_session (modify_cached f w) = Some (Adaptive (f s)).
Proof.
  intros Hc. unfold modify_cached. rewrite Hc.
  by apply (cached_session_set_cached_session _ _ _ Hc).
Qed.

Lemma db_session_modify_cached f w : db_session (modify_cached f w) = db_session w.
Proof.
  unfold modify_cached. destruct (cached_session w) as [[s|s]|]; try done.
  apply db_session_set_cached_session.
Qed.

Lemma db_tests_modify_cached f w : db_tests (modify_cached f w) = db_tests w.
Proof.
  unfold modify_cached. destruct (cached_session w) as [[s|s]|]; try done.
  apply db_tests_set_cached_session.
Qed.

Lemma rng_modify_cached f w : rng (modify_cached f w) = rng w.
Proof.
  unfold modify_cached. destruct (cached_session w) as [[s|s]|]; try done.
  apply rng_set_cached_session.
Qed.

Lemma cached_session_save_cached w : cached_session (save_cached w) = cached_session w.
Proof. done. Qed.

Lemma db_session_save_cached w : db_session (save_cached w) = cached_session w.
Proof. done. Qed.


Lemma cached_session_save_user_data w : cached_session (save_user_data w) = cached_session w.
Proof.
  unfold save_user_data, cached_session.
  by destruct (user_data w) eqn:E; simpl; rewrite ?E.
Qed.

Lemma db_session_save_user_data w x :
  cached_session w = Some x → db_session (save_user_data w) = Some x.
Proof.
  intros (d & Hd & Hx)%cached_session_user_data. unfold save_user_data. by rewrite Hd.
Qed.

Lemma db_tests_save_user_data w : db_tests (save_user_data w) = db_tests w.
Proof. unfold save_user_data. by destruct (user_data w). Qed.

Lemma rng_save_user_data w : rng (save_user_data w) = rng w.
Proof. unfold save_user_data. by destruct (user_data w). Qed.

Lemma cached_session_set_rng g w : cached_session (set_rng g w) = cached_session w.
Proof. done. Qed.

Lemma db_session_set_rng g w : db_session (set_rng g w) = db_session w.
Proof. done. Qed.

(** [record_adaptive_answer] appends the entry in the cache and stores the
    result. *)
Lemma record_adaptive_answer_spec c t d w s :
  cached_session w = Some (Adaptive s) →
  let s' := set_answers (answers s ++ [{| a_topic := t; a_difficulty := d; a_correct := c |}]) s in
  cached_session (record_adaptive_answer c t d w) = Some (Adaptive s')
  ∧ db_session (record_adaptive_answer c t d w) = Some (Adaptive s')
  ∧ db_tests (record_adaptive_answer c t d w) = db_tests w
  ∧ rng (record_adaptive_answer c t d w) = rng w.
Proof.
  intros Hc s'. unfold record_adaptive_answer. rewrite Hc.
  pose proof (cached_session_modify_cached
                (fun s => set_answers (answers s ++ [{| a_topic := t; a_difficulty := d;
                                                        a_correct := c |}]) s) w s Hc) as Hm.
  rewrite cached_session_save_user_data, (db_session_save_user_data _ _ Hm),
    db_tests_save_user_data, db_tests_modify_cached, rng_save_user_data, rng_modify_cached.
  done.
Qed.

Section Hashed.
Context `{Md5}.

(** [set_current_adaptive_question] rebuilds cache and store from the
    stored session. *)
Lemma set_current_adaptive_question_spec q w sd x :
  db_session w = Some (Adaptive sd) →
  cached_session w = Some x →
  let s' := set_used_question_hashes (used_question_hashes sd ∪ {[ get_question_hash q ]})
              (set_current_question (Some q) sd) in
  cached_session (set_current_adaptive_question q w) = Some (Adaptive s')
  ∧ db_session (set_current_adaptive_question q w) = Some (Adaptive s')
  ∧ db_tests (set_current_adaptive_question q w) = db_tests w.
Proof.
  intros Hdb Hc s'. unfold set_current_adaptive_question, load_user_session. rewrite Hdb.
  destruct (cached_session_user_data _ _ Hc) as (d & Hd & _).
  unfold save_user_session at 1. cbn [set_db_session user_data]. rewrite Hd.
  unfold set_cached_session, cached_session. cbn [save_user_session set_db_session user_data].
  rewrite Hd. done.
Qed.

End Hashed.

(** [move_to_next_adaptive_topic] pops the head of the queue in the cache
    and stores the session. *)
Lemma move_to_next_adaptive_topic_spec w s :
  cached_session w = Some (Adaptive s) →
  ∃ w', move_to_next_adaptive_topic w = (w', head (remaining_topics (pop_topic s)))
        ∧ cached_session w' = Some (Adaptive (pop_topic s))
        ∧ db_session w' = Some (Adaptive (pop_topic s))
        ∧ db_tests w' = db_tests w
        ∧ rng w' = rng w.
Proof.
  intros Hc. unfold move_to_next_adaptive_topic. rewrite Hc.
  set (w1 := match remaining_topics s with [] => w | _ => _ end).
  assert (Hw1 : cached_session w1 = Some (Adaptive (pop_topic s))
                ∧ db_tests w1 = db_tests w ∧ rng w1 = rng w).
  { unfold w1, pop_topic. destruct (remaining_topics s) as [|t rest]; [done|].
    rewrite db_tests_modify_cached, rng_modify_cached.
    by rewrite (cached_session_modify_cached _ _ _ Hc). }
  destruct Hw1 as (Hw1 & Ht & Hr). rewrite Hw1.
  eexists. split; [reflexivity|].
  rewrite cached_session_save_user_data, (db_session_save_user_data _ _ Hw1),
    db_tests_save_user_data, rng_save_user_data. done.
Qed.

(** ** The outcome classifier *)

Lemma count_total_app t l a :
  count_total t (l ++ [a]) = count_total t l + (if String.eqb (a_topic a) t then 1 else 0).
Proof.
  unfold count_total. rewrite List.filter_app, length_app. simpl.
  by destruct (String.eqb (a_topic a) t).
Qed.

Lemma count_correct_app t l a :
  count_correct t (l ++ [a])
  = count_correct t l + (if String.eqb (a_topic a) t && a_correct a then 1 else 0).
Proof.
  unfold count_correct. rewrite List.filter_app, length_app. simpl.
  by destruct (String.eqb (a_topic a) t && a_correct a).
Qed.

Lemma count_correct_le t l : count_correct t l ≤ count_total t l.
Proof.
  unfold count_correct, count_total. induction l as [|a l IH]; simpl; [done|].
  destruct (String.eqb (a_topic a) t), (a_correct a); simpl; lia.
Qed.

Lemma row_tally t t0 b res :
  row t (tally t0 b res)
  = if String.eqb t0 t
    then Some (match row t0 res with
               | Some (c, n) => ((if b then S c else c), S n)
               | None => ((if b then 1 else 0), 1)
               end)
    else row t res.
Proof.
  induction res as [|[t1 [c1 n1]] res IH]; simpl.
  - done.
  - destruct (String.eqb_spec t1 t0) as [->|Hne]; simpl.
    + by destruct (String.eqb_spec t0 t) as [->|Hne'].
    + rewrite IH. destruct (String.eqb_spec t0 t) as [->|Hne'].
      * by destruct (String.eqb_spec t1 t).
      * done.
Qed.

Lemma keys_tally t0 b res x :
  In x (map fst (tally t0 b res)) ↔ x = t0 ∨ In x (map fst res).
Proof.
  induction res as [|[t1 [c1 n1]] res IH]; simpl.
  - split; [intros [<-|[]]; by left | intros [->|[]]; by left].
  - destruct (String.eqb_spec t1 t0) as [->|Hne]; simpl.
    + split; [tauto|]. intros [->|[?|?]]; tauto.
    + rewrite IH. tauto.
Qed.

Lemma NoDup_keys_tally t0 b res :
  NoDup (map fst res) → NoDup (map fst (tally t0 b res)).
Proof.
  induction res as [|[t1 [c1 n1]] res IH]; simpl; intros Hnd.
  - apply NoDup_singleton.
  - apply NoDup_cons in Hnd as [Hnin Hnd].
    destruct (String.eqb_spec t1 t0) as [->|Hne]; simpl.
    + by apply NoDup_cons.
    + apply NoDup_cons. split; [|by apply IH].
      rewrite list_elem_of_In, keys_tally. rewrite list_elem_of_In in Hnin. tauto.
Qed.

Lemma topic_results_app l a :
  topic_results (l ++ [a]) = tally (a_topic a) (a_correct a) (topic_results l).
Proof. unfold topic_results. by rewrite foldl_app. Qed.

Lemma NoDup_keys_topic_results l : NoDup (map fst (topic_results l)).
Proof.
  induction l as [|a l IH] using rev_ind; [constructor|].
  rewrite topic_results_app. by apply NoDup_keys_tally.
Qed.

(** The row of a topic holds its counts; topics without an answer have no
    row. *)
Lemma row_topic_results t l :
  row t (topic_results l)
  = if 0 <? count_total t l then Some (count_correct t l, count_total t l) else None.
Proof.
  induction l as [|a l IH] using rev_ind; [done|].
  rewrite topic_results_app, row_tally, count_total_app, count_correct_app.
  destruct (String.eqb_spec (a_topic a) t) as [->|Hne]; simpl.
  - rewrite IH. destruct (Nat.ltb_spec 0 (count_total t l)).
    + replace (0 <? count_total t l + 1) with true by (symmetry; apply Nat.ltb_lt; lia).
      destruct (a_correct a); f_equal; f_equal; lia.
    + replace (count_total t l) with 0 by lia.
      pose proof (count_correct_le t l). replace (count_correct t l) with 0 by lia.
      simpl. by destruct (a_correct a).
  - by rewrite IH, !Nat.add_0_r.
Qed.

Lemma In_row t cn res : NoDup (map fst res) → In (t, cn) res ↔ row t res = Some cn.
Proof.
  induction res as [|[t1 cn1] res IH]; simpl; intros Hnd; [done|].
  apply NoDup_cons in Hnd as [Hnin Hnd]. rewrite list_elem_of_In in Hnin.
  destruct (String.eqb_spec t1 t) as [->|Hne].
  - split.
    + intros [[= ->]|Hin]; [done|]. exfalso. apply Hnin. apply in_map_iff. by exists (t, cn).
    + intros [= ->]. by left.
  - rewrite <- IH by done. split; [|tauto]. intros [[=]|?]; [congruence|done].
Qed.

(** The ratio rule: which topics [update_adaptive_test_results] files as
    weak and as passed. *)
Lemma classify_weak_spec t needs l :
  In t (classify_weak needs (topic_results l))
  ↔ ¬ In t needs ∧ 0 < count_total t l ∧ 2 * count_correct t l < count_total t l.
Proof.
  unfold classify_weak, below_half. rewrite in_map_iff. split.
  - intros ([t' [c n]] & <- & Hin). apply filter_In in Hin as [Hin Hcond]. simpl in *.
    apply In_row in Hin; [|apply NoDup_keys_topic_results].
    rewrite row_topic_results in Hin.
    destruct (Nat.ltb_spec 0 (count_total t' l)); [|done]. injection Hin as <- <-.
    apply andb_true_iff in Hcond as [Hcond Hhalf]. apply andb_true_iff in Hcond as [Hneeds _].
    apply negb_true_iff, mem_false_In in Hneeds. apply Nat.ltb_lt in Hhalf. done.
  - intros (Hneeds & Hpos & Hhalf).
    exists (t, (count_correct t l, count_total t l)). split; [done|].
    apply filter_In. split.
    + apply In_row; [apply NoDup_keys_topic_results|]. rewrite row_topic_results.
      by destruct (Nat.ltb_spec 0 (count_total t l)); [|lia].
    + simpl. apply mem_false_In in Hneeds. rewrite Hneeds. simpl.
      apply andb_true_iff. split; apply Nat.ltb_lt; lia.
Qed.

Lemma classify_passed_spec t needs l :
  In t (classify_passed needs (topic_results l))
  ↔ ¬ In t needs ∧ 0 < count_total t l ∧ count_total t l ≤ 2 * count_correct t l.
Proof.
  unfold classify_passed, below_half. rewrite in_map_iff. split.
  - intros ([t' [c n]] & <- & Hin). apply filter_In in Hin as [Hin Hcond]. simpl in *.
    apply In_row in Hin; [|apply NoDup_keys_topic_results].
    rewrite row_topic_results in Hin.
    destruct (Nat.ltb_spec 0 (count_total t' l)); [|done]. injection Hin as <- <-.
    apply andb_true_iff in Hcond as [Hcond Hhalf]. apply andb_true_iff in Hcond as [Hneeds _].
    apply negb_true_iff, mem_false_In in Hneeds.
    apply negb_true_iff, Nat.ltb_ge in Hhalf. done.
  - intros (Hneeds & Hpos & Hhalf).
    exists (t, (count_correct t l, count_total t l)). split; [done|].
    apply filter_In. split.
    + apply In_row; [apply NoDup_keys_topic_results|]. rewrite row_topic_results.
      by destruct (Nat.ltb_spec 0 (count_total t l)); [|lia].
    + simpl. apply mem_false_In in Hneeds. rewrite Hneeds. simpl.
      apply andb_true_iff. split; [apply Nat.ltb_lt; lia|].
      apply negb_true_iff, Nat.ltb_ge. lia.
Qed.

(** The result row of a completed test. *)
Lemma update_adaptive_test_results_complete w sd :
  db_session w = Some (Adaptive sd) →
  db_tests (update_adaptive_test_results act_complete w)
  = db_tests w ++ [adaptive_test_result sd]
  ∧ cached_session (update_adaptive_test_results act_complete w) = cached_session w.
Proof.
  intros Hdb. unfold update_adaptive_test_results, get_user_data, load_user_session.
  cbn [current_test_session]. rewrite Hdb. cbn [ActionType_eqb].
  by rewrite db_tests_save_user_data, cached_session_save_user_data.
Qed.

(** ** De-duplicated retrieval *)

Lemma draw_choice_spec d l w :
  l ≠ [] → ∃ g q, draw_choice d l w = (set_rng g w, q) ∧ In q l.
Proof.
  intros Hl. unfold draw_choice. pose proof (choice_In d l (rng w) Hl) as Hin.
  destruct (choice d l (rng w)) as [q g]. by exists g, q.
Qed.

Lemma cached_session_save_user_session x w :
  cached_session (save_user_session x w) = cached_session w.
Proof. done. Qed.

Lemma db_session_save_user_session x w : db_session (save_user_session x w) = x.
Proof. done. Qed.

Lemma db_tests_save_user_session x w : db_tests (save_user_session x w) = db_tests w.
Proof. done. Qed.

Section Retrieval.
Context `{Md5}.

Lemma mark_used_and_save_spec h w s :
  cached_session w = Some (Adaptive s) →
  let s' := set_used_question_hashes (used_question_hashes s ∪ {[ h ]}) s in
  cached_session (mark_used_and_save h w) = Some (Adaptive s')
  ∧ db_session (mark_used_and_save h w) = Some (Adaptive s')
  ∧ db_tests (mark_used_and_save h w) = db_tests w.
Proof.
  intros Hc s'. unfold mark_used_and_save.
  rewrite cached_session_save_user_session, db_session_save_user_session,
    db_tests_save_user_session, db_tests_modify_cached.
  by rewrite (cached_session_modify_cached _ _ _ Hc).
Qed.

(** What a de-duplicated retrieval leaves behind and what it returns.
    Only the identifier lists and the set of used hashes of the cached
    session change, and the set only grows.  When some question is filed
    under the requested topic and difficulty, the returned question is
    hashed as used in cache and store, and it is a fresh one whenever a
    candidate of that difficulty or of another difficulty of the topic was
    unused.  When none is filed, the unfiltered retrieval answers and
    nothing is stored. *)
Lemma get_unused_spec topic d bank w s :
  cached_session w = Some (Adaptive s) →
  let difficulty := default "Medium" d in
  let matching := alias_matches topic (standard_difficulty difficulty) bank in
  let asked := asked_for topic difficulty (init_asked topic difficulty (questions_asked s)) in
  let unused := unused_candidates (used_question_hashes s) asked matching in
  let others := other_difficulty_candidates (used_question_hashes s) topic difficulty bank in
  ∃ w' oq qa' used',
    get_unused_question_by_topic_and_difficulty topic d bank w = (w', oq)
    ∧ cached_session w'
      = Some (Adaptive (set_used_question_hashes used' (set_questions_asked qa' s)))
    ∧ used_question_hashes s ⊆ used'
    ∧ db_tests w' = db_tests w
    ∧ match matching with
      | [] => db_session w' = db_session w ∧ retrieved topic difficulty bank oq
      | _ :: _ =>
          db_session w' = cached_session w'
          ∧ ∃ q, oq = Some q
                 ∧ get_question_hash q ∈ used'
                 ∧ (unused ≠ [] ∨ others ≠ [] → get_question_hash q ∉ used_question_hashes s)
                 ∧ (unused ≠ [] → In q unused)
                 ∧ (unused = [] → others ≠ [] → In q others)
                 ∧ (unused = [] → others = [] → In q matching)
      end.
Proof.
  intros Hc difficulty matching asked unused others.
  unfold get_unused_question_by_topic_and_difficulty. fold difficulty. rewrite Hc.
  set (w1 := modify_cached _ w).
  assert (Hc1 : cached_session w1
                = Some (Adaptive (set_questions_asked
                                    (init_asked topic difficulty (questions_asked s)) s)))
    by (unfold w1; by rewrite (cached_session_modify_cached _ w s Hc)).
  assert (Hused : cached_used w1 = used_question_hashes s) by (unfold cached_used; by rewrite Hc1).
  assert (Hasked : cached_asked topic difficulty w1 = asked)
    by (unfold cached_asked; by rewrite Hc1).
  rewrite Hused, Hasked. fold matching. fold unused. fold others.
  assert (Hfresh : ∀ q, In q unused → get_question_hash q ∉ used_question_hashes s).
  { intros q Hq. apply filter_In in Hq as [_ Hq]. apply andb_true_iff in Hq as [Hq _].
    by apply negb_true_iff, bool_decide_eq_false in Hq. }
  assert (Hfresh' : ∀ q, In q others → get_question_hash q ∉ used_question_hashes s).
  { intros q Hq. apply filter_In in Hq as [_ Hq].
    by apply negb_true_iff, bool_decide_eq_false in Hq. }
  assert (Hum : matching = [] → unused = []) by (unfold unused; by intros ->).
  clearbody unused others matching.
  destruct unused as [|u0 unused'].
  - destruct matching as [|m0 matching'].
    + (* nothing filed under the topic and difficulty *)
      pose proof (random_question_spec topic difficulty bank w1) as [Hret [g Hg]].
      destruct (random_question topic difficulty bank w1) as [w' oq]. simpl in Hret, Hg.
      subst w'. exists (set_rng g w1), oq, (init_asked topic difficulty (questions_asked s)),
        (used_question_hashes s).
      split; [done|]. rewrite cached_session_set_rng, Hc1.
      split; [by destruct s|]. split; [done|].
      split; [by unfold w1; cbn [set_rng db_tests]; rewrite db_tests_modify_cached|].
      split; [|done]. unfold w1. cbn [set_rng db_session]. apply db_session_modify_cached.
    + destruct others as [|t0 others'].
      * (* every candidate is used: a question of the requested difficulty again *)
        destruct (draw_choice_spec m0 (m0 :: matching') w1) as (g & q & Hdraw & Hin); [done|].
        rewrite Hdraw.
        destruct (mark_used_and_save_spec (get_question_hash q) (set_rng g w1) _ Hc1)
          as (Hcm & Hdm & Htm).
        eexists _, (Some q), _, _. split; [reflexivity|]. rewrite Hcm, Hdm.
        split; [reflexivity|]. split; [apply union_subseteq_l|].
        split; [by rewrite Htm; unfold w1; cbn [set_rng db_tests]; rewrite db_tests_modify_cached|].
        split; [done|]. exists q. split; [done|]. split; [apply elem_of_union_r; by apply elem_of_singleton|].
        split; [intros [?|?]; done|]. done.
      * destruct (draw_choice_spec t0 (t0 :: others') w1) as (g & q & Hdraw & Hin); [done|].
        rewrite Hdraw.
        destruct (mark_used_and_save_spec (get_question_hash q) (set_rng g w1) _ Hc1)
          as (Hcm & Hdm & Htm).
        eexists _, (Some q), _, _. split; [reflexivity|]. rewrite Hcm, Hdm.
        split; [reflexivity|]. split; [apply union_subseteq_l|].
        split; [by rewrite Htm; unfold w1; cbn [set_rng db_tests]; rewrite db_tests_modify_cached|].
        split; [done|]. exists q. split; [done|]. split; [apply elem_of_union_r; by apply elem_of_singleton|].
        split; [intros _; by apply Hfresh'|]. done.
  - assert (Hm : matching ≠ []) by (intros Hm; by specialize (Hum Hm)).
    destruct (draw_choice_spec u0 (u0 :: unused') w1) as (g & q & Hdraw & Hin); [done|].
    rewrite Hdraw.
    set (w2 := modify_cached _ (set_rng g w1)).
    assert (Hc2 : cached_session w2
                  = Some (Adaptive (set_questions_asked
                            (set_asked topic difficulty (asked ++ [question_id q])
                               (init_asked topic difficulty (questions_asked s))) s))).
    { unfold w2. erewrite cached_session_modify_cached; [|by rewrite cached_session_set_rng].
      done. }
    destruct (mark_used_and_save_spec (get_question_hash q) w2 _ Hc2) as (Hcm & Hdm & Htm).
    eexists _, (Some q), _, _. split; [reflexivity|]. rewrite Hcm, Hdm.
    split; [reflexivity|]. split; [apply union_subseteq_l|].
    split.
    { rewrite Htm. unfold w2. rewrite db_tests_modify_cached. unfold w1.
      cbn [set_rng db_tests]. by rewrite db_tests_modify_cached. }
    destruct matching as [|m0 matching']; [done|].
    split; [done|]. exists q. split; [done|]. split; [apply elem_of_union_r; by apply elem_of_singleton|].
    split; [intros _; by apply Hfresh|]. done.
Qed.

End Retrieval.

(** ** Processing an adaptive answer, phase by phase *)

Section Phases.
Context `{Md5}.

(** The entry of [process_adaptive_answer]: the answer is logged in cache
    and store, the per-topic state is initialised in the cache, and the
    three phases follow. *)
Lemma process_adaptive_answer_entry answer bank w s cq :
  cached_session w = Some (Adaptive s) →
  current_question s = Some cq →
  let c := String.eqb (Py.upper answer) (Py.upper (q_correct_answer cq)) in
  let logged := set_answers (answers s ++ [{| a_topic := q_topic cq;
                                              a_difficulty := q_difficulty cq;
                                              a_correct := c |}]) s in
  let s1 := init_tracking (q_topic cq) logged in
  ∃ w1,
    cached_session w1 = Some (Adaptive s1)
    ∧ db_session w1 = Some (Adaptive logged)
    ∧ db_tests w1 = db_tests w
    ∧ process_adaptive_answer answer bank w
      = match first_question_sequence c cq bank s1 w1 with
        | inr (w, r) => (w, Ok r)
        | inl w =>
            with_session w (fun s =>
              match hard_failure_check c cq s w with
              | inr (w, r) => (w, Ok r)
              | inl w => continue_adaptive c cq bank w
              end)
        end.
Proof.
  intros Hc Hq c logged s1.
  destruct (cached_session_user_data _ _ Hc) as (data & Hd & Hs).
  destruct (record_adaptive_answer_spec c (q_topic cq) (q_difficulty cq) w s Hc)
    as (Hrc & Hrd & Hrt & _).
  exists (modify_cached (init_tracking (q_topic cq))
            (record_adaptive_answer c (q_topic cq) (q_difficulty cq) w)).
  rewrite (cached_session_modify_cached _ _ _ Hrc), db_session_modify_cached,
    db_tests_modify_cached.
  do 3 (split; [done|]).
  unfold process_adaptive_answer. rewrite Hd, Hs, Hq. fold c.
  unfold with_session at 1. by rewrite (cached_session_modify_cached _ _ _ Hrc).
Qed.

(** A Hard question never enters the first-question sequence. *)
Lemma first_question_sequence_hard c cq bank s w :
  q_difficulty cq = "Hard" → first_question_sequence c cq bank s w = inl w.
Proof.
  intros Hd. unfold first_question_sequence. rewrite Hd.
  by destruct (is_first_question _).
Qed.

(** The Hard check lets every other answer through untouched. *)
Lemma hard_failure_check_pass c cq s w :
  c = true ∨ String.eqb (q_difficulty cq) "Hard" = false →
  hard_failure_check c cq s w = inl w.
Proof.
  intros Hpass. unfold hard_failure_check.
  destruct Hpass as [->| ->]; [|done]. by rewrite andb_false_r.
Qed.


End Phases.

Section Completion.
Context `{Md5}.

Lemma truthy_Some t x : truthy t = Some x → t = Some x.
Proof.
  unfold truthy. destruct t as [s|]; [|done]. by destruct (String.eqb s EmptyString).
Qed.

(** The end of a topic inside [process_adaptive_answer] (a Hard question
    answered right, or an Easy one answered wrong outside the
    first-question sequence).  The answered question is counted, the head
    of the queue moves to the completed topics, and then either a question
    for the new head is installed or the test is completed and its result
    row computed from the stored session. *)
Lemma continue_adaptive_topic_complete c cq bank w s :
  cached_session w = Some (Adaptive s) →
  (∀ hf cf, determine_next_adaptive_action c (q_difficulty cq) (q_topic cq) hf cf
            = action act_topic_complete None (Some (q_topic cq))) →
  let popped := pop_topic (count_question cq s) in
  ∃ w' r,
    continue_adaptive c cq bank w = (w', Ok r)
    ∧ r_correct r = c
    ∧ ((∃ next_topic q qa' used',
          head (remaining_topics popped) = Some next_topic
          ∧ na_type (r_next_action r) = act_next_topic
          ∧ na_topic (r_next_action r) = Some next_topic
          ∧ r_next_question r = Some q
          ∧ r_show_completion r = None
          ∧ db_tests w' = db_tests w
          ∧ cached_session w' = db_session w'
          ∧ ∃ sd, db_session w' = Some (Adaptive
                     (set_used_question_hashes
                        (used_question_hashes sd ∪ {[ get_question_hash q ]})
                        (set_current_question (Some q) sd)))
                  ∧ (sd = popped
                     ∨ sd = set_used_question_hashes used' (set_questions_asked qa' popped)))
       ∨ (na_type (r_next_action r) = act_topic_complete
          ∧ r_next_question r = None
          ∧ r_show_completion r = Some true
          ∧ db_tests w' = db_tests w ++ [adaptive_test_result popped]
          ∧ ∃ qa' used',
              cached_session w'
              = Some (Adaptive (set_used_question_hashes used'
                                  (set_questions_asked qa' popped))))).
Proof.
  intros Hc Hact popped. unfold continue_adaptive.
  pose proof (cached_session_modify_cached (count_question cq) w s Hc) as Hc1.
  set (w1 := modify_cached (count_question cq) w) in *.
  unfold with_session. rewrite Hc1. rewrite Hact.
  cbn [action na_type na_difficulty na_topic strip_flags ActionType_eqb andb
       is_completion_type orb].
  set (w2 := modify_cached _ w1).
  assert (Hc2 : cached_session w2 = Some (Adaptive (count_question cq s))).
  { unfold w2. rewrite (cached_session_modify_cached _ w1 _ Hc1). by destruct s. }
  destruct (move_to_next_adaptive_topic_spec w2 _ Hc2) as (w3 & Hmove & Hc3 & Hd3 & Ht3 & _).
  rewrite Hmove. fold popped in Hc3, Hd3 |- *.
  assert (Ht : db_tests w3 = db_tests w).
  { rewrite Ht3. unfold w2, w1. by rewrite !db_tests_modify_cached. }
  destruct (truthy (head (remaining_topics popped))) as [next_topic|] eqn:Enext.
  - apply truthy_Some in Enext.
    destruct (get_unused_spec next_topic (Some "Medium") bank w3 popped Hc3)
      as (w4 & oq & qa' & used' & Hget & Hc4 & _ & Ht4 & Hsel).
    rewrite Hget. destruct oq as [q|].
    + (* a question for the next topic *)
      assert (∃ sd, db_session w4 = Some (Adaptive sd)
                    ∧ (sd = popped
                       ∨ sd = set_used_question_hashes used' (set_questions_asked qa' popped)))
        as (sd & Hd4 & Hsd).
      { destruct (alias_matches _ _ _).
        - destruct Hsel as [-> _]. rewrite Hd3. eauto.
        - destruct Hsel as [-> _]. rewrite Hc4. eauto. }
      destruct (set_current_adaptive_question_spec q w4 sd _ Hd4 Hc4) as (Hc5 & Hd5 & Ht5).
      eexists _, _. split; [reflexivity|]. split; [done|]. left.
      exists next_topic, q, qa', used'. cbn [reply r_next_action action na_type na_topic
                                   r_next_question r_show_completion].
      do 5 (split; [done|]). split; [by rewrite Ht5, Ht4|].
      split; [by rewrite Hc5, Hd5|]. exists sd. by rewrite Hd5.
    + (* no question for the next topic: the test ends *)
      assert (Hd4 : db_session w4 = Some (Adaptive popped)).
      { destruct (alias_matches _ _ _).
        - destruct Hsel as [-> _]. done.
        - destruct Hsel as (_ & q0 & [=] & _). }
      destruct (update_adaptive_test_results_complete w4 popped Hd4) as [Htests Hcache].
      unfold finish_adaptive. eexists _, _. split; [reflexivity|]. split; [done|]. right.
      cbn [reply r_next_action action na_type r_next_question r_show_completion].
      do 3 (split; [done|]). split; [by rewrite Htests, Ht4, Ht|].
      exists qa', used'. by rewrite Hcache.
  - (* the queue is empty: the test ends *)
    destruct (update_adaptive_test_results_complete w3 popped Hd3) as [Htests Hcache].
    unfold finish_adaptive. eexists _, _. split; [reflexivity|]. split; [done|]. right.
    cbn [reply r_next_action action na_type r_next_question r_show_completion].
    do 3 (split; [done|]). split; [by rewrite Htests, Ht|].
    exists (questions_asked popped), (used_question_hashes popped).
    rewrite Hcache, Hc3. by destruct popped.
Qed.

(** Whether the de-duplicated retrieval finds a question is decided by the
    candidates of the unfiltered one; what it finds is one of those or a
    question of the topic at another difficulty whose hash is not used. *)
Lemma get_unused_found topic d bank w s :
  cached_session w = Some (Adaptive s) →
  let difficulty := default "Medium" d in
  ∃ w' oq qa' used',
    get_unused_question_by_topic_and_difficulty topic d bank w = (w', oq)
    ∧ cached_session w'
      = Some (Adaptive (set_used_question_hashes used' (set_questions_asked qa' s)))
    ∧ db_tests w' = db_tests w
    ∧ (db_session w' = db_session w ∨ db_session w' = cached_session w')
    ∧ match oq with
      | Some q =>
          random_candidates topic difficulty bank ≠ []
          ∧ (In q (random_candidates topic difficulty bank)
             ∨ In q (other_difficulty_candidates (used_question_hashes s) topic difficulty bank))
      | None => random_candidates topic difficulty bank = [] ∧ db_session w' = db_session w
      end.
Proof.
  intros Hc difficulty.
  destruct (get_unused_spec topic d bank w s Hc)
    as (w' & oq & qa' & used' & Hget & Hc' & _ & Ht & Hsel).
  fold difficulty in Hsel.
  exists w', oq, qa', used'. split; [exact Hget|]. split; [exact Hc'|]. split; [exact Ht|].
  unfold random_candidates.
  destruct (alias_matches topic (standard_difficulty difficulty) bank) as [|m0 ms] eqn:Em.
  - destruct Hsel as [Hdb Hret]. split; [by left|].
    unfold retrieved, random_candidates in Hret. rewrite Em in Hret.
    destruct oq as [q|].
    + split; [|by left]. intros Hnil. rewrite Hnil in Hret. destruct Hret.
    + by split.
  - destruct Hsel as (Hdb & q & -> & _ & _ & Hunused & Hothers & Hlast).
    split; [by right|]. split; [done|].
    destruct (unused_candidates _ _ _) as [|u0 us] eqn:Eu.
    + destruct (other_difficulty_candidates _ _ _ _) as [|o0 os] eqn:Eo.
      * left. by apply Hlast.
      * right. by apply Hothers.
    + left. assert (Hin : In q (u0 :: us)) by (by apply Hunused).
      rewrite <- Eu in Hin. unfold unused_candidates in Hin.
      by apply filter_In in Hin as [Hin _].
Qed.

Lemma completed_topics_pop_topic s :
  completed_topics (pop_topic s)
  = completed_topics s ++ option_list (head (remaining_topics s)).
Proof. unfold pop_topic. destruct (remaining_topics s); simpl; by rewrite ?app_nil_r. Qed.

Lemma used_question_hashes_pop_topic s :
  used_question_hashes (pop_topic s) = used_question_hashes s.
Proof. unfold pop_topic. by destruct (remaining_topics s). Qed.

(** Which way the end of a topic goes: a question for the new head of the
    queue when the bank has a candidate for it, the end of the test
    otherwise. *)
Lemma continue_adaptive_topic_complete_next c cq bank w s :
  cached_session w = Some (Adaptive s) →
  (∀ hf cf, determine_next_adaptive_action c (q_difficulty cq) (q_topic cq) hf cf
            = action act_topic_complete None (Some (q_topic cq))) →
  let popped := pop_topic (count_question cq s) in
  let next := truthy (head (remaining_topics popped)) in
  ∃ w' r,
    continue_adaptive c cq bank w = (w', Ok r)
    ∧ match next, r_next_question r with
      | Some next_topic, Some q =>
          random_candidates next_topic "Medium" bank ≠ []
          ∧ (In q (random_candidates next_topic "Medium" bank)
             ∨ In q (other_difficulty_candidates (used_question_hashes s) next_topic
                       "Medium" bank))
      | Some next_topic, None => random_candidates next_topic "Medium" bank = []
      | None, Some _ => False
      | None, None => True
      end.
Proof.
  intros Hc Hact popped next. unfold continue_adaptive.
  pose proof (cached_session_modify_cached (count_question cq) w s Hc) as Hc1.
  set (w1 := modify_cached (count_question cq) w) in *.
  unfold with_session. rewrite Hc1. rewrite Hact.
  cbn [action na_type na_difficulty na_topic strip_flags ActionType_eqb andb
       is_completion_type orb].
  set (w2 := modify_cached _ w1).
  assert (Hc2 : cached_session w2 = Some (Adaptive (count_question cq s))).
  { unfold w2. rewrite (cached_session_modify_cached _ w1 _ Hc1). by destruct s. }
  destruct (move_to_next_adaptive_topic_spec w2 _ Hc2) as (w3 & Hmove & Hc3 & _).
  rewrite Hmove. fold popped in Hc3 |- *. fold next.
  destruct next as [next_topic|] eqn:Enext.
  - destruct (get_unused_found next_topic (Some "Medium") bank w3 popped Hc3)
      as (w4 & oq & qa' & used' & Hget & _ & _ & _ & Hsel).
    rewrite Hget. change (default "Medium" (Some "Medium")) with "Medium" in Hsel.
    destruct oq as [q|].
    + eexists _, _. split; [reflexivity|]. cbn [reply r_next_question].
      unfold popped in Hsel. rewrite used_question_hashes_pop_topic in Hsel.
      exact Hsel.
    + unfold finish_adaptive. eexists _, _. split; [reflexivity|].
      cbn [reply r_next_question]. by destruct Hsel.
  - unfold finish_adaptive. eexists _, _. split; [reflexivity|]. done.
Qed.

End Completion.


Lemma pop_topic_fields s :
  remaining_topics (pop_topic s) = tail (remaining_topics s)
  ∧ answers (pop_topic s) = answers s
  ∧ needs_more_training (pop_topic s) = needs_more_training s.
Proof. unfold pop_topic. by destruct (remaining_topics s) eqn:E; simpl; rewrite ?E. Qed.

(** ** A needs-training mark stays

    Once the cached and the stored session list a topic in
    [needs_more_training], every operation of the engine and of the
    handler keeps it there, and every row written to the history files the
    topic accordingly. *)

Section Persistence.
Context `{Md5}.
Variable t : string.
Variable rows0 : list TestResult.











End Persistence.

Section PersistenceOfEngine.
Context `{Md5}.
Variable t : string.
Variable rows0 : list TestResult.






Lemma kept_cached w :
  needs_training_kept t rows0 w → ∃ s, cached_session w = Some (Adaptive s).
Proof. intros [_ (s & _ & Hc & _)]. eauto. Qed.

End PersistenceOfEngine.



Section PersistenceOfAnswers.
Context `{Md5}.
Variable t : string.
Variable rows0 : list TestResult.




End PersistenceOfAnswers.

Section PersistenceOfRuns.
Context `{Md5}.
Variable t : string.
Variable rows0 : list TestResult.


(** Without a cached session the engine refuses the answer and changes
    nothing. *)
Lemma process_adaptive_answer_closed answer bank w :
  cached_session w = None →
  ∃ msg, process_adaptive_answer answer bank w = (w, Err msg).
Proof.
  unfold cached_session, process_adaptive_answer. intros Hnone.
  destruct (user_data w) as [data|]; [|eauto]. rewrite Hnone. eauto.
Qed.




End PersistenceOfRuns.

Section Claims.
Context `{Md5}.

(** C1, as the code has it.  A Hard question answered right ends the topic
    at once: [process_adaptive_answer] logs the answer under the name the
    question is filed under, moves the head of the topic queue to the
    completed topics and leaves the needs-training marks as they are.
    What follows is decided by the new head of the queue.  If there is one
    and the bank has a candidate for it at Medium, the reply is
    [next_topic] with a question retrieved for that topic, which becomes
    the current question, and the history is untouched.  If the queue is
    empty, or the bank has no candidate for the new head, the reply is
    [topic_complete] with [show_completion] set and without a question,
    and the result row is added to the history, even though topics may
    remain in the queue.  No outcome is recorded for the topic by the
    answer: the row classifies the name by the ratio rule over all its
    logged answers, the Hard one included.  It is listed as passed exactly
    when it is not marked needs-training and at least half of its answers
    are right, as weak exactly when it is not marked and fewer than half
    are right, and under needs-training exactly when it was marked. *)
Theorem hard_correct_completes_topic
    (answer : string) (bank : list Question) (w : World) (s : AdaptiveSession)
    (cq : Question) :
  cached_session w = Some (Adaptive s) →
  current_question s = Some cq →
  q_difficulty cq = "Hard" →
  String.eqb (Py.upper answer) (Py.upper (q_correct_answer cq)) = true →
  let t := q_topic cq in
  let logged := answers s ++ [{| a_topic := t; a_difficulty := "Hard"; a_correct := true |}] in
  let next := truthy (head (tail (remaining_topics s))) in
  let candidates :=
    match next with
    | Some next_topic => random_candidates next_topic "Medium" bank
    | None => []
    end in
  ∃ w' r s',
    process_adaptive_answer answer bank w = (w', Ok r)
    ∧ r_correct r = true
    ∧ cached_session w' = Some (Adaptive s')
    ∧ remaining_topics s' = tail (remaining_topics s)
    ∧ completed_topics s' = completed_topics s ++ option_list (head (remaining_topics s))
    ∧ answers s' = logged
    ∧ needs_more_training s' = needs_more_training s
    ∧ (candidates ≠ [] →
       ∃ next_topic q,
         next = Some next_topic
         ∧ na_type (r_next_action r) = act_next_topic
         ∧ na_topic (r_next_action r) = Some next_topic
         ∧ r_next_question r = Some q
         ∧ r_show_completion r = None
         ∧ (In q (random_candidates next_topic "Medium" bank)
            ∨ In q (other_difficulty_candidates (used_question_hashes s) next_topic
                      "Medium" bank))
         ∧ current_question s' = Some q
         ∧ db_session w' = Some (Adaptive s')
         ∧ db_tests w' = db_tests w)
    ∧ (candidates = [] →
       na_type (r_next_action r) = act_topic_complete
       ∧ r_next_question r = None
       ∧ r_show_completion r = Some true
       ∧ ∃ tr,
           db_tests w' = db_tests w ++ [tr]
           ∧ (In t (tr_passed_topics tr)
              ↔ ¬ In t (needs_more_training s)
                ∧ count_total t logged ≤ 2 * count_correct t logged)
           ∧ (In t (tr_weak_topics tr)
              ↔ ¬ In t (needs_more_training s)
                ∧ 2 * count_correct t logged < count_total t logged)
           ∧ (In t (tr_needs_more_training tr) ↔ In t (needs_more_training s))).
Proof.
  intros Hc Hq Hd Hright t logged next candidates.
  destruct (process_adaptive_answer_entry answer bank w s cq Hc Hq)
    as (w1 & Hc1 & Hd1 & Ht1 & Hrun).
  rewrite Hright, Hd in Hc1, Hrun. fold t in Hc1, Hrun. fold logged in Hc1, Hrun.
  rewrite first_question_sequence_hard in Hrun by done.
  unfold with_session in Hrun. rewrite Hc1 in Hrun.
  rewrite hard_failure_check_pass in Hrun by (by left).
  set (s1 := init_tracking t (set_answers logged s)) in *.
  assert (Hact : ∀ hf cf, determine_next_adaptive_action true (q_difficulty cq) (q_topic cq) hf cf
                          = action act_topic_complete None (Some (q_topic cq))).
  { intros hf cf. rewrite Hd. reflexivity. }
  destruct (continue_adaptive_topic_complete true cq bank w1 s1 Hc1 Hact)
    as (w' & r & Hcont & Hcorrect & Hcases).
  destruct (continue_adaptive_topic_complete_next true cq bank w1 s1 Hc1 Hact)
    as (w'' & r' & Hcont' & Hnext).
  rewrite Hcont in Hcont'. injection Hcont' as <- <-.
  rewrite Hcont in Hrun.
  destruct (pop_topic_fields (count_question cq s1)) as (Hrem & Hans & Hneeds).
  pose proof (completed_topics_pop_topic (count_question cq s1)) as Hdone.
  change (remaining_topics (count_question cq s1)) with (remaining_topics s) in Hrem, Hdone.
  change (completed_topics (count_question cq s1)) with (completed_topics s) in Hdone.
  change (answers (count_question cq s1)) with logged in Hans.
  change (needs_more_training (count_question cq s1)) with (needs_more_training s) in Hneeds.
  change (used_question_hashes s1) with (used_question_hashes s) in Hnext.
  rewrite Hrem in Hnext. fold next in Hnext.
  set (popped := pop_topic (count_question cq s1)) in *.
  destruct Hcases as [(next_topic & q & qa' & used' & Hhead & Hty & Htop & Hnq & Hshow & Htests
                       & Hsync & sd & Hdb & Hsd)
                     |(Hty & Hnq & Hshow & Htests & qa' & used' & Hcache)].
  - rewrite Hnq in Hnext.
    assert (Hfields : remaining_topics sd = tail (remaining_topics s)
                      ∧ completed_topics sd
                        = completed_topics s ++ option_list (head (remaining_topics s))
                      ∧ answers sd = logged
                      ∧ needs_more_training sd = needs_more_training s).
    { destruct Hsd as [->| ->]; by rewrite <- Hrem, <- Hans, <- Hneeds, <- Hdone. }
    destruct Hfields as (Hr & Hdn & Ha & Hn).
    eexists w', r, _. split; [exact Hrun|]. split; [done|].
    rewrite Hsync, Hdb. split; [reflexivity|].
    split; [exact Hr|]. split; [exact Hdn|]. split; [exact Ha|]. split; [exact Hn|].
    subst candidates. destruct next as [nt|] eqn:Enext; [|done].
    destruct Hnext as [Hsome Hin]. split; [|done]. intros _.
    apply truthy_Some in Enext. rewrite Hrem in Hhead. rewrite Hhead in Enext.
    injection Enext as <-.
    exists next_topic, q. split; [done|]. do 4 (split; [done|]).
    split; [exact Hin|]. split; [done|]. split; [done|]. by rewrite Htests, Ht1.
  - rewrite Hnq in Hnext.
    eexists w', r, _. split; [exact Hrun|]. split; [done|].
    rewrite Hcache. split; [reflexivity|].
    split; [exact Hrem|]. split; [exact Hdone|]. split; [exact Hans|]. split; [exact Hneeds|].
    split.
    { subst candidates. by destruct next. }
    intros _. do 3 (split; [done|]). exists (adaptive_test_result popped).
    split; [by rewrite Htests, Ht1|].
    unfold adaptive_test_result. cbn [tr_passed_topics tr_weak_topics tr_needs_more_training].
    rewrite classify_passed_spec, classify_weak_spec, Hans, Hneeds.
    assert (Hpos : 0 < count_total t logged).
    { unfold logged. rewrite count_total_app. cbn [a_topic]. rewrite String.eqb_refl. lia. }
    repeat split; tauto || lia.
Qed.

End Claims.

(** ** Concrete runs *)

(** C1 as stated fails.  One question of each difficulty on the topic: the
    first Medium and the Easy question are missed, the Easy retry finds no
    unused Easy question and serves the Hard one, which is answered right.
    The topic ends, with one answer right out of three, as weak. *)
Lemma hard_correct_classified_weak :
  map q_difficulty (served (shown_in ["Queues"] ["B"; "B"; "A"] one_of_each []))
  = ["Medium"; "Easy"; "Hard"]
  ∧ (∃ w' r,
       process_adaptive_answer (H := short_digest) "A" one_of_each
         (state_after ["Queues"] ["B"; "B"] one_of_each []) = (w', Ok r)
       ∧ q_topic (r_question r) = "Queues"
       ∧ q_difficulty (r_question r) = "Hard"
       ∧ r_correct r = true)
  ∧ last (shown_in ["Queues"] ["B"; "B"; "A"] one_of_each []) = Some shown_completion
  ∧ ∃ tr, last (db_tests (state_after ["Queues"] ["B"; "B"; "A"] one_of_each [])) = Some tr
          ∧ In "Queues" (tr_weak_topics tr)
          ∧ ¬ In "Queues" (tr_passed_topics tr).
Proof.
  split; [by vm_compute|]. split.
  { eexists _, _. split; [vm_compute; reflexivity|]. by vm_compute. }
  split; [by vm_compute|]. eexists. split; [vm_compute; reflexivity|].
  split; [by left|]. intros [].
Qed.

Lemma hard_correct_completes_topic_witness :
  (∃ w' r s' q,
     process_adaptive_answer (H := short_digest) "A" two_topics
       (state_after ["Stacks"; "Queues"] ["A"] two_topics []) = (w', Ok r)
     ∧ cached_session w' = Some (Adaptive s')
     ∧ remaining_topics s' = ["Queues"]
     ∧ completed_topics s' = ["Stacks"]
     ∧ na_type (r_next_action r) = act_next_topic
     ∧ r_next_question r = Some q
     ∧ current_question s' = Some q
     ∧ db_tests w' = [])
  ∧ (∃ w' r s' tr,
       process_adaptive_answer (H := short_digest) "A" stacks_bank
         (state_after ["Stacks"; "Graphs"] ["A"] stacks_bank []) = (w', Ok r)
       ∧ cached_session w' = Some (Adaptive s')
       ∧ remaining_topics s' = ["Graphs"]
       ∧ na_type (r_next_action r) = act_topic_complete
       ∧ r_next_question r = None
       ∧ r_show_completion r = Some true
       ∧ db_tests w' = [tr]
       ∧ In "Stacks" (tr_passed_topics tr))
  ∧ (∃ w' r s' tr,
       process_adaptive_answer (H := short_digest) "A" stacks_bank
         (state_after ["Stacks"] ["A"] stacks_bank []) = (w', Ok r)
       ∧ cached_session w' = Some (Adaptive s')
       ∧ remaining_topics s' = []
       ∧ na_type (r_next_action r) = act_topic_complete
       ∧ r_next_question r = None
       ∧ db_tests w' = [tr]
       ∧ In "Stacks" (tr_passed_topics tr)).
Proof.
  split; [|split].
  - assert (∃ s, cached_session (state_after ["Stacks"; "Queues"] ["A"] two_topics [])
                 = Some (Adaptive s)
                 ∧ db_tests (state_after ["Stacks"; "Queues"] ["A"] two_topics []) = []
                 ∧ current_question s = Some (mcq "Stacks" "Hard" "h1")
                 ∧ remaining_topics s = ["Stacks"; "Queues"]
                 ∧ completed_topics s = [])
      as (s & Hc & Ht & Hq & Hrem & Hdone).
    { vm_compute. eexists. repeat split; reflexivity. }
    revert Hc Ht. generalize (state_after ["Stacks"; "Queues"] ["A"] two_topics []).
    intros w Hc Ht.
    destruct (hard_correct_completes_topic (H := short_digest) "A" two_topics
                w s (mcq "Stacks" "Hard" "h1") Hc Hq eq_refl eq_refl)
      as (w' & r & s' & Hrun & _ & Hcache & Hrem' & Hdone' & _ & _ & Hnext & _).
    rewrite Hrem in Hrem', Hdone', Hnext. rewrite Hdone in Hdone'.
    destruct Hnext as (next_topic & q & _ & Hty & _ & Hnq & _ & _ & Hcur & _ & Htests).
    { vm_compute. discriminate. }
    exists w', r, s', q. split; [exact Hrun|]. split; [exact Hcache|].
    split; [exact Hrem'|]. split; [exact Hdone'|]. split; [exact Hty|].
    split; [exact Hnq|]. split; [exact Hcur|]. by rewrite Htests.
  - assert (∃ s, cached_session (state_after ["Stacks"; "Graphs"] ["A"] stacks_bank [])
                 = Some (Adaptive s)
                 ∧ db_tests (state_after ["Stacks"; "Graphs"] ["A"] stacks_bank []) = []
                 ∧ current_question s = Some (mcq "Stacks" "Hard" "h1")
                 ∧ remaining_topics s = ["Stacks"; "Graphs"]
                 ∧ needs_more_training s = []
                 ∧ answers s = [{| a_topic := "Stacks"; a_difficulty := "Medium";
                                   a_correct := true |}])
      as (s & Hc & Ht & Hq & Hrem & Hneeds & Hans).
    { vm_compute. eexists. repeat split; reflexivity. }
    revert Hc Ht. generalize (state_after ["Stacks"; "Graphs"] ["A"] stacks_bank []).
    intros w Hc Ht.
    destruct (hard_correct_completes_topic (H := short_digest) "A" stacks_bank
                w s (mcq "Stacks" "Hard" "h1") Hc Hq eq_refl eq_refl)
      as (w' & r & s' & Hrun & _ & Hcache & Hrem' & _ & _ & _ & _ & Hend).
    rewrite Hrem in Hrem', Hend. rewrite Hneeds, Hans in Hend.
    destruct Hend as (Hty & Hnq & Hshow & tr & Htests & Hpassed & _).
    { vm_compute. reflexivity. }
    exists w', r, s', tr. split; [exact Hrun|]. split; [exact Hcache|].
    split; [exact Hrem'|]. split; [exact Hty|]. split; [exact Hnq|]. split; [exact Hshow|].
    split; [by rewrite Htests, Ht|]. apply Hpassed. split; [by intros []|].
    vm_compute. lia.
  - assert (∃ s, cached_session (state_after ["Stacks"] ["A"] stacks_bank [])
                 = Some (Adaptive s)
                 ∧ db_tests (state_after ["Stacks"] ["A"] stacks_bank []) = []
                 ∧ current_question s = Some (mcq "Stacks" "Hard" "h1")
                 ∧ remaining_topics s = ["Stacks"]
                 ∧ needs_more_training s = []
                 ∧ answers s = [{| a_topic := "Stacks"; a_difficulty := "Medium";
                                   a_correct := true |}])
      as (s & Hc & Ht & Hq & Hrem & Hneeds & Hans).
    { vm_compute. eexists. repeat split; reflexivity. }
    revert Hc Ht. generalize (state_after ["Stacks"] ["A"] stacks_bank []).
    intros w Hc Ht.
    destruct (hard_correct_completes_topic (H := short_digest) "A" stacks_bank
                w s (mcq "Stacks" "Hard" "h1") Hc Hq eq_refl eq_refl)
      as (w' & r & s' & Hrun & _ & Hcache & Hrem' & _ & _ & _ & _ & Hend).
    rewrite Hrem in Hrem', Hend. rewrite Hneeds, Hans in Hend.
    destruct Hend as (Hty & Hnq & _ & tr & Htests & Hpassed & _).
    { reflexivity. }
    exists w', r, s', tr. split; [exact Hrun|]. split; [exact Hcache|].
    split; [exact Hrem'|]. split; [exact Hty|]. split; [exact Hnq|].
    split; [by rewrite Htests, Ht|]. apply Hpassed. split; [by intros []|].
    vm_compute. lia.
Defined.

(** C3 at the failing input.  The first Medium and the first Easy question
    are missed, the Easy retry and the second Medium are answered right,
    the Hard question is missed, the third Medium is answered right: the
    learner is put a seventh question on the topic, while the counter of
    the topic stands at 5, because the answer that triggers the Easy retry
    returns before the counter is updated. *)
Lemma seven_questions_on_one_topic :
  map q_difficulty
    (served_on "Stacks" (shown_in ["Stacks"] ["B"; "B"; "A"; "A"; "B"; "A"] stacks_bank []))
  = ["Medium"; "Easy"; "Easy"; "Medium"; "Hard"; "Medium"; "Hard"]
  ∧ length (logged_answers (state_after ["Stacks"] ["B"; "B"; "A"; "A"; "B"; "A"] stacks_bank []))
    = 6
  ∧ counted_questions "Stacks" (state_after ["Stacks"] ["B"; "B"; "A"; "A"; "B"; "A"] stacks_bank [])
    = Some 5.
Proof. by vm_compute. Qed.

(** Without any Hard retry the same slip lets a sixth question through. *)
Example six_questions_without_hard_retry :
  map q_difficulty
    (served_on "Stacks" (shown_in ["Stacks"] ["B"; "B"; "A"; "B"; "A"] stacks_bank []))
  = ["Medium"; "Easy"; "Easy"; "Medium"; "Easy"; "Medium"].
Proof. by vm_compute. Qed.

Section NextTopic.
Context `{Md5}.

Lemma complete_test_spec w s sd :
  cached_session w = Some (Adaptive s) →
  db_session w = Some (Adaptive sd) →
  (complete_test w).2 = shown_completion
  ∧ db_tests (complete_test w).1 = db_tests w ++ [adaptive_test_result sd]
  ∧ cached_session (complete_test w).1 = None.
Proof.
  intros Hc Hd. unfold complete_test. cbn [fst snd]. split; [done|].
  destruct (update_adaptive_test_results_complete w sd Hd) as [Htests Hcache].
  rewrite Hc in Hcache. set (w1 := update_adaptive_test_results act_complete w) in *.
  destruct (cached_session_user_data _ _ Hcache) as (data & Hdata & _).
  unfold show_adaptive_test_completion. rewrite Hdata.
  rewrite db_tests_save_user_data, cached_session_save_user_data.
  unfold clear_user_session, cached_session at 1. cbn [set_db_session db_tests user_data].
  rewrite db_tests_set_cached_session, Htests. split; [done|].
  apply (cached_session_set_cached_session None w1 _ Hcache).
Qed.

(** The handler's step to the next topic after a mark-weak or
    topic-complete reply: the head of the queue is removed; the learner is
    shown a candidate of the unfiltered retrieval for the new head at
    Medium, or, when the queue is empty or the bank has nothing for the new
    head, the completion, whose row is computed from the session with the
    queue so shortened. *)
Lemma open_next_topic_unfiltered bank w s :
  cached_session w = Some (Adaptive s) →
  ∃ w' shown,
    open_next_topic false bank w = (w', shown)
    ∧ match shown with
      | shown_question q =>
          ∃ next_topic, head (tail (remaining_topics s)) = Some next_topic
                        ∧ In q (random_candidates next_topic "Medium" bank)
                        ∧ db_tests w' = db_tests w
      | shown_completion =>
          db_tests w' = db_tests w ++ [adaptive_test_result (pop_topic s)]
          ∧ cached_session w' = None
      | shown_error _ => False
      end.
Proof.
  intros Hc. unfold open_next_topic.
  destruct (move_to_next_adaptive_topic_spec w s Hc) as (w1 & -> & Hc1 & Hd1 & Ht1 & _).
  destruct (pop_topic_fields s) as (Hrem & _ & _). rewrite Hrem.
  destruct (truthy (head (tail (remaining_topics s)))) as [next_topic|] eqn:Enext.
  - apply truthy_Some in Enext.
    destruct (random_question_spec next_topic "Medium" bank w1) as [Hret [g Hg]].
    destruct (random_question next_topic "Medium" bank w1) as [w2 [q|]]; simpl in *; subst w2.
    + eexists _, _. split; [reflexivity|]. exists next_topic. split; [done|]. split; [done|].
      destruct (set_current_adaptive_question_spec q (set_rng g w1) (pop_topic s)
                  (Adaptive (pop_topic s))) as (_ & _ & ->); [done|done|]. done.
    + destruct (complete_test_spec (set_rng g w1) (pop_topic s) (pop_topic s))
        as (Hshown & Htests & Hclosed); [done|done|].
      exists (complete_test (set_rng g w1)).1, shown_completion.
      split; [by rewrite <- Hshown; destruct (complete_test _)|].
      rewrite Htests. cbn [set_rng db_tests]. by rewrite Ht1.
  - destruct (complete_test_spec w1 (pop_topic s) (pop_topic s))
      as (Hshown & Htests & Hclosed); [done|done|].
    exists (complete_test w1).1, shown_completion.
    split; [by rewrite <- Hshown; destruct (complete_test _)|].
    by rewrite Htests, Ht1.
Qed.

End NextTopic.

Section EasyRetry.
Context `{Md5}.


Lemma init_key_present {V} k (v x : V) m : m !! k = Some x → init_key k v m = m.
Proof. unfold init_key. by intros ->. Qed.

(** A topic none of whose logged answers is right, and which is not marked
    needs-training, is filed as weak. *)
Lemma all_wrong_is_weak t sd :
  0 < count_total t (answers sd) →
  count_correct t (answers sd) = 0 →
  ¬ In t (needs_more_training sd) →
  In t (tr_weak_topics (adaptive_test_result sd)).
Proof.
  intros Hpos Hzero Hneeds. unfold adaptive_test_result. cbn [tr_weak_topics].
  apply classify_weak_spec. rewrite Hzero. repeat split; [done|lia|lia].
Qed.

End EasyRetry.

Section Deduplication.
Context `{Md5}.

(** What the de-duplicated retrieval does record.  It records the hash of
    the question it returns, in the cached and in the stored session and
    before it returns, when the bank files some question under the
    requested topic (or an alias of it) and difficulty; the question is
    then one whose hash was not recorded whenever an unused candidate of
    that difficulty, or a question of the topic at another difficulty with
    an unrecorded hash, exists.  When the bank files none, the retrieval
    hands back a candidate of the unfiltered retrieval and leaves the set
    of hashes and the stored session as they were.  In either case the
    hash is in the set, in cache and store, once the caller has made the
    question the current one. *)
Theorem retrieval_records_hash
    (topic : string) (d : option string) (bank : list Question) (w : World)
    (s sd : AdaptiveSession) :
  cached_session w = Some (Adaptive s) →
  db_session w = Some (Adaptive sd) →
  let difficulty := default "Medium" d in
  let matching := alias_matches topic (standard_difficulty difficulty) bank in
  let asked := asked_for topic difficulty (init_asked topic difficulty (questions_asked s)) in
  let unused := unused_candidates (used_question_hashes s) asked matching in
  let others := other_difficulty_candidates (used_question_hashes s) topic difficulty bank in
  ∃ w' oq s',
    get_unused_question_by_topic_and_difficulty topic d bank w = (w', oq)
    ∧ cached_session w' = Some (Adaptive s')
    ∧ used_question_hashes s ⊆ used_question_hashes s'
    ∧ (matching = [] →
         used_question_hashes s' = used_question_hashes s
         ∧ db_session w' = db_session w
         ∧ retrieved topic difficulty bank oq)
    ∧ (matching ≠ [] →
         db_session w' = Some (Adaptive s')
         ∧ ∃ q, oq = Some q
                ∧ get_question_hash q ∈ used_question_hashes s'
                ∧ (unused ≠ [] ∨ others ≠ [] → get_question_hash q ∉ used_question_hashes s)
                ∧ (unused = [] → others = [] → In q matching))
    ∧ ∀ q, oq = Some q →
        ∃ s2, cached_session (set_current_adaptive_question q w') = Some (Adaptive s2)
              ∧ db_session (set_current_adaptive_question q w') = Some (Adaptive s2)
              ∧ current_question s2 = Some q
              ∧ get_question_hash q ∈ used_question_hashes s2.
Proof.
  intros Hc Hdb difficulty matching asked unused others.
  destruct (get_unused_spec topic d bank w s Hc)
    as (w' & oq & qa' & used' & Hget & Hc' & Hsub & _ & Hsel).
  fold difficulty matching asked unused others in Hsel.
  exists w', oq, (set_used_question_hashes used' (set_questions_asked qa' s)).
  split; [exact Hget|]. split; [exact Hc'|]. split; [exact Hsub|].
  assert (Hstored : ∃ sd', db_session w' = Some (Adaptive sd')).
  { destruct matching; destruct Hsel as [-> _]; [by exists sd|rewrite Hc'; eauto]. }
  destruct Hstored as (sd' & Hdb').
  split; [|split].
  - intros Hnone. rewrite Hnone in Hsel. destruct Hsel as [Hkeep Hret].
    split; [|done]. cbn [used_question_hashes set_used_question_hashes].
    revert Hget Hc'. unfold get_unused_question_by_topic_and_difficulty.
    fold difficulty. rewrite Hc. fold matching. rewrite Hnone.
    cbn [unused_candidates List.filter].
    intros Hget Hc'. unfold random_question in Hget.
    destruct (get_random_question_by_topic_and_difficulty _ _ _ _) as [o g].
    injection Hget as <- _. revert Hc'.
    rewrite cached_session_set_rng.
    rewrite (cached_session_modify_cached _ w s Hc). intros [= _ Hu]. done.
  - intros Hsome. destruct matching as [|m0 ms]; [done|].
    destruct Hsel as (Hsync & q & Hq & Hin & Hfresh & _ & _ & Hlast).
    split; [by rewrite Hsync|]. exists q. done.
  - intros q _.
    destruct (set_current_adaptive_question_spec q w' sd' _ Hdb' Hc') as (Hc2 & Hd2 & _).
    eexists. split; [exact Hc2|]. split; [exact Hd2|]. split; [done|].
    cbn [used_question_hashes set_used_question_hashes].
    apply elem_of_union_r. by apply elem_of_singleton.
Qed.

End Deduplication.

(** C5 at the failing input.  The topic has two Medium questions and
    nothing else.  The test opens with the first one; after a right answer
    the engine asks for a Hard question, the bank files none under Hard,
    and the last line of the de-duplicated retrieval hands on to the
    unfiltered one: the first question is served again, with a hash that
    is already recorded, although the second was never served, has
    another hash, and is the one question the filter by hash over the
    other difficulties lets through.  That retrieval leaves the set of
    hashes and the stored session as they were. *)
Lemma unexhausted_topic_repeats_question :
  served (shown_in ["Graphs"] ["A"] two_medium [])
  = [mcq "Graphs" "Medium" "m1"; mcq "Graphs" "Medium" "m1"]
  ∧ elements (cached_used (state_after ["Graphs"] ["A"] two_medium []))
    = [get_question_hash (H := short_digest) (mcq "Graphs" "Medium" "m1")]
  ∧ get_question_hash (H := short_digest) (mcq "Graphs" "Medium" "m2")
    ≠ get_question_hash (H := short_digest) (mcq "Graphs" "Medium" "m1")
  ∧ alias_matches "Graphs" "Hard" two_medium = []
  ∧ other_difficulty_candidates (H := short_digest)
      (cached_used (state_after ["Graphs"] [] two_medium [])) "Graphs" "Hard" two_medium
    = [mcq "Graphs" "Medium" "m2"]
  ∧ ∃ w1,
      get_unused_question_by_topic_and_difficulty (H := short_digest) "Graphs" (Some "Hard")
        two_medium (state_after ["Graphs"] [] two_medium [])
      = (w1, Some (mcq "Graphs" "Medium" "m1"))
      ∧ elements (cached_used (state_after ["Graphs"] [] two_medium []))
        = [get_question_hash (H := short_digest) (mcq "Graphs" "Medium" "m1")]
      ∧ cached_used w1 = cached_used (state_after ["Graphs"] [] two_medium [])
      ∧ db_session w1 = db_session (state_after ["Graphs"] [] two_medium []).
Proof.
  split; [by vm_compute|]. split; [by vm_compute|]. split; [by vm_compute|].
  split; [by vm_compute|]. split; [by vm_compute|].
  eexists. split; [by vm_compute|]. split; [by vm_compute|]. split; by vm_compute.
Qed.

Lemma retrieval_records_hash_witness :
  ∃ w' q s',
    get_unused_question_by_topic_and_difficulty (H := short_digest) "Stacks" (Some "Easy")
      stacks_bank (state_after ["Stacks"] ["A"] stacks_bank []) = (w', Some q)
    ∧ cached_session w' = Some (Adaptive s')
    ∧ db_session w' = Some (Adaptive s')
    ∧ get_question_hash (H := short_digest) q ∈ used_question_hashes s'
    ∧ get_question_hash (H := short_digest) q
      ∉ cached_used (state_after ["Stacks"] ["A"] stacks_bank []).
Proof.
  assert (∃ s sd,
            cached_session (state_after ["Stacks"] ["A"] stacks_bank []) = Some (Adaptive s)
            ∧ db_session (state_after ["Stacks"] ["A"] stacks_bank []) = Some (Adaptive sd)
            ∧ unused_candidates (H := short_digest) (used_question_hashes s)
                (asked_for "Stacks" "Easy" (init_asked "Stacks" "Easy" (questions_asked s)))
                (alias_matches "Stacks" (standard_difficulty "Easy") stacks_bank) ≠ [])
    as (s & sd & Hc & Hdb & Hunused).
  { eexists _, _. split; [vm_compute; reflexivity|]. split; [vm_compute; reflexivity|].
    vm_compute. discriminate. }
  unfold cached_used. revert Hc Hdb.
  generalize (state_after ["Stacks"] ["A"] stacks_bank []). intros w Hc Hdb. rewrite Hc.
  destruct (retrieval_records_hash (H := short_digest) "Stacks" (Some "Easy") stacks_bank
              w s sd Hc Hdb)
    as (w' & oq & s' & Hget & Hc' & _ & _ & Hsome & _).
  destruct Hsome as (Hdb' & q & Hq & Hin & Hfresh & _).
  { intros Hnone. apply Hunused. change (default "Medium" (Some "Easy")) with "Easy" in Hnone.
    by rewrite Hnone. }
  exists w', q, s'. rewrite <- Hq. split; [exact Hget|]. split; [exact Hc'|].
  split; [exact Hdb'|]. split; [exact Hin|]. apply Hfresh. left. exact Hunused.
Defined.

Section AnswerFormat.
Context `{Md5}.

(** The first-question sequence either replies for the answered question or
    hands on a world that still caches the adaptive session. *)
Lemma first_question_sequence_total c cq bank s w s0 :
  cached_session w = Some (Adaptive s0) →
  match first_question_sequence c cq bank s w with
  | inl w' => ∃ s', cached_session w' = Some (Adaptive s')
  | inr (_, r) => r_correct r = c ∧ r_question r = cq
  end.
Proof.
  intros Hc. unfold first_question_sequence.
  repeat match goal with
         | |- context [if ?b then _ else _] => destruct b
         | |- context [let '(_, _) := ?x in _] => destruct x as [? [?|]]
         end;
    try done;
    rewrite ?cached_session_save_cached;
    repeat (erewrite cached_session_modify_cached; [|try exact Hc]); eauto.
Qed.

Lemma hard_failure_check_total c cq s w s0 :
  cached_session w = Some (Adaptive s0) →
  match hard_failure_check c cq s w with
  | inl w' => ∃ s', cached_session w' = Some (Adaptive s')
  | inr (_, r) => r_correct r = c ∧ r_question r = cq
  end.
Proof.
  intros Hc. unfold hard_failure_check.
  repeat match goal with
         | |- context [if ?b then _ else _] => destruct b
         end;
    try done;
    rewrite ?cached_session_save_cached;
    repeat (erewrite cached_session_modify_cached; [|try exact Hc]); eauto.
Qed.

(** From the bookkeeping on, every path ends in a reply for the answered
    question. *)
Lemma continue_adaptive_total c cq bank w s :
  cached_session w = Some (Adaptive s) →
  ∃ w' r, continue_adaptive c cq bank w = (w', Ok r) ∧ r_correct r = c ∧ r_question r = cq.
Proof.
  intros Hc. unfold continue_adaptive, with_session, finish_adaptive.
  rewrite (cached_session_modify_cached _ w s Hc).
  repeat match goal with
         | |- context [if ?b then _ else _] => destruct b
         | |- context [let '(_, _) := ?x in _] => destruct x
         | |- context [match ?x with Some _ => _ | None => _ end] => destruct x
         | |- context [match ?x with Adaptive _ => _ | Sequential _ => _ end] => destruct x
         end;
    by eexists _, _.
Qed.

(** The reply of [process_adaptive_answer] depends on the submitted text
    only through its comparison with the correct answer. *)
Lemma process_adaptive_answer_by_comparison answer other bank w s cq :
  cached_session w = Some (Adaptive s) →
  current_question s = Some cq →
  String.eqb (Py.upper other) (Py.upper (q_correct_answer cq))
  = String.eqb (Py.upper answer) (Py.upper (q_correct_answer cq)) →
  process_adaptive_answer other bank w = process_adaptive_answer answer bank w.
Proof.
  intros (data & Hd & Hs)%cached_session_user_data Hq Heq.
  unfold process_adaptive_answer. rewrite Hd, Hs, Hq. cbv zeta. by rewrite Heq.
Qed.

End AnswerFormat.

(** C9, as the code has it.  No answer is rejected for its format: with an
    adaptive session and a current question, [process_adaptive_answer]
    replies for every submitted text, scores it by comparing its upper
    case with the upper case of the correct answer, and treats it exactly
    as any other text with the same comparison result; with a sequential
    session and a question left, [UserTracker.process_answer] replies for
    every submitted text and scores it by comparing its upper case with
    the stored correct answer. *)
Theorem any_answer_is_scored (answer : string) :
  (∀ `{Md5} (bank : list Question) (w : World) (s : AdaptiveSession) (cq : Question),
     cached_session w = Some (Adaptive s) →
     current_question s = Some cq →
     let c := String.eqb (Py.upper answer) (Py.upper (q_correct_answer cq)) in
     ∃ w' r,
       process_adaptive_answer answer bank w = (w', Ok r)
       ∧ r_correct r = c
       ∧ r_question r = cq
       ∧ ∀ other, String.eqb (Py.upper other) (Py.upper (q_correct_answer cq)) = c →
                  process_adaptive_answer other bank w = (w', Ok r))
  ∧ (∀ (w : World) (data : UserInfo) (session : SequentialSession) (question : Question),
       user_data w = Some data →
       current_test_session data = Some (Sequential session) →
       questions session !! current_question_index session = Some question →
       ∃ w' r,
         UserTracker.process_answer answer w = (w', Ok r)
         ∧ sr_correct r = String.eqb (Py.upper answer) (q_correct_answer question)
         ∧ sr_question r = question).
Proof.
  split.
  - intros H bank w s cq Hc Hq c.
    assert (∃ w' r, process_adaptive_answer answer bank w = (w', Ok r)
                    ∧ r_correct r = c ∧ r_question r = cq) as (w' & r & Hrun & Hr & Hcq).
    { destruct (process_adaptive_answer_entry answer bank w s cq Hc Hq)
        as (w1 & Hc1 & _ & _ & ->). fold c.
      pose proof (first_question_sequence_total c cq bank
                    (init_tracking (q_topic cq)
                       (set_answers (answers s ++ [{| a_topic := q_topic cq;
                                                      a_difficulty := q_difficulty cq;
                                                      a_correct := c |}]) s))
                    w1 _ Hc1) as Hfirst.
      destruct (first_question_sequence _ _ _ _ _) as [w2|[w2 r]]; [|by exists w2, r].
      destruct Hfirst as (s2 & Hc2). unfold with_session. rewrite Hc2.
      pose proof (hard_failure_check_total c cq s2 w2 s2 Hc2) as Hhard.
      destruct (hard_failure_check _ _ _ _) as [w3|[w3 r]]; [|by exists w3, r].
      destruct Hhard as (s3 & Hc3). by apply continue_adaptive_total with s3. }
    exists w', r. do 3 (split; [done|]). intros other Hother.
    by rewrite (process_adaptive_answer_by_comparison answer other bank w s cq Hc Hq Hother).
  - intros w data session question Hd Hs Hq.
    unfold UserTracker.process_answer, UserTracker.cached_user_data. rewrite Hd, Hs, Hq.
    cbv zeta.
    repeat match goal with
           | |- context [if ?b then _ else _] => destruct b
           | |- context [let '(_, _) := ?x in _] => destruct x
           end;
      by eexists _, _.
Qed.

(** C9 as stated fails.  The text Z, which is none of the choice letters of
    the question, is answered by an ordinary reply: the adaptive engine
    scores it as incorrect, logs it as an incorrect answer and replies as
    it does to the wrong letter B; the fixed-exam engine scores it as
    incorrect and stores it among the answers of the learner. *)
Lemma invalid_letter_scored_as_wrong :
  (∃ w' r,
     process_adaptive_answer (H := short_digest) "Z" stacks_bank
       (state_after ["Stacks"] [] stacks_bank []) = (w', Ok r)
     ∧ Py.mem "Z" (map fst (q_choices (r_question r))) = false
     ∧ r_correct r = false
     ∧ last (logged_answers w')
       = Some {| a_topic := "Stacks"; a_difficulty := "Medium"; a_correct := false |}
     ∧ process_adaptive_answer (H := short_digest) "B" stacks_bank
         (state_after ["Stacks"] [] stacks_bank []) = (w', Ok r))
  ∧ ∃ w' r session,
      UserTracker.process_answer "Z"
        (UserTracker.start_test_session "exam" stacks_bank (new_learner [])) = (w', Ok r)
      ∧ Py.mem "Z" (map fst (q_choices (sr_question r))) = false
      ∧ sr_correct r = false
      ∧ cached_session w' = Some (Sequential session)
      ∧ user_answers session = ["Z"]
      ∧ incorrect_topics session = ["Stacks"].
Proof.
  split.
  - eexists _, _. split; [vm_compute; reflexivity|]. split; [by vm_compute|].
    split; [by vm_compute|]. split; by vm_compute.
  - eexists _, _, _. split; [vm_compute; reflexivity|]. split; [by vm_compute|].
    split; [by vm_compute|]. split; [vm_compute; reflexivity|]. split; by vm_compute.
Qed.

Lemma any_answer_is_scored_witness :
  ∃ w' r,
    process_adaptive_answer (H := short_digest) "Z" stacks_bank
      (state_after ["Stacks"] [] stacks_bank []) = (w', Ok r)
    ∧ r_correct r = false.
Proof.
  assert (∃ s cq, cached_session (state_after ["Stacks"] [] stacks_bank []) = Some (Adaptive s)
                  ∧ current_question s = Some cq
                  ∧ q_correct_answer cq = "A") as (s & cq & Hc & Hq & Hright).
  { eexists _, _. split; [vm_compute; reflexivity|]. split; [vm_compute; reflexivity|].
    reflexivity. }
  revert Hc. generalize (state_after ["Stacks"] [] stacks_bank []). intros w Hc.
  destruct (proj1 (any_answer_is_scored "Z") short_digest stacks_bank w s cq Hc Hq)
    as (w' & r & Hrun & Hcorrect & _).
  rewrite Hright in Hcorrect.
  exists w', r. split; [exact Hrun|exact Hcorrect].
Defined.

(** ** What the learner is sent after an answer *)

Section Handlers.
Context `{Md5}.




End Handlers.

Section SecondHardFailure.
Context `{Md5}.


End SecondHardFailure.



(** With both Hard questions filed under the one other name of the topic,
    the second failure does end the topic, but the name marked
    needs-training is that of the questions: the selected topic is filed
    as passed in the result row. *)
Example needs_training_lists_filing_name :
  replies_in ["Stacks"] ["A"; "B"; "A"; "B"] hard_under_alias []
  = [act_next_question; act_warning; act_next_question; act_needs_training_complete]
  ∧ map (fun tr => (tr_weak_topics tr, tr_passed_topics tr, tr_needs_more_training tr))
      (db_tests (state_after ["Stacks"] ["A"; "B"; "A"; "B"] hard_under_alias []))
    = [([], ["Stacks"], ["Stack"])].
Proof. by vm_compute. Qed.

Section EasyRetryHandled.
Context `{Md5}.





End EasyRetryHandled.



(** ** Invariants of a running adaptive test *)

(** Discharges the condition that an update of the engine is bookkeeping. *)
Ltac bookkeeping Hstable :=
  let s := fresh "s" in
  let Hs := fresh "Hs" in
  intros s Hs;
  first
    [ exact Logic.I
    | apply (Hstable s); [| | | | | |exact Hs];
      unfold count_question, update_flags, init_tracking, mark_first_was_medium,
        clear_first_question;
      repeat case_match; cbn;
      first [reflexivity
            | (intros ? ?; first [assumption | apply In_append_if_absent; by right])] ].

Section Held.
Context `{Md5}.
Variable I : AdaptiveSession → Prop.
Hypothesis Hstable : session_stable I.
Hypothesis Hpop : pop_stable I.

Lemma held_modify_cached f w :
  (∀ s, I s → I (f s)) →
  held_in_sessions I w → held_in_sessions I (modify_cached f w).
Proof.
  intros Hf (s & sd & Hc & Hd & Hs & Hsd). exists (f s), sd.
  rewrite (cached_session_modify_cached f w s Hc), db_session_modify_cached. eauto.
Qed.

Lemma held_save_cached w : held_in_sessions I w → held_in_sessions I (save_cached w).
Proof.
  intros (s & sd & Hc & Hd & Hs & Hsd). exists s, s.
  by rewrite cached_session_save_cached, db_session_save_cached.
Qed.

Lemma held_set_rng g w : held_in_sessions I w → held_in_sessions I (set_rng g w).
Proof.
  intros (s & sd & Hc & Hd & Hs & Hsd). exists s, sd.
  by rewrite cached_session_set_rng, db_session_set_rng.
Qed.

Lemma held_save_user_data w : held_in_sessions I w → held_in_sessions I (save_user_data w).
Proof.
  intros (s & sd & Hc & Hd & Hs & Hsd). exists s, s.
  by rewrite cached_session_save_user_data, (db_session_save_user_data w _ Hc).
Qed.

Lemma held_set_current_adaptive_question q w :
  held_in_sessions I w → held_in_sessions I (set_current_adaptive_question q w).
Proof.
  intros (s & sd & Hc & Hd & Hs & Hsd).
  destruct (set_current_adaptive_question_spec q w sd _ Hd Hc) as (Hc' & Hd' & _).
  assert (Hnew : I (set_used_question_hashes
                      (used_question_hashes sd ∪ {[ get_question_hash q ]})
                      (set_current_question (Some q) sd))).
  { apply (Hstable sd); try done. cbn. apply union_subseteq_l. }
  eexists _, _. split; [exact Hc'|]. by split; [exact Hd'|].
Qed.

Lemma held_move_to_next_adaptive_topic w w' next_topic :
  move_to_next_adaptive_topic w = (w', next_topic) →
  held_in_sessions I w → held_in_sessions I w'.
Proof.
  intros Hmove (s & sd & Hc & Hd & Hs & Hsd).
  destruct (move_to_next_adaptive_topic_spec w s Hc) as (w1 & Hmove' & Hc' & Hd' & _).
  rewrite Hmove in Hmove'. injection Hmove' as <- _.
  exists (pop_topic s), (pop_topic s). split; [done|]. split; [done|]. split; by apply Hpop.
Qed.

Lemma held_get_unused topic d bank w w' oq :
  get_unused_question_by_topic_and_difficulty topic d bank w = (w', oq) →
  held_in_sessions I w → held_in_sessions I w'.
Proof.
  intros Hget (s & sd & Hc & Hd & Hs & Hsd).
  destruct (get_unused_spec topic d bank w s Hc)
    as (w1 & oq1 & qa' & used' & Hget' & Hc' & Hsub & _ & Hsel).
  rewrite Hget in Hget'. injection Hget' as <- <-.
  assert (Hnew : I (set_used_question_hashes used' (set_questions_asked qa' s)))
    by (by apply (Hstable s)).
  destruct (alias_matches _ _ _).
  - destruct Hsel as [Hd' _]. eexists _, sd. split; [exact Hc'|]. by rewrite Hd'.
  - destruct Hsel as [Hd' _]. eexists _, _. split; [exact Hc'|]. rewrite Hd'.
    by split; [exact Hc'|].
Qed.

Lemma held_random_question topic d bank w w' oq :
  random_question topic d bank w = (w', oq) →
  held_in_sessions I w → held_in_sessions I w'.
Proof.
  intros Hrun Hk. destruct (random_question_spec topic d bank w) as [_ [g Hg]].
  rewrite Hrun in Hg. simpl in Hg. subst w'. by apply held_set_rng.
Qed.

(** The result update leaves the cached session alone and stores it
    again. *)
Lemma held_update_adaptive_test_results ty w :
  held_in_sessions I w → held_in_sessions I (update_adaptive_test_results ty w).
Proof.
  intros (s & sd & Hc & Hd & Hs & Hsd).
  unfold update_adaptive_test_results, get_user_data, load_user_session.
  cbn [current_test_session]. rewrite Hd.
  exists s, s. rewrite cached_session_save_user_data.
  destruct (ActionType_eqb ty act_complete).
  - split; [exact Hc|]. split; [|done]. apply db_session_save_user_data. exact Hc.
  - split; [exact Hc|]. split; [|done]. by apply db_session_save_user_data.
Qed.

Lemma closed_show_adaptive_test_completion w x :
  cached_session w = Some x → cached_session (show_adaptive_test_completion w) = None.
Proof.
  intros Hc. destruct (cached_session_user_data _ _ Hc) as (data & Hdata & _).
  unfold show_adaptive_test_completion. rewrite Hdata.
  rewrite cached_session_save_user_data.
  unfold clear_user_session, cached_session at 1. cbn [set_db_session user_data].
  apply (cached_session_set_cached_session None w _ Hc).
Qed.

Lemma closed_complete_test w :
  held_in_sessions I w → held_until_closed I (complete_test w).1.
Proof.
  intros Hk. apply held_update_adaptive_test_results with (ty := act_complete) in Hk.
  destruct Hk as (s & _ & Hc & _). right. by apply closed_show_adaptive_test_completion with (Adaptive s).
Qed.

End Held.

(** Walks back through the operations applied to a world. *)
Ltac hold_through Hstable Hpop :=
  repeat first
    [ assumption
    | apply held_save_cached
    | apply (held_set_current_adaptive_question _ Hstable)
    | apply held_update_adaptive_test_results
    | apply held_modify_cached; [bookkeeping Hstable|]
    | eapply (held_get_unused _ Hstable); [eassumption|]
    | eapply held_random_question; [eassumption|]
    | eapply (held_move_to_next_adaptive_topic _ Hpop); [eassumption|] ].

Section HeldByEngine.
Context `{Md5}.
Variable I : AdaptiveSession → Prop.
Hypothesis Hstable : session_stable I.
Hypothesis Hpop : pop_stable I.

Lemma held_first_question_sequence c cq bank s w :
  held_in_sessions I w →
  match first_question_sequence c cq bank s w with
  | inl w' => held_in_sessions I w'
  | inr (w', _) => held_in_sessions I w'
  end.
Proof.
  intros Hk. unfold first_question_sequence.
  repeat case_match; simplify_eq; hold_through Hstable Hpop.
Qed.

Lemma held_hard_failure_check c cq s w :
  held_in_sessions I w →
  match hard_failure_check c cq s w with
  | inl w' => held_in_sessions I w'
  | inr (w', _) => held_in_sessions I w'
  end.
Proof.
  intros Hk. unfold hard_failure_check.
  repeat case_match; simplify_eq; hold_through Hstable Hpop.
Qed.

Lemma held_continue_adaptive c cq bank w :
  held_in_sessions I w → held_in_sessions I (continue_adaptive c cq bank w).1.
Proof.
  intros Hk. unfold continue_adaptive, with_session, finish_adaptive.
  repeat case_match; simplify_eq; cbn [fst]; hold_through Hstable Hpop.
Qed.

(** From the logged answer to the reply. *)
Lemma held_after_logging c cq bank w1 :
  held_in_sessions I w1 →
  held_in_sessions I
    (with_session w1 (fun s =>
       match first_question_sequence c cq bank s w1 with
       | inr (w, r) => (w, Ok r)
       | inl w =>
           with_session w (fun s =>
             match hard_failure_check c cq s w with
             | inr (w, r) => (w, Ok r)
             | inl w => continue_adaptive c cq bank w
             end)
       end)).1.
Proof.
  intros Hk1. unfold with_session.
  destruct (cached_session w1) as [[s1|?]|]; try done.
  pose proof (held_first_question_sequence c cq bank s1 w1 Hk1) as Hfirst.
  destruct (first_question_sequence _ _ _ _ _) as [w2|[w2 r]]; [|done].
  destruct (cached_session w2) as [[s2|?]|]; try done.
  pose proof (held_hard_failure_check c cq s2 w2 Hfirst) as Hhard.
  destruct (hard_failure_check _ _ _ _) as [w3|[w3 r]]; [|done].
  by apply held_continue_adaptive.
Qed.

Lemma closed_open_next_topic deduplicated bank w :
  held_in_sessions I w → held_until_closed I (open_next_topic deduplicated bank w).1.
Proof.
  intros Hk. unfold open_next_topic.
  repeat case_match; simplify_eq; cbn [fst];
    first [apply (closed_complete_test _) | left]; hold_through Hstable Hpop.
Qed.

Hypothesis Hlog : log_stable I.

Lemma held_record_adaptive_answer c topic d w :
  held_in_sessions I w → held_in_sessions I (record_adaptive_answer c topic d w).
Proof.
  intros (s & sd & Hc & Hd & Hs & Hsd).
  destruct (record_adaptive_answer_spec c topic d w s Hc) as (Hc' & Hd' & _).
  eexists _, _. split; [exact Hc'|]. split; [exact Hd'|]. split; by apply Hlog.
Qed.

Lemma held_process_adaptive_answer answer bank w :
  held_in_sessions I w → held_in_sessions I (process_adaptive_answer answer bank w).1.
Proof.
  intros Hk. unfold process_adaptive_answer.
  repeat match goal with
         | |- context [match user_data ?w with _ => _ end] => destruct (user_data w)
         | |- context [match current_test_session ?d with _ => _ end] =>
             destruct (current_test_session d) as [[?|?]|]
         | |- context [match current_question ?s with _ => _ end] =>
             destruct (current_question s)
         end; try done.
  apply held_after_logging. apply held_modify_cached; [bookkeeping Hstable|].
  by apply held_record_adaptive_answer.
Qed.

Lemma closed_handle_adaptive_answer answer bank w :
  held_until_closed I w → held_until_closed I (handle_adaptive_answer answer bank w).1.
Proof.
  intros [Hk|Hclosed]; unfold handle_adaptive_answer.
  - apply (held_process_adaptive_answer answer bank) in Hk.
    destruct (process_adaptive_answer answer bank w) as [w1 [msg|r]]; simpl in Hk.
    + by left.
    + repeat case_match; cbn [fst];
        first [by apply closed_open_next_topic | by apply (closed_complete_test _)
              | by left].
  - destruct (process_adaptive_answer_closed answer bank w Hclosed) as [msg ->].
    by right.
Qed.

Lemma closed_submit_answers answer_list bank w :
  held_until_closed I w → held_until_closed I (submit_answers answer_list bank w).1.
Proof.
  revert w. induction answer_list as [|a rest IH]; intros w Hw; [done|].
  simpl. pose proof (closed_handle_adaptive_answer a bank w Hw) as Hstep.
  destruct (handle_adaptive_answer a bank w) as [w1 shown]. simpl in Hstep.
  specialize (IH w1 Hstep). by destruct (submit_answers rest bank w1).
Qed.

End HeldByEngine.

Section EngineFacts.
Context `{Md5}.

Lemma anything_stable : session_stable (fun _ => True).
Proof. by intros s s'. Qed.

Lemma anything_pop_stable : pop_stable (fun _ => True).
Proof. by intros s. Qed.

Lemma log_is_stable l : session_stable (fun s => answers s = l).
Proof. intros s s' _ _ _ Ha _ _ Hs. by rewrite Ha. Qed.

Lemma log_pop_stable l : pop_stable (fun s => answers s = l).
Proof. intros s Hs. destruct (pop_topic_fields s) as (_ & -> & _). done. Qed.

Lemma hash_is_stable h : session_stable (fun s => h ∈ used_question_hashes s).
Proof. intros s s' _ _ _ _ Hu _ Hs. by apply Hu. Qed.

Lemma hash_pop_stable h : pop_stable (fun s => h ∈ used_question_hashes s).
Proof. intros s Hs. unfold pop_topic. by destruct (remaining_topics s). Qed.

Lemma hash_log_stable h : log_stable (fun s => h ∈ used_question_hashes s).
Proof. by intros s e Hs. Qed.

(** An answer is only processed for a cached adaptive session with a
    current question. *)
Lemma process_adaptive_answer_Ok answer bank w w' r :
  process_adaptive_answer answer bank w = (w', Ok r) →
  ∃ s cq, cached_session w = Some (Adaptive s) ∧ current_question s = Some cq.
Proof.
  unfold process_adaptive_answer, cached_session.
  destruct (user_data w) as [data|]; [|done].
  destruct (current_test_session data) as [[s|?]|]; [|done|done].
  destruct (current_question s) as [cq|] eqn:Hq; [|done]. eauto.
Qed.

(** With a cached adaptive session and a current question the engine
    replies for that question. *)
Lemma process_adaptive_answer_replies answer bank w s cq :
  cached_session w = Some (Adaptive s) →
  current_question s = Some cq →
  ∃ w' r, process_adaptive_answer answer bank w = (w', Ok r)
          ∧ r_correct r = String.eqb (Py.upper answer) (Py.upper (q_correct_answer cq))
          ∧ r_question r = cq.
Proof.
  intros Hc Hq. set (c := String.eqb _ _).
  destruct (process_adaptive_answer_entry answer bank w s cq Hc Hq)
    as (w1 & Hc1 & _ & _ & ->). fold c.
  pose proof (first_question_sequence_total c cq bank
                (init_tracking (q_topic cq)
                   (set_answers (answers s ++ [{| a_topic := q_topic cq;
                                                  a_difficulty := q_difficulty cq;
                                                  a_correct := c |}]) s))
                w1 _ Hc1) as Hfirst.
  destruct (first_question_sequence _ _ _ _ _) as [w2|[w2 r]]; [|by exists w2, r].
  destruct Hfirst as (s2 & Hc2). unfold with_session. rewrite Hc2.
  pose proof (hard_failure_check_total c cq s2 w2 s2 Hc2) as Hhard.
  destruct (hard_failure_check _ _ _ _) as [w3|[w3 r]]; [|by exists w3, r].
  destruct Hhard as (s3 & Hc3). by apply continue_adaptive_total with s3.
Qed.

(** X1.  Every answer the adaptive engine accepts is appended to the
    answer log, once and at the end, in the cached and in the stored
    session alike; whatever path the reply takes, nothing else of the log
    changes. *)
Theorem answer_is_logged
    (answer : string) (bank : list Question) (w : World) (s : AdaptiveSession)
    (cq : Question) :
  cached_session w = Some (Adaptive s) →
  current_question s = Some cq →
  let entry := {| a_topic := q_topic cq; a_difficulty := q_difficulty cq;
                  a_correct := String.eqb (Py.upper answer)
                                 (Py.upper (q_correct_answer cq)) |} in
  ∃ w' r s' sd',
    process_adaptive_answer answer bank w = (w', Ok r)
    ∧ cached_session w' = Some (Adaptive s')
    ∧ db_session w' = Some (Adaptive sd')
    ∧ answers s' = answers s ++ [entry]
    ∧ answers sd' = answers s ++ [entry].
Proof.
  intros Hc Hq entry.
  destruct (process_adaptive_answer_replies answer bank w s cq Hc Hq) as (w' & r & Hrun & _).
  destruct (process_adaptive_answer_entry answer bank w s cq Hc Hq)
    as (w1 & Hc1 & Hd1 & _ & Hsteps).
  assert (Hheld : held_in_sessions (fun x => answers x = answers s ++ [entry]) w1).
  { eexists _, _. split; [exact Hc1|]. by split; [exact Hd1|]. }
  apply (held_after_logging _ (log_is_stable _) (log_pop_stable _)
           (String.eqb (Py.upper answer) (Py.upper (q_correct_answer cq))) cq bank) in Hheld.
  unfold with_session at 1 in Hheld. rewrite Hc1 in Hheld.
  rewrite <- Hsteps, Hrun in Hheld. destruct Hheld as (s' & sd' & Hheld).
  by exists w', r, s', sd'.
Qed.

End EngineFacts.

Section RunFacts.
Context `{Md5}.

(** A fresh session is cached and stored, whoever the learner was. *)
Lemma start_adaptive_test_session_spec selected w :
  let fresh :=
    {| topics := selected; remaining_topics := selected; current_question := None;
       completed_topics := []; weak_topics := []; passed_topics := [];
       needs_more_training := []; answers := []; questions_asked := ∅;
       topic_question_count := ∅; first_question_state := ∅;
       hard_failures_count := ∅; easy_attempts_after_medium := ∅;
       came_from_hard_failure := ∅; used_question_hashes := ∅ |} in
  cached_session (start_adaptive_test_session selected w) = Some (Adaptive fresh)
  ∧ db_session (start_adaptive_test_session selected w) = Some (Adaptive fresh)
  ∧ db_tests (start_adaptive_test_session selected w) = db_tests w.
Proof.
  unfold start_adaptive_test_session, save_user_session, cached_session, set_cached_session.
  cbn [set_db_session user_data]. by destruct (user_data w).
Qed.

Lemma queue_is_stable selected :
  session_stable (fun s => topics s = selected
                           ∧ completed_topics s ++ remaining_topics s = selected).
Proof. intros s s' Ht Hr Hc _ _ _ Hs. by rewrite Ht, Hr, Hc. Qed.

Lemma queue_pop_stable selected :
  pop_stable (fun s => topics s = selected
                       ∧ completed_topics s ++ remaining_topics s = selected).
Proof.
  intros s [Ht Hq]. unfold pop_topic. destruct (remaining_topics s) as [|t rest] eqn:E.
  - by rewrite E.
  - cbn. split; [done|]. by rewrite <- app_assoc.
Qed.

Lemma queue_log_stable selected :
  log_stable (fun s => topics s = selected
                       ∧ completed_topics s ++ remaining_topics s = selected).
Proof. by intros s e Hs. Qed.

(** [start_test] on a selection that is not empty leaves a session to
    which a property of the fresh session has been carried. *)
Lemma held_start_test I selected bank w :
  session_stable I →
  selected ≠ [] →
  I {| topics := selected; remaining_topics := selected; current_question := None;
       completed_topics := []; weak_topics := []; passed_topics := [];
       needs_more_training := []; answers := []; questions_asked := ∅;
       topic_question_count := ∅; first_question_state := ∅;
       hard_failures_count := ∅; easy_attempts_after_medium := ∅;
       came_from_hard_failure := ∅; used_question_hashes := ∅ |} →
  held_in_sessions I (start_test selected bank w).1.
Proof.
  intros Hstable Hsel Hfresh. unfold start_test. destruct selected as [|t0 rest]; [done|].
  destruct (start_adaptive_test_session_spec (t0 :: rest) w) as (Hc & Hd & _).
  assert (Hheld : held_in_sessions I (start_adaptive_test_session (t0 :: rest) w))
    by (eexists _, _; split; [exact Hc|]; by split; [exact Hd|]).
  clear Hc Hd. set (w1 := start_adaptive_test_session _ w) in *. clearbody w1.
  destruct (truthy (get_current_adaptive_topic w1)); [|done].
  destruct (random_question _ _ _ w1) as [w2 [q|]] eqn:Hrand; cbn [fst].
  - apply (held_set_current_adaptive_question _ Hstable).
    by eapply held_random_question; [exact Hrand|].
  - by eapply held_random_question; [exact Hrand|].
Qed.

(** X2.  Throughout an adaptive test on a selection that is not empty, in
    the cached and in the stored session, the selected topics stay as they
    were chosen and the completed topics followed by the queue of
    remaining topics are the selected topics in their order: no topic is
    lost, repeated or reordered, whatever is answered, until the
    completion display removes the session. *)
Theorem topic_queue_accounts_for_selection
    (selected answer_list : list string) (bank : list Question) (w0 : World) :
  selected ≠ [] →
  held_until_closed
    (fun s => topics s = selected ∧ completed_topics s ++ remaining_topics s = selected)
    (run_adaptive_test selected answer_list bank w0).1.
Proof.
  intros Hsel. unfold run_adaptive_test.
  pose proof (held_start_test _ selected bank w0 (queue_is_stable selected) Hsel) as Hstart.
  destruct (start_test selected bank w0) as [w1 shown]. simpl in Hstart.
  pose proof (closed_submit_answers _ (queue_is_stable selected) (queue_pop_stable selected)
                (queue_log_stable selected) answer_list bank w1) as Hrun.
  destruct (submit_answers answer_list bank w1) as [w2 l]. simpl in *.
  apply Hrun. left. by apply Hstart.
Qed.

End RunFacts.

Section Served.
Context `{Md5}.

Lemma recorded_by_set_current q w :
  held_in_sessions (fun _ => True) w →
  held_in_sessions (fun s => get_question_hash q ∈ used_question_hashes s
                             ∧ current_question s = Some q)
    (set_current_adaptive_question q w).
Proof.
  intros (s & sd & Hc & Hd & _).
  destruct (set_current_adaptive_question_spec q w sd _ Hd Hc) as (Hc' & Hd' & _).
  eexists _, _. split; [exact Hc'|]. split; [exact Hd'|].
  cbn [used_question_hashes set_used_question_hashes current_question set_current_question].
  split; (split; [apply elem_of_union_r; by apply elem_of_singleton|done]).
Qed.

Lemma recorded_first_question_sequence c cq bank s w w' r q :
  held_in_sessions (fun _ => True) w →
  first_question_sequence c cq bank s w = inr (w', r) →
  r_next_question r = Some q →
  held_in_sessions (fun s => get_question_hash q ∈ used_question_hashes s
                             ∧ current_question s = Some q) w'.
Proof.
  intros Hk. unfold first_question_sequence. intros Hrun Hq. revert Hrun Hq.
  repeat case_match; intros; simplify_eq; cbn in *; simplify_eq;
    apply recorded_by_set_current; hold_through anything_stable anything_pop_stable.
Qed.

Lemma recorded_hard_failure_check c cq s w w' r q :
  hard_failure_check c cq s w = inr (w', r) → r_next_question r = Some q → False.
Proof.
  unfold hard_failure_check. repeat case_match; intros; simplify_eq; cbn in *; simplify_eq.
Qed.

Lemma recorded_continue_adaptive c cq bank w w' r q :
  held_in_sessions (fun _ => True) w →
  continue_adaptive c cq bank w = (w', Ok r) →
  r_next_question r = Some q →
  held_in_sessions (fun s => get_question_hash q ∈ used_question_hashes s
                             ∧ current_question s = Some q) w'.
Proof.
  intros Hk. unfold continue_adaptive, with_session, finish_adaptive.
  intros Hrun Hq. revert Hrun Hq.
  repeat case_match; intros; simplify_eq; cbn in *; simplify_eq;
    apply recorded_by_set_current; hold_through anything_stable anything_pop_stable.
Qed.

Lemma recorded_open_next_topic deduplicated bank w w' q :
  held_in_sessions (fun _ => True) w →
  open_next_topic deduplicated bank w = (w', shown_question q) →
  held_in_sessions (fun s => get_question_hash q ∈ used_question_hashes s
                             ∧ current_question s = Some q) w'.
Proof.
  intros Hk. unfold open_next_topic, complete_test.
  repeat case_match; intros; simplify_eq;
    apply recorded_by_set_current; hold_through anything_stable anything_pop_stable.
Qed.

Lemma recorded_process_adaptive_answer answer bank w w' r q :
  process_adaptive_answer answer bank w = (w', Ok r) →
  r_next_question r = Some q →
  held_in_sessions (fun _ => True) w'
  ∧ held_in_sessions (fun s => get_question_hash q ∈ used_question_hashes s
                               ∧ current_question s = Some q) w'.
Proof.
  intros Hrun Hq.
  destruct (process_adaptive_answer_Ok answer bank w w' r Hrun) as (s & cq & Hc & Hcq).
  destruct (process_adaptive_answer_entry answer bank w s cq Hc Hcq)
    as (w1 & Hc1 & Hd1 & _ & Hsteps).
  assert (Hheld : held_in_sessions (fun _ => True) w1)
    by (eexists _, _; split; [exact Hc1|]; by split; [exact Hd1|]).
  rewrite Hrun in Hsteps. set (c := String.eqb _ _) in *. clearbody c.
  set (s1 := init_tracking _ _) in *. clearbody s1.
  pose proof (held_first_question_sequence _ anything_stable
                c cq bank s1 w1 Hheld) as Hfirst.
  destruct (first_question_sequence c cq bank s1 w1) as [w2|[w2 r2]] eqn:Efirst.
  - unfold with_session in Hsteps. destruct Hfirst as (s2 & sd2 & Hc2 & Hd2 & _).
    rewrite Hc2 in Hsteps.
    assert (Hheld2 : held_in_sessions (fun _ => True) w2) by (by exists s2, sd2).
    pose proof (held_hard_failure_check _ anything_stable
                  c cq s2 w2 Hheld2) as Hhard.
    destruct (hard_failure_check c cq s2 w2) as [w3|[w3 r3]] eqn:Ehard.
    + split.
      * pose proof (held_continue_adaptive _ anything_stable anything_pop_stable
                      c cq bank w3 Hhard) as Hcont.
        by rewrite <- Hsteps in Hcont.
      * by apply (recorded_continue_adaptive c cq bank w3 w' r q).
    + injection Hsteps as <- <-.
      destruct (recorded_hard_failure_check c cq s2 w2 w' r q Ehard Hq).
  - injection Hsteps as <- <-. split; [done|].
    by apply (recorded_first_question_sequence c cq bank s1 w1 w' r q).
Qed.

End Served.

Section ServedByHandler.
Context `{Md5}.

Lemma sessions_after_process answer bank w w' r :
  process_adaptive_answer answer bank w = (w', Ok r) →
  held_in_sessions (fun _ => True) w'.
Proof.
  intros Hrun.
  destruct (process_adaptive_answer_Ok answer bank w w' r Hrun) as (s & cq & Hc & Hcq).
  destruct (process_adaptive_answer_entry answer bank w s cq Hc Hcq)
    as (w1 & Hc1 & Hd1 & _ & Hsteps).
  assert (Hheld : held_in_sessions (fun _ => True) w1)
    by (eexists _, _; split; [exact Hc1|]; by split; [exact Hd1|]).
  apply (held_after_logging _ anything_stable anything_pop_stable
           (String.eqb (Py.upper answer) (Py.upper (q_correct_answer cq))) cq bank) in Hheld.
  unfold with_session at 1 in Hheld. rewrite Hc1 in Hheld.
  by rewrite <- Hsteps, Hrun in Hheld.
Qed.

(** X3.  Whenever the answer handler of an adaptive test shows a question,
    that question is the current question of the cached and of the stored
    session and its hash is in [used_question_hashes] of both; and the
    hash stays in both sets whatever is answered afterwards, until the
    completion display removes the session. *)
Theorem shown_question_is_recorded
    (answer : string) (bank : list Question) (w w' : World) (q : Question) :
  handle_adaptive_answer answer bank w = (w', shown_question q) →
  held_in_sessions (fun s => get_question_hash q ∈ used_question_hashes s
                             ∧ current_question s = Some q) w'
  ∧ ∀ rest,
      held_until_closed (fun s => get_question_hash q ∈ used_question_hashes s)
        (submit_answers rest bank w').1.
Proof.
  intros Hshown.
  assert (Hnow : held_in_sessions (fun s => get_question_hash q ∈ used_question_hashes s
                                            ∧ current_question s = Some q) w').
  { revert Hshown. unfold handle_adaptive_answer.
    destruct (process_adaptive_answer answer bank w) as [w1 [msg|r]] eqn:Hrun; [done|].
    pose proof (sessions_after_process answer bank w w1 r Hrun) as Hheld.
    unfold complete_test.
    repeat case_match; intros; simplify_eq;
      first [ by eapply recorded_open_next_topic
            | by eapply recorded_process_adaptive_answer ]. }
  split; [exact Hnow|]. intros rest.
  apply (closed_submit_answers _ (hash_is_stable _) (hash_pop_stable _) (hash_log_stable _)).
  left. destruct Hnow as (s & sd & Hc & Hd & [Hs _] & [Hsd _]). by exists s, sd.
Qed.

End ServedByHandler.

Lemma answer_is_logged_witness :
  ∃ w' r s',
    process_adaptive_answer (H := short_digest) "B" stacks_bank
      (state_after ["Stacks"] ["A"] stacks_bank []) = (w', Ok r)
    ∧ cached_session w' = Some (Adaptive s')
    ∧ last (answers s')
      = Some {| a_topic := "Stacks"; a_difficulty := "Hard"; a_correct := false |}.
Proof.
  assert (∃ s, cached_session (state_after ["Stacks"] ["A"] stacks_bank []) = Some (Adaptive s)
               ∧ current_question s = Some (mcq "Stacks" "Hard" "h1")) as (s & Hc & Hq).
  { eexists. split; [vm_compute; reflexivity|]. reflexivity. }
  revert Hc. generalize (state_after ["Stacks"] ["A"] stacks_bank []). intros w Hc.
  destruct (answer_is_logged (H := short_digest) "B" stacks_bank w s
              (mcq "Stacks" "Hard" "h1") Hc Hq)
    as (w' & r & s' & sd' & Hrun & Hc' & _ & Hlog & _).
  exists w', r, s'. split; [exact Hrun|]. split; [exact Hc'|].
  rewrite Hlog. apply last_snoc.
Defined.

Lemma topic_queue_accounts_for_selection_witness :
  held_until_closed
    (fun s => topics s = ["Stacks"; "Queues"]
              ∧ completed_topics s ++ remaining_topics s = ["Stacks"; "Queues"])
    (run_adaptive_test (H := short_digest) ["Stacks"; "Queues"] ["A"; "A"]
       (stacks_bank ++ one_of_each) (new_learner [])).1.
Proof.
  apply (topic_queue_accounts_for_selection (H := short_digest)). simpl. discriminate.
Defined.

Lemma shown_question_is_recorded_witness :
  ∃ w',
    handle_adaptive_answer (H := short_digest) "A" stacks_bank
      (state_after ["Stacks"] [] stacks_bank [])
    = (w', shown_question (mcq "Stacks" "Hard" "h1"))
    ∧ held_in_sessions
        (fun s => get_question_hash (H := short_digest) (mcq "Stacks" "Hard" "h1")
                  ∈ used_question_hashes s
                  ∧ current_question s = Some (mcq "Stacks" "Hard" "h1")) w'.
Proof.
  assert (∃ w', handle_adaptive_answer (H := short_digest) "A" stacks_bank
                  (state_after ["Stacks"] [] stacks_bank [])
                = (w', shown_question (mcq "Stacks" "Hard" "h1"))) as (w' & Hrun).
  { eexists. vm_compute. reflexivity. }
  exists w'. split; [exact Hrun|].
  exact (proj1 (shown_question_is_recorded (H := short_digest) "A" stacks_bank _ w' _ Hrun)).
Defined.

(** ** The result row of an adaptive test *)

Lemma NoDup_keys_filter {A} (f : string * A → bool) (l : list (string * A)) :
  NoDup (map fst l) → NoDup (map fst (List.filter f l)).
Proof.
  induction l as [|[k v] l IH]; simpl; intros Hnd; [done|].
  apply NoDup_cons in Hnd as [Hnin Hnd]. destruct (f (k, v)); simpl; [|by apply IH].
  apply NoDup_cons. split; [|by apply IH].
  intros Hin. apply Hnin. apply list_elem_of_In in Hin. apply list_elem_of_In.
  apply in_map_iff in Hin as ([k' v'] & Hk & Hin). apply filter_In in Hin as [Hin _].
  apply in_map_iff. by exists (k', v').
Qed.

(** X4.  The row that completes an adaptive test sorts the topics of the
    stored session into three classes without overlap: a topic with at
    least one logged answer is in exactly one of [needs_more_training],
    [weak_topics] and [passed_topics]; a topic without a logged answer is
    in neither [weak_topics] nor [passed_topics]; and neither of these two
    lists names a topic twice. *)
Theorem adaptive_outcomes_partition (w : World) (sd : AdaptiveSession) :
  db_session w = Some (Adaptive sd) →
  ∃ tr,
    db_tests (update_adaptive_test_results act_complete w) = db_tests w ++ [tr]
    ∧ tr_needs_more_training tr = needs_more_training sd
    ∧ NoDup (tr_weak_topics tr)
    ∧ NoDup (tr_passed_topics tr)
    ∧ ∀ t,
        (0 < count_total t (answers sd) →
           (In t (tr_needs_more_training tr)
            ∧ ¬ In t (tr_weak_topics tr) ∧ ¬ In t (tr_passed_topics tr))
           ∨ (¬ In t (tr_needs_more_training tr)
              ∧ In t (tr_weak_topics tr) ∧ ¬ In t (tr_passed_topics tr))
           ∨ (¬ In t (tr_needs_more_training tr)
              ∧ ¬ In t (tr_weak_topics tr) ∧ In t (tr_passed_topics tr)))
        ∧ (count_total t (answers sd) = 0 →
           ¬ In t (tr_weak_topics tr) ∧ ¬ In t (tr_passed_topics tr)).
Proof.
  intros Hdb. exists (adaptive_test_result sd).
  split; [apply (update_adaptive_test_results_complete w sd Hdb)|].
  unfold adaptive_test_result. cbn [tr_needs_more_training tr_weak_topics tr_passed_topics].
  split; [done|].
  split; [apply NoDup_keys_filter, NoDup_keys_topic_results|].
  split; [apply NoDup_keys_filter, NoDup_keys_topic_results|].
  intros t. rewrite classify_weak_spec, classify_passed_spec. split.
  - intros Hpos. destruct (In_dec string_dec t (needs_more_training sd)) as [Hin|Hnin].
    + left. tauto.
    + right. destruct (Nat.lt_ge_cases (2 * count_correct t (answers sd))
                         (count_total t (answers sd))).
      * left. repeat split; [done|done|done|done|]. lia.
      * right. repeat split; [done| |done|done|done]. lia.
  - intros Hzero. lia.
Qed.

Lemma adaptive_outcomes_partition_witness :
  ∃ tr,
    db_tests (update_adaptive_test_results act_complete
                (state_after ["Stacks"] ["B"; "A"] stacks_bank []))
    = [tr]
    ∧ NoDup (tr_weak_topics tr) ∧ NoDup (tr_passed_topics tr).
Proof.
  assert (∃ sd, db_session (state_after ["Stacks"] ["B"; "A"] stacks_bank [])
                = Some (Adaptive sd)
                ∧ db_tests (state_after ["Stacks"] ["B"; "A"] stacks_bank []) = [])
    as (sd & Hdb & Hempty).
  { eexists. split; [vm_compute; reflexivity|]. vm_compute. reflexivity. }
  revert Hdb Hempty. generalize (state_after ["Stacks"] ["B"; "A"] stacks_bank []).
  intros w Hdb Hempty.
  destruct (adaptive_outcomes_partition w sd Hdb) as (tr & Hrow & _ & Hweak & Hpassed & _).
  exists tr. rewrite Hrow, Hempty. done.
Defined.

Lemma In_update_pool_same topic_list rows x :
  In x (update_pool topic_list rows rows) ↔ In x rows ∨ In x topic_list.
Proof.
  rewrite In_update_pool. destruct (In_dec string_dec x rows); tauto.
Qed.

(** X5.  Completing an adaptive test only adds to the two pool tables.
    Afterwards the weak-topic table holds what it held, the weak topics of
    the result row and the weak-topic pool of the cache entry, and nothing
    else; the needs-training table holds what it held, the needs-training
    topics of the stored session and the needs-training pool of the cache
    entry, and nothing else. *)
Theorem adaptive_completion_fills_pools (w : World) (sd : AdaptiveSession) (x : string) :
  db_session w = Some (Adaptive sd) →
  let w' := update_adaptive_test_results act_complete w in
  (In x (db_weak_topics w')
   ↔ In x (db_weak_topics w)
     ∨ In x (tr_weak_topics (adaptive_test_result sd))
     ∨ In x (cached_weak_pool w))
  ∧ (In x (db_needs_training w')
     ↔ In x (db_needs_training w)
       ∨ In x (needs_more_training sd)
       ∨ In x (cached_needs_pool w)).
Proof.
  intros Hdb w'. unfold w', update_adaptive_test_results, get_user_data, load_user_session.
  cbn [current_test_session weak_topic_pool needs_more_training_pool]. rewrite Hdb.
  cbn [ActionType_eqb]. unfold save_user_data, cached_weak_pool, cached_needs_pool.
  cbn [clear_user_session set_db_session set_db_needs_training set_db_weak_topics
       save_user_test set_db_tests user_data db_weak_topics db_needs_training].
  destruct (user_data w) as [data|].
  - cbn [add_needs_training_topics add_weak_topics save_user_session set_db_session
         set_db_needs_training set_db_weak_topics db_weak_topics db_needs_training].
    rewrite !In_insert_all.
    cbn [clear_user_session set_db_session set_db_needs_training set_db_weak_topics
         save_user_test set_db_tests db_weak_topics db_needs_training].
    rewrite !In_update_pool_same.
    unfold adaptive_test_result. cbn [tr_weak_topics]. tauto.
  - cbn [clear_user_session set_db_session set_db_needs_training set_db_weak_topics
         save_user_test set_db_tests db_weak_topics db_needs_training].
    rewrite !In_update_pool_same.
    unfold adaptive_test_result. cbn [tr_weak_topics]. simpl. tauto.
Qed.

Lemma adaptive_completion_fills_pools_witness :
  In "Queues"
    (db_weak_topics (update_adaptive_test_results act_complete
                       (state_after ["Queues"] ["B"; "B"] one_of_each []))).
Proof.
  assert (∃ sd, db_session (state_after ["Queues"] ["B"; "B"] one_of_each [])
                = Some (Adaptive sd)
                ∧ In "Queues" (tr_weak_topics (adaptive_test_result sd)))
    as (sd & Hdb & Hweak).
  { eexists. split; [vm_compute; reflexivity|]. vm_compute. by left. }
  revert Hdb. generalize (state_after ["Queues"] ["B"; "B"] one_of_each []). intros w Hdb.
  apply (adaptive_completion_fills_pools w sd "Queues" Hdb). right. by left.
Defined.

(** ** The unfiltered retrieval and the start of a test *)

Lemma prefix_refl s : String.prefix s s = true.
Proof. induction s as [|c s IH]; simpl; [done|]. by destruct (ascii_dec c c). Qed.

Lemma str_in_refl s : Py.str_in s s = true.
Proof. destruct s as [|c s]; [done|]. cbn [Py.str_in]. by rewrite prefix_refl. Qed.

Lemma In_random_candidates topic d bank q :
  In q (random_candidates topic d bank) → In q bank.
Proof.
  unfold random_candidates.
  destruct (alias_matches _ _ _) as [|a l] eqn:Ea.
  - destruct (partial_matches _ _ _) as [|p l'] eqn:Ep.
    + destruct (topic_matches topic bank) as [|m l''] eqn:Em; [done|].
      destruct (List.filter _ (m :: l'')) as [|c l3] eqn:Ec.
      * rewrite <- Em. unfold topic_matches. rewrite filter_In. tauto.
      * rewrite <- Ec, filter_In, <- Em. unfold topic_matches. rewrite filter_In. tauto.
    + rewrite <- Ep. unfold partial_matches. rewrite filter_In. tauto.
  - rewrite <- Ea. intros Hin. by apply In_alias_matches in Hin as [? _].
Qed.

(** X6.  The unfiltered retrieval only hands out questions of the bank; it
    finds a question whenever the bank files any question under the
    requested topic, whatever its difficulty, so it answers with nothing
    only for a topic under which nothing is filed; and when a question is
    filed under the topic at the requested (standardised) difficulty, the
    question it returns has exactly that topic and difficulty. *)
Theorem retrieval_answers_for_filed_topics
    (topic d : string) (bank : list Question) (g : Rng) :
  let r := (get_random_question_by_topic_and_difficulty topic d bank g).1 in
  (∀ q, r = Some q → In q bank)
  ∧ ((∃ q0, In q0 bank ∧ q_topic q0 = topic) → ∃ q, r = Some q)
  ∧ (r = None → ∀ q0, In q0 bank → q_topic q0 ≠ topic)
  ∧ (exact_matches topic (standard_difficulty d) bank ≠ [] →
     ∃ q, r = Some q ∧ q_topic q = topic ∧ q_difficulty q = standard_difficulty d).
Proof.
  intros r. pose proof (get_random_question_retrieved topic d bank g) as Hret.
  fold r in Hret. unfold retrieved in Hret.
  assert (Hfiled : (∃ q0, In q0 bank ∧ q_topic q0 = topic) → ∃ q, r = Some q).
  { intros (q0 & Hin & Htopic). destruct r as [q|]; [eauto|]. exfalso.
    apply (random_candidates_nonempty topic d bank); [|done].
    assert (Hm : In q0 (topic_matches topic bank)).
    { unfold topic_matches. apply filter_In. split; [done|].
      rewrite Htopic. apply str_in_refl. }
    intros Hnone. by rewrite Hnone in Hm. }
  split; [|split; [done|split]].
  - intros q Hq. rewrite Hq in Hret. by apply In_random_candidates in Hret.
  - intros Hnone q0 Hin Htopic. destruct Hfiled as [q Hq]; [eauto|]. congruence.
  - intros Hexact. unfold random_candidates, alias_matches in Hret.
    destruct (exact_matches topic (standard_difficulty d) bank) as [|e l] eqn:Ee; [done|].
    destruct r as [q|]; [|done]. exists q. split; [done|].
    rewrite <- Ee in Hret. apply In_exact_matches in Hret. tauto.
Qed.

Section Start.
Context `{Md5}.

Lemma random_question_found topic d bank w :
  random_candidates topic d bank ≠ [] →
  ∃ g q, random_question topic d bank w = (set_rng g w, Some q)
         ∧ In q (random_candidates topic d bank).
Proof.
  intros Hne. destruct (random_question_spec topic d bank w) as [Hret [g Hg]].
  destruct (random_question topic d bank w) as [w' [q|]]; simpl in *; [|done].
  exists g, q. by rewrite Hg.
Qed.

Lemma random_question_missing topic d bank w :
  random_candidates topic d bank = [] →
  ∃ g, random_question topic d bank w = (set_rng g w, None).
Proof.
  intros Hnone. destruct (random_question_spec topic d bank w) as [Hret [g Hg]].
  destruct (random_question topic d bank w) as [w' [q|]]; simpl in *.
  - by rewrite Hnone in Hret.
  - exists g. by rewrite Hg.
Qed.

(** X7.  Starting an adaptive test whose first selected topic has nothing
    in the bank tells the learner that there are no questions, but the
    session created for the selection stays in cache and store, without a
    current question; an answer sent afterwards is refused for the missing
    current question and changes nothing. *)
Theorem start_without_questions_leaves_session
    (t : string) (rest : list string) (bank : list Question) (w : World) :
  t ≠ EmptyString →
  random_candidates t "Medium" bank = [] →
  ∃ w' s,
    start_test (t :: rest) bank w = (w', shown_error "no_questions")
    ∧ cached_session w' = Some (Adaptive s)
    ∧ db_session w' = Some (Adaptive s)
    ∧ remaining_topics s = t :: rest
    ∧ current_question s = None
    ∧ ∀ answer,
        handle_adaptive_answer answer bank w'
        = (w', shown_error "No current question. Please start a new test.").
Proof.
  intros Ht Hnone. unfold start_test.
  destruct (start_adaptive_test_session_spec (t :: rest) w) as (Hc & Hd & _).
  set (w1 := start_adaptive_test_session (t :: rest) w) in *.
  unfold get_current_adaptive_topic, load_user_session. rewrite Hd.
  cbn [remaining_topics head truthy].
  destruct (String.eqb_spec t EmptyString) as [|_]; [done|].
  destruct (random_question_missing t "Medium" bank w1 Hnone) as [g ->].
  eexists _, _. split; [reflexivity|].
  rewrite cached_session_set_rng, db_session_set_rng. split; [exact Hc|]. split; [exact Hd|].
  split; [done|]. split; [done|]. intros answer.
  unfold handle_adaptive_answer, process_adaptive_answer.
  assert (Hc' : cached_session (set_rng g w1) = cached_session w1)
    by apply cached_session_set_rng.
  rewrite Hc in Hc'. destruct (cached_session_user_data _ _ Hc') as (data & -> & ->). done.
Qed.

(** X8.  Starting an adaptive test on a selection whose first topic has
    candidates in the bank shows one of the candidates of that topic at
    Medium, and leaves in cache and store the same session: the queue is
    the selection, nothing is answered or completed yet, the question
    shown is the current one and its hash is the only used hash.  An empty
    selection is refused and changes nothing. *)
Theorem start_installs_first_question
    (t : string) (rest : list string) (bank : list Question) (w : World) :
  t ≠ EmptyString →
  random_candidates t "Medium" bank ≠ [] →
  start_test [] bank w = (w, shown_error "please_select")
  ∧ ∃ w' q s,
      start_test (t :: rest) bank w = (w', shown_question q)
      ∧ In q (random_candidates t "Medium" bank)
      ∧ cached_session w' = Some (Adaptive s)
      ∧ db_session w' = Some (Adaptive s)
      ∧ topics s = t :: rest
      ∧ remaining_topics s = t :: rest
      ∧ completed_topics s = []
      ∧ answers s = []
      ∧ current_question s = Some q
      ∧ used_question_hashes s = {[ get_question_hash q ]}
      ∧ db_tests w' = db_tests w.
Proof.
  intros Ht Hsome. split; [done|]. unfold start_test.
  destruct (start_adaptive_test_session_spec (t :: rest) w) as (Hc & Hd & Htests).
  set (w1 := start_adaptive_test_session (t :: rest) w) in *.
  unfold get_current_adaptive_topic, load_user_session. rewrite Hd.
  cbn [remaining_topics head truthy].
  destruct (String.eqb_spec t EmptyString) as [|_]; [done|].
  destruct (random_question_found t "Medium" bank w1 Hsome) as (g & q & -> & Hin).
  assert (Hd1 : db_session (set_rng g w1) = db_session w1) by apply db_session_set_rng.
  assert (Hc1 : cached_session (set_rng g w1) = cached_session w1)
    by apply cached_session_set_rng.
  rewrite Hd in Hd1. rewrite Hc in Hc1.
  destruct (set_current_adaptive_question_spec q (set_rng g w1) _ _ Hd1 Hc1)
    as (Hc' & Hd' & Ht').
  eexists _, q, _. split; [reflexivity|]. split; [done|]. split; [exact Hc'|].
  split; [exact Hd'|]. cbn. do 5 (split; [done|]).
  split; [by rewrite union_empty_l_L|]. by rewrite Ht'.
Qed.

End Start.

Lemma start_without_questions_leaves_session_witness :
  ∃ w' s,
    start_test (H := short_digest) ["Heaps"; "Stacks"] stacks_bank (new_learner [])
    = (w', shown_error "no_questions")
    ∧ cached_session w' = Some (Adaptive s)
    ∧ remaining_topics s = ["Heaps"; "Stacks"]
    ∧ current_question s = None.
Proof.
  destruct (start_without_questions_leaves_session (H := short_digest)
              "Heaps" ["Stacks"] stacks_bank (new_learner []))
    as (w' & s & Hrun & Hc & _ & Hq & Hcur & _);
    [discriminate | vm_compute; reflexivity |].
  by exists w', s.
Defined.

Lemma start_installs_first_question_witness :
  ∃ w' q s,
    start_test (H := short_digest) ["Stacks"; "Queues"] stacks_bank (new_learner [])
    = (w', shown_question q)
    ∧ q_difficulty q = "Medium"
    ∧ cached_session w' = Some (Adaptive s)
    ∧ remaining_topics s = ["Stacks"; "Queues"]
    ∧ current_question s = Some q.
Proof.
  destruct (start_installs_first_question (H := short_digest)
              "Stacks" ["Queues"] stacks_bank (new_learner []))
    as (_ & w' & q & s & Hrun & Hin & Hc & _ & _ & Hq & _ & _ & Hcur & _);
    [discriminate | vm_compute; discriminate |].
  exists w', q, s. split; [exact Hrun|]. split; [|done].
  revert Hin. vm_compute. intros Hin. repeat destruct Hin as [<-|Hin]; done.
Defined.

(** ** A sitting of a fixed exam *)

(** The world in the middle of a sitting: the cache entry holds the
    sequential session. *)
Lemma exam_step_goes_on a w data s q :
  user_data w = Some data →
  current_test_session data = Some (Sequential s) →
  questions s !! current_question_index s = Some q →
  S (current_question_index s) < length (questions s) →
  let s' := {| test_type := test_type s; questions := questions s;
               current_question_index := S (current_question_index s);
               correct_answers := if graded (q, a) then S (correct_answers s)
                                  else correct_answers s;
               incorrect_topics :=
                 if graded (q, a) then incorrect_topics s
                 else Py.append_if_absent (q_topic q) (incorrect_topics s);
               seq_topics := seq_topics s;
               user_answers := user_answers s ++ [Py.upper a] |} in
  ∃ w' data' r,
    Exams.process_answer a w = (w', Ok r)
    ∧ expected_reply (questions s) (current_question_index s) (q, a) (Ok r)
    ∧ user_data w' = Some data'
    ∧ current_test_session data' = Some (Sequential s')
    ∧ db_tests w' = db_tests w
    ∧ db_weak_topics w' = db_weak_topics w.
Proof.
  intros Hdata Hs Hq Hlt s'.
  unfold Exams.process_answer, UserTracker.process_answer, UserTracker.cached_user_data.
  rewrite Hdata, Hs, Hq. cbv zeta. fold (graded (q, a)). cbn [questions current_question_index].
  assert (Hgo : (length (questions s) <=? S (current_question_index s)) = false)
    by (apply Nat.leb_gt; lia).
  rewrite Hgo. cbn [sr_test_completed].
  unfold Tracker.get_current_question, UserTracker.cached_user_data,
    set_cached_session, save_user_session.
  cbn [set_db_session user_data set_user_data current_test_session sr_correct sr_question
       sr_correct_answer sr_explanation questions current_question_index].
  rewrite Hdata. cbn [user_data set_user_data current_test_session questions
                      current_question_index].
  eexists _, _, _. split; [reflexivity|]. split.
  { cbn. rewrite !bool_decide_eq_false_2 by lia. done. }
  cbn. done.
Qed.

Lemma exam_step_completes a w data s q :
  user_data w = Some data →
  current_test_session data = Some (Sequential s) →
  questions s !! current_question_index s = Some q →
  S (current_question_index s) = length (questions s) →
  let c := if graded (q, a) then S (correct_answers s) else correct_answers s in
  let missed := if graded (q, a) then incorrect_topics s
                else Py.append_if_absent (q_topic q) (incorrect_topics s) in
  let tr := {| tr_test_type := test_type s; tr_topics := [];
               tr_score := Some (c, length (questions s));
               tr_weak_topics := missed; tr_passed_topics := [];
               tr_needs_more_training := [] |} in
  ∃ w' r,
    Exams.process_answer a w = (w', Ok r)
    ∧ expected_reply (questions s) (current_question_index s) (q, a) (Ok r)
    ∧ sr_test_results r = Some tr
    ∧ db_tests w' = db_tests w ++ [tr]
    ∧ db_weak_topics w' = insert_all missed (db_weak_topics w)
    ∧ cached_session w' = None
    ∧ db_session w' = None.
Proof.
  intros Hdata Hs Hq Hlast c missed tr.
  unfold Exams.process_answer, UserTracker.process_answer, UserTracker.cached_user_data.
  rewrite Hdata, Hs, Hq. cbv zeta. fold (graded (q, a)). cbn [questions current_question_index].
  assert (Hdone : (length (questions s) <=? S (current_question_index s)) = true)
    by (apply Nat.leb_le; lia).
  rewrite Hdone.
  unfold UserTracker.complete_test_session, UserTracker.cached_user_data,
    set_cached_session, save_user_session.
  cbn [set_db_session user_data set_user_data]. rewrite Hdata.
  cbn [user_data set_user_data current_test_session questions correct_answers
       incorrect_topics test_type].
  fold c. fold missed. fold tr.
  cbn [sr_test_completed sr_test_results sr_correct sr_question sr_correct_answer
       sr_explanation].
  eexists _, _. split; [reflexivity|]. split.
  { cbn. rewrite !bool_decide_eq_true_2 by lia. done. }
  cbn -[insert_all]. done.
Qed.

Lemma exam_run (ty : string) (qs : list Question) (tp : list string) :
  ∀ (answer_list : list string) (i c : nat) (inc ua : list string) (w : World) (data : UserInfo),
    user_data w = Some data →
    current_test_session data
    = Some (Sequential {| test_type := ty; questions := qs; current_question_index := i;
                          correct_answers := c; incorrect_topics := inc; seq_topics := tp;
                          user_answers := ua |}) →
    i < length qs →
    length answer_list = length qs - i →
    let pairs := zip (drop i qs) answer_list in
    let missed :=
      foldl (fun acc qa => if graded qa then acc
                           else Py.append_if_absent (q_topic qa.1) acc) inc pairs in
    let tr := {| tr_test_type := ty; tr_topics := [];
                 tr_score := Some (c + length (List.filter graded pairs), length qs);
                 tr_weak_topics := missed; tr_passed_topics := [];
                 tr_needs_more_training := [] |} in
    ∃ w' replies,
      Exams.take_exam answer_list w = (w', replies)
      ∧ length replies = length answer_list
      ∧ (∀ j qa r, pairs !! j = Some qa → replies !! j = Some r →
                   expected_reply qs (i + j) qa r)
      ∧ (∃ r, last replies = Some (Ok r) ∧ sr_test_results r = Some tr)
      ∧ db_tests w' = db_tests w ++ [tr]
      ∧ db_weak_topics w' = insert_all missed (db_weak_topics w)
      ∧ cached_session w' = None
      ∧ db_session w' = None.
Proof.
  induction answer_list as [|a rest IH]; intros i c inc ua w data Hdata Hs Hi Hlen.
  { cbn [length] in Hlen. lia. }
  destruct (lookup_lt_is_Some_2 qs i Hi) as [q Hq].
  rewrite (drop_S qs q i Hq). cbn [zip zip_with foldl List.filter].
  change (graded (q, a)) with (graded (q, a)).
  cbn [length] in Hlen. destruct rest as [|a' rest'].
  - (* the last answer *)
    cbn [length] in Hlen.
    assert (Hlast : S i = length qs) by lia.
    destruct (exam_step_completes a w data _ q Hdata Hs Hq Hlast)
      as (w' & r & Hrun & Hreply & Hres & Htests & Hweak & Hc & Hd).
    cbn [questions current_question_index correct_answers incorrect_topics test_type]
      in Hrun, Hreply, Hres, Htests, Hweak.
    exists w', [Ok r]. cbn [Exams.take_exam]. rewrite Hrun.
    rewrite zip_with_nil_r. cbn [foldl List.filter length].
    split; [done|]. split; [done|]. split.
    { intros [|j] qa r0 Hqa Hr0; simpl in Hqa, Hr0; [|done].
      injection Hqa as <-. injection Hr0 as <-. by rewrite Nat.add_0_r. }
    split.
    { exists r. split; [done|]. rewrite Hres.
      destruct (graded (q, a)); cbn [length fst];
      rewrite ?Nat.add_0_r, ?Nat.add_1_r, <- ?Nat.add_succ_comm; reflexivity. }
    split.
    { rewrite Htests.
      destruct (graded (q, a)); cbn [length fst];
      rewrite ?Nat.add_0_r, ?Nat.add_1_r, <- ?Nat.add_succ_comm; reflexivity. }
    done.
  - (* the sitting goes on *)
    assert (Hmore : length (a' :: rest') ≠ 0) by done.
    set (rest := a' :: rest') in *. clearbody rest.
    assert (Hgo : S i < length qs) by lia.
    destruct (exam_step_goes_on a w data _ q Hdata Hs Hq Hgo)
      as (w1 & data1 & r & Hrun & Hreply & Hdata1 & Hs1 & Htests & Hweak).
    cbn [questions current_question_index correct_answers incorrect_topics test_type
         seq_topics user_answers] in Hrun, Hreply, Hs1.
    destruct (IH (S i) _ _ _ w1 data1 Hdata1 Hs1 Hgo) as
      (w' & replies & Hrest & Hlen' & Hreplies & (rl & Hlast & Hres) & Htests' & Hweak' & Hc & Hd).
    { lia. }
    exists w', (Ok r :: replies). cbn [Exams.take_exam]. rewrite Hrun, Hrest.
    split; [done|]. split; [simpl; by rewrite Hlen'|]. split.
    { intros [|j] qa r0 Hqa Hr0; simpl in Hqa, Hr0.
      - injection Hqa as <-. injection Hr0 as <-. by rewrite Nat.add_0_r.
      - replace (i + S j) with (S i + j) by lia. by apply Hreplies. }
    split.
    { exists rl. split.
      - destruct replies as [|r1 replies']; [|exact Hlast].
        simpl in Hlen'. lia.
      - rewrite Hres.
        destruct (graded (q, a)); cbn [length fst];
        rewrite ?Nat.add_0_r, ?Nat.add_1_r, <- ?Nat.add_succ_comm; reflexivity. }
    split.
    { rewrite Htests', Htests.
      destruct (graded (q, a)); cbn [length fst];
      rewrite ?Nat.add_0_r, ?Nat.add_1_r, <- ?Nat.add_succ_comm; reflexivity. }
    split; [by rewrite Hweak', Hweak|]. done.
Qed.

Lemma start_test_session_spec ty qs w :
  ∃ data,
    user_data (UserTracker.start_test_session ty qs w) = Some data
    ∧ current_test_session data
      = Some (Sequential {| test_type := ty; questions := qs; current_question_index := 0;
                            correct_answers := 0; incorrect_topics := []; seq_topics := [];
                            user_answers := [] |})
    ∧ db_session (UserTracker.start_test_session ty qs w)
      = current_test_session data
    ∧ db_tests (UserTracker.start_test_session ty qs w) = db_tests w
    ∧ db_weak_topics (UserTracker.start_test_session ty qs w) = db_weak_topics w.
Proof.
  unfold UserTracker.start_test_session, UserTracker.cached_user_data.
  destruct (user_data w) as [data|] eqn:E;
    unfold set_cached_session, save_user_session; cbn; rewrite ?E; cbn; eauto 10.
Qed.

(** X9.  A sitting of a fixed exam from its start to its last question.
    Every answer gets a reply for the question at its position, graded by
    comparing the upper-cased answer with the stored correct answer, and
    carrying the next question of the list until the last one.  The last
    reply carries the result: the type of the test, as score the number of
    answers that matched out of the number of questions, and as weak
    topics the topics of the missed questions, each once, in the order of
    the first miss.  That result is the one row added to the history, its
    weak topics are inserted into the weak-topic table, and the session is
    gone from cache and store. *)
Theorem exam_sitting_is_scored
    (ty : string) (qs : list Question) (answer_list : list string) (w : World) :
  qs ≠ [] →
  length answer_list = length qs →
  let pairs := zip qs answer_list in
  ∃ w' replies r tr,
    Exams.take_exam answer_list (UserTracker.start_test_session ty qs w) = (w', replies)
    ∧ length replies = length qs
    ∧ (∀ i qa reply, pairs !! i = Some qa → replies !! i = Some reply →
                     expected_reply qs i qa reply)
    ∧ last replies = Some (Ok r)
    ∧ sr_test_results r = Some tr
    ∧ tr_test_type tr = ty
    ∧ tr_score tr = Some (length (List.filter graded pairs), length qs)
    ∧ tr_weak_topics tr = missed_topics pairs
    ∧ db_tests w' = db_tests w ++ [tr]
    ∧ db_weak_topics w' = insert_all (missed_topics pairs) (db_weak_topics w)
    ∧ cached_session w' = None
    ∧ db_session w' = None.
Proof.
  intros Hqs Hlen pairs.
  destruct (start_test_session_spec ty qs w) as (data & Hdata & Hs & _ & Htests & Hweak).
  destruct (exam_run ty qs [] answer_list 0 0 [] [] _ data Hdata Hs)
    as (w' & replies & Hrun & Hlen' & Hreplies & (r & Hlast & Hres) & Htests' & Hweak' & Hc & Hd).
  { destruct qs; [done|]. simpl. lia. }
  { rewrite Hlen. lia. }
  rewrite drop_0 in *. fold pairs in Hreplies, Hres, Htests', Hweak'.
  fold (missed_topics pairs) in Hres, Htests', Hweak'.
  eexists w', replies, r, _. split; [exact Hrun|]. split; [by rewrite Hlen'|].
  split; [exact Hreplies|]. split; [exact Hlast|]. split; [exact Hres|].
  cbn [tr_test_type tr_score tr_weak_topics]. do 3 (split; [done|]).
  split; [by rewrite Htests', Htests|]. split; [by rewrite Hweak', Hweak|]. done.
Qed.

Lemma exam_sitting_is_scored_witness :
  ∃ w' replies r tr,
    Exams.take_exam ["A"; "b"; "a"]
      (UserTracker.start_test_session "First Exam"
         [mcq "Stacks" "Easy" "e1"; mcq "Queues" "Easy" "e2"; mcq "Stacks" "Hard" "h1"]
         (new_learner []))
    = (w', replies)
    ∧ last replies = Some (Ok r)
    ∧ sr_test_results r = Some tr
    ∧ tr_score tr = Some (2, 3)
    ∧ tr_weak_topics tr = ["Queues"].
Proof.
  destruct (exam_sitting_is_scored "First Exam"
              [mcq "Stacks" "Easy" "e1"; mcq "Queues" "Easy" "e2"; mcq "Stacks" "Hard" "h1"]
              ["A"; "b"; "a"] (new_learner []))
    as (w' & replies & r & tr & Hrun & _ & _ & Hlast & Hres & _ & Hscore & Hweak & _).
  { simpl. discriminate. }
  { reflexivity. }
  exists w', replies, r, tr. split; [exact Hrun|]. split; [exact Hlast|].
  split; [exact Hres|]. split; [exact Hscore|exact Hweak].
Defined.

(** ** The follow-up builder of [ExamManager] *)

Lemma In_unique_by_id l : ∀ seen q, In q (ExamManager.unique_by_id seen l) → In q l.
Proof.
  induction l as [|a l IH]; intros seen q; simpl; [done|].
  destruct (Py.mem (question_id a) seen).
  - intros Hq. right. by apply IH in Hq.
  - intros [->|Hq]; [by left|]. right. by apply IH in Hq.
Qed.

Lemma choose_one_spec l g :
  ((ExamManager.choose_one l g).1 = [] ∧ l = [])
  ∨ ∃ sel, (ExamManager.choose_one l g).1 = [sel] ∧ In sel l.
Proof.
  unfold ExamManager.choose_one. destruct l as [|q l]; [by left|]. right.
  pose proof (choice_In q (q :: l) g) as Hin. destruct (choice q (q :: l) g) as [sel g'].
  exists sel. split; [done|]. by apply Hin.
Qed.

Lemma In_get_questions_by_topic topic bank g q :
  In q (ExamManager.get_questions_by_topic topic bank g).1 →
  In q bank ∧ Py.mem (q_topic q) (ExamManager.expanded_topics topic) = true.
Proof.
  unfold ExamManager.get_questions_by_topic.
  destruct (shuffle _ g) as [mcqs g'] eqn:E. simpl. intros Hq.
  apply In_unique_by_id in Hq. apply shuffle_perm in E.
  apply list_elem_of_In in Hq. rewrite E in Hq. apply list_elem_of_In in Hq.
  by apply filter_In in Hq.
Qed.

Lemma pick_spec (l : list Question) (d : string) g :
  let pick := (ExamManager.choose_one
                 (List.filter (fun q => String.eqb (q_difficulty q) d) l) g).1 in
  (pick = [] ∨ ∃ q, pick = [q] ∧ In q l ∧ q_difficulty q = d).
Proof.
  intros pick. unfold pick.
  destruct (choose_one_spec (List.filter (fun q => String.eqb (q_difficulty q) d) l) g)
    as [[-> _]|(q & -> & Hq)]; [by left|right].
  apply filter_In in Hq as [Hq Hd%String.eqb_eq]. by exists q.
Qed.

(** One pick per difficulty: the picks carry pairwise different
    difficulties. *)
Lemma picks_have_distinct_difficulties (l : list Question) g1 g2 g3 :
  let by_difficulty d := List.filter (fun q => String.eqb (q_difficulty q) d) l in
  let picks := (ExamManager.choose_one (by_difficulty "Easy") g1).1
               ++ (ExamManager.choose_one (by_difficulty "Medium") g2).1
               ++ (ExamManager.choose_one (by_difficulty "Hard") g3).1 in
  length picks ≤ 3
  ∧ NoDup (map q_difficulty picks)
  ∧ ∀ q, In q picks → In q l ∧ In (q_difficulty q) ["Easy"; "Medium"; "Hard"].
Proof.
  intros by_difficulty picks. unfold picks, by_difficulty.
  destruct (pick_spec l "Easy" g1) as [->|(e & -> & He & Hde)];
    destruct (pick_spec l "Medium" g2) as [->|(m & -> & Hm & Hdm)];
    destruct (pick_spec l "Hard" g3) as [->|(h & -> & Hh & Hdh)];
    cbn [app map length]; rewrite ?Hde, ?Hdm, ?Hdh;
    (split; [lia|]);
    (split; [by apply (bool_decide_unpack _); vm_compute|]);
    intros q Hq; simpl in Hq;
    repeat (destruct Hq as [<-|Hq]; [rewrite ?Hde, ?Hdm, ?Hdh; simpl; tauto|]);
    done.
Qed.

(** X10.  The follow-up builder of [ExamManager].  With a session already
    in the learner's cache entry it refuses and stores nothing.  When it
    succeeds, cache and store hold a sequential session of the type
    [Reevaluation: topic] at its first question, which is the one
    returned; the session has at most three questions, no two of the same
    difficulty, each a question of the bank filed under the topic or one
    of its aliases at Easy, Medium or Hard; the history is untouched. *)
Theorem exam_followup_builder_spec (topic : string) (bank : list Question) (w : World) :
  (∀ session,
     current_test_session (UserTracker.cached_user_data w).2 = Some session →
     ExamManager.start_reevaluation_test topic bank w
     = ((UserTracker.cached_user_data w).1,
        Err "You already have an active test session. Complete it first."))
  ∧ (∀ w' r,
       ExamManager.start_reevaluation_test topic bank w = (w', Ok r) →
       ∃ qs,
         cached_session w'
         = Some (Sequential {| test_type := "Reevaluation: " +:+ topic; questions := qs;
                               current_question_index := 0; correct_answers := 0;
                               incorrect_topics := []; seq_topics := [];
                               user_answers := [] |})
         ∧ db_session w' = cached_session w'
         ∧ head qs = Some (first_question r)
         ∧ length qs ≤ 3
         ∧ NoDup (map q_difficulty qs)
         ∧ (∀ q, In q qs →
                 In q bank
                 ∧ Py.mem (q_topic q) (ExamManager.expanded_topics topic) = true
                 ∧ In (q_difficulty q) ["Easy"; "Medium"; "Hard"])
         ∧ db_tests w' = db_tests w).
Proof.
  unfold ExamManager.start_reevaluation_test.
  destruct (UserTracker.cached_user_data w) as [w1 data] eqn:Ecache. cbn [fst snd].
  assert (Htests1 : db_tests w1 = db_tests w).
  { unfold UserTracker.cached_user_data in Ecache.
    destruct (user_data w); injection Ecache as <- _; done. }
  split.
  { intros session ->. done. }
  intros w' r. destruct (current_test_session data); [done|].
  pose proof (In_get_questions_by_topic topic bank (rng w1)) as Hall.
  destruct (ExamManager.get_questions_by_topic topic bank (rng w1)) as [all g0].
  cbn [fst] in Hall.
  pose proof (picks_have_distinct_difficulties all g0) as Hpicks. cbv zeta in Hpicks.
  destruct (ExamManager.choose_one _ g0) as [e g1].
  specialize (Hpicks g1). destruct (ExamManager.choose_one _ g1) as [m g2].
  specialize (Hpicks g2). destruct (ExamManager.choose_one _ g2) as [h g3].
  cbn [fst] in Hpicks. destruct Hpicks as (Hlen & Hnd & Hin).
  destruct (shuffle (e ++ m ++ h) g3) as [qs g4] eqn:Eshuffle.
  apply shuffle_perm in Eshuffle.
  destruct qs as [|q0 qs']; [done|]. intros [= <- <-].
  destruct (start_test_session_spec ("Reevaluation: " +:+ topic) (q0 :: qs') (set_rng g4 w1))
    as (data' & Hdata & Hs & Hd & Ht & _).
  exists (q0 :: qs'). unfold cached_session. rewrite Hdata, Hd, Hs.
  split; [done|]. split; [done|]. split; [done|].
  split; [by rewrite Eshuffle|]. split; [by rewrite Eshuffle|].
  split; [|by rewrite Ht].
  intros q Hq. apply list_elem_of_In in Hq. rewrite Eshuffle in Hq.
  apply list_elem_of_In in Hq. destruct (Hin q Hq) as [Hq' Hd'].
  destruct (Hall q Hq') as [Hbank Htopic]. done.
Qed.

Lemma exam_followup_builder_spec_witness :
  ∃ w' r qs,
    ExamManager.start_reevaluation_test "Queues" one_of_each (new_learner []) = (w', Ok r)
    ∧ cached_session w'
      = Some (Sequential {| test_type := "Reevaluation: Queues"; questions := qs;
                            current_question_index := 0; correct_answers := 0;
                            incorrect_topics := []; seq_topics := [];
                            user_answers := [] |})
    ∧ NoDup (map q_difficulty qs).
Proof.
  assert (∃ w' r, ExamManager.start_reevaluation_test "Queues" one_of_each (new_learner [])
                  = (w', Ok r)) as (w' & r & Hrun).
  { eexists _, _. vm_compute. reflexivity. }
  destruct (proj2 (exam_followup_builder_spec "Queues" one_of_each (new_learner [])) w' r Hrun)
    as (qs & Hc & _ & _ & _ & Hnd & _).
  exists w', r, qs. split; [exact Hrun|]. split; [exact Hc|exact Hnd].
Defined.

(** ** The topic selection *)

Lemma list_remove_In t u l :
  NoDup l → In u (list_remove t l) ↔ In u l ∧ u ≠ t.
Proof.
  induction 1 as [|y r Hy Hr IH]; simpl; [tauto|].
  destruct (String.eqb_spec y t) as [->|Hne].
  - split.
    + intros Hu. split; [by right|]. intros ->. by apply Hy, list_elem_of_In.
    + intros [[<-|Hu] Hne]; done.
  - simpl. rewrite IH. split.
    + intros [<-|[Hu Hut]]; [by split; [left|]|by split; [right|]].
    + intros [[<-|Hu] Hut]; [by left|by right].
Qed.

Lemma list_remove_NoDup t l : NoDup l → NoDup (list_remove t l).
Proof.
  induction 1 as [|y r Hy Hr IH]; simpl; [constructor|].
  destruct (String.eqb_spec y t) as [->|Hne]; [done|].
  constructor; [|done]. rewrite list_elem_of_In, list_remove_In by done.
  intros [Hin _]. by apply Hy, list_elem_of_In.
Qed.

Lemma list_remove_fresh t l : ¬ In t l → list_remove t (l ++ [t]) = l.
Proof.
  induction l as [|y r IH]; simpl; intros Hnot.
  - by rewrite String.eqb_refl.
  - destruct (String.eqb_spec y t) as [->|Hne]; [tauto|]. f_equal. apply IH. tauto.
Qed.

Lemma list_remove_perm t l : In t l → list_remove t l ++ [t] ≡ₚ l.
Proof.
  induction l as [|y r IH]; simpl; [done|]. intros Hin.
  destruct (String.eqb_spec y t) as [->|Hne].
  - symmetry. apply Permutation_cons_append.
  - simpl. constructor. apply IH. by destruct Hin.
Qed.

Lemma NoDup_snoc_fresh (t : string) l : NoDup l → ¬ In t l → NoDup (l ++ [t]).
Proof.
  intros Hl Hnot. apply NoDup_app. split; [done|]. split; [|apply NoDup_singleton].
  intros x Hx ->%list_elem_of_singleton. by apply Hnot, list_elem_of_In.
Qed.

Lemma NoDup_TOPICS : NoDup TOPICS.
Proof. apply (bool_decide_unpack (NoDup TOPICS)). vm_compute. exact Logic.I. Qed.

Lemma press_all_topics b sel : all_topics (press b sel).1 = all_topics sel.
Proof. by destruct b. Qed.

Lemma press_tidy b sel : tidy sel → on_keyboard sel b → tidy (press b sel).1.
Proof.
  intros (Hs & Ha & Hsub) Hb. destruct b as [topic| |]; simpl in *.
  - destruct (Py.mem topic (selected_topics sel)) eqn:Hm.
    + split; [by apply list_remove_NoDup|]. split; [done|].
      intros t [Ht _]%list_remove_In; auto.
    + apply mem_false_In in Hm. split; [by apply NoDup_snoc_fresh|]. split; [done|].
      intros t [Ht|[<-|[]]]%in_app_or; auto.
  - done.
  - split; [constructor|]. split; [done|]. intros t [].
Qed.

Lemma press_all_tidy buttons : ∀ sel,
  tidy sel → Forall (on_keyboard sel) buttons →
  tidy (press_all buttons sel) ∧ all_topics (press_all buttons sel) = all_topics sel.
Proof.
  induction buttons as [|b r IH]; intros sel Hsel Hb; [done|].
  apply Forall_cons in Hb as [Hb Hr]. cbn [press_all foldl].
  destruct (IH (press b sel).1) as [Ht Ha].
  - by apply press_tidy.
  - eapply Forall_impl; [exact Hr|]. intros [t| |]; simpl; [|done..].
    by rewrite press_all_topics.
  - split; [exact Ht|]. unfold press_all in Ha. by rewrite Ha, press_all_topics.
Qed.

(** X11.  Whatever buttons of the selection keyboard are pressed after it
    opens, the selection holds no topic twice and only topics of [TOPICS]
    (at most ten therefore), and the keyboard sent back ticks exactly the
    topics that are selected. *)
Theorem selection_has_no_duplicates (buttons : list Button) (b : Button) :
  Forall (on_keyboard new_selection) (buttons ++ [b]) →
  let before := press_all buttons new_selection in
  let sel := (press b before).1 in
  NoDup (selected_topics sel)
  ∧ (∀ t, In t (selected_topics sel) → In t TOPICS)
  ∧ length (selected_topics sel) ≤ 10
  ∧ (press b before).2 = map (fun t => (Py.mem t (selected_topics sel), t)) TOPICS.
Proof.
  intros [Hbs Hb]%Forall_app. rewrite Forall_singleton in Hb.
  assert (Hnew : tidy new_selection).
  { split; [constructor|]. split; [apply NoDup_TOPICS|]. intros t []. }
  destruct (press_all_tidy buttons new_selection Hnew Hbs) as [Hbefore Hall].
  cbn zeta. set (before := press_all buttons new_selection) in *.
  change (all_topics new_selection) with TOPICS in Hall.
  assert (Hb' : on_keyboard before b).
  { destruct b; [|exact Logic.I..]. unfold on_keyboard in *. rewrite Hall. exact Hb. }
  destruct (press_tidy b before Hbefore Hb') as (Hs & Ha & Hsub).
  rewrite press_all_topics, Hall in Hsub, Ha.
  split; [exact Hs|]. split; [exact Hsub|]. split.
  - change 10 with (length TOPICS). apply submseteq_length, NoDup_submseteq; [done|].
    intros t Ht. by apply list_elem_of_In, Hsub, list_elem_of_In.
  - destruct b as [topic| |]; cbn [press fst snd selected_topics all_topics]; rewrite Hall.
    + done.
    + apply map_ext_in. intros t Ht. f_equal. symmetry. by apply mem_In.
    + done.
Qed.

Lemma selection_has_no_duplicates_witness :
  let sel := (press (select_topic "Stacks")
                (press_all [select_topic "Stacks"; select_all] new_selection)).1 in
  NoDup (selected_topics sel) ∧ length (selected_topics sel) ≤ 10.
Proof.
  destruct (selection_has_no_duplicates [select_topic "Stacks"; select_all]
              (select_topic "Stacks")) as (Hs & _ & Hlen & _).
  - repeat constructor; simpl; tauto.
  - split; [exact Hs|exact Hlen].
Defined.

(** X12.  On a selection without duplicates, pressing a topic flips
    whether that topic is selected and leaves every other topic as it was;
    pressing it a second time gives back the selection it started from, up
    to the order of the topics. *)
Theorem select_topic_toggles (t : string) (sel : Selection) :
  NoDup (selected_topics sel) →
  let sel' := (press (select_topic t) sel).1 in
  (In t (selected_topics sel') ↔ ¬ In t (selected_topics sel))
  ∧ (∀ u, u ≠ t → In u (selected_topics sel') ↔ In u (selected_topics sel))
  ∧ NoDup (selected_topics sel')
  ∧ selected_topics (press (select_topic t) sel').1 ≡ₚ selected_topics sel.
Proof.
  intros Hs. cbn zeta. cbn [press fst selected_topics all_topics].
  destruct (Py.mem t (selected_topics sel)) eqn:Hm.
  - pose proof (proj1 (mem_In _ _) Hm) as Hin.
    assert (Hout : ¬ In t (list_remove t (selected_topics sel))).
    { rewrite list_remove_In by done. tauto. }
    rewrite (proj2 (mem_false_In _ _) Hout).
    split; [tauto|]. split; [|split].
    + intros u Hu. rewrite list_remove_In by done. tauto.
    + by apply list_remove_NoDup.
    + by apply list_remove_perm.
  - pose proof (proj1 (mem_false_In _ _) Hm) as Hout.
    assert (Hin : In t (selected_topics sel ++ [t])) by (apply in_or_app; right; by left).
    rewrite (proj2 (mem_In _ _) Hin).
    split; [tauto|]. split; [|split].
    + intros u Hu. rewrite in_app_iff. simpl. split; [|tauto].
      intros [?|[?|[]]]; [done|congruence].
    + by apply NoDup_snoc_fresh.
    + by rewrite list_remove_fresh.
Qed.

Lemma select_topic_toggles_witness :
  let sel := {| selected_topics := ["Stacks"; "Graphs"]; all_topics := TOPICS |} in
  let sel' := (press (select_topic "Stacks") sel).1 in
  ¬ In "Stacks" (selected_topics sel')
  ∧ selected_topics (press (select_topic "Stacks") sel').1 ≡ₚ ["Stacks"; "Graphs"].
Proof.
  destruct (select_topic_toggles "Stacks"
              {| selected_topics := ["Stacks"; "Graphs"]; all_topics := TOPICS |})
    as (Hflip & _ & _ & Hback).
  - apply (bool_decide_unpack (NoDup ["Stacks"; "Graphs"])). vm_compute. exact Logic.I.
  - split; [|exact Hback]. intros Hin. apply Hflip in Hin. apply Hin. by left.
Defined.

(** ** The mini test *)

Lemma insert_by_order_In q p l : In p (Search.insert_by_order q l) ↔ p = q ∨ In p l.
Proof.
  induction l as [|a r IH]; simpl; [intuition|].
  destruct (_ <=? _); simpl; [intuition|]. rewrite IH. intuition.
Qed.

Lemma sort_by_order_In p l : In p (Search.sort_by_order l) ↔ In p l.
Proof.
  induction l as [|a r IH]; simpl; [done|]. rewrite insert_by_order_In, IH. intuition.
Qed.

Lemma first_return_Some {A B} (f : A → option B) l b :
  Search.first_return f l = Some b → ∃ a, In a l ∧ f a = Some b.
Proof.
  induction l as [|a r IH]; simpl; [done|]. destruct (f a) as [b'|] eqn:E.
  - intros [= <-]. eauto.
  - intros (a' & ? & ?)%IH. eauto.
Qed.

Lemma first_return_None {A B} (f : A → option B) l :
  Search.first_return f l = None → ∀ a, In a l → f a = None.
Proof.
  induction l as [|a r IH]; simpl; [done|]. destruct (f a) as [b'|] eqn:E; [done|].
  intros Hr a' [<-|Hin]; auto.
Qed.

(** The names under which the questions of [topic] may be filed. *)
Lemma names_expanded topic entry variation :
  In entry TOPIC_MAPPING →
  String.eqb topic entry.1 || Py.mem topic entry.2 = true →
  In variation (entry.1 :: entry.2) →
  In variation (ExamManager.expanded_topics topic).
Proof.
  intros He Hn Hv. unfold ExamManager.expanded_topics. right.
  apply in_flat_map. exists entry. split; [done|]. rewrite Hn.
  apply in_or_app. destruct Hv as [<-|Hv]; [right; by left|by left].
Qed.

Lemma In_last_resort topic mcqs q :
  Search.last_resort topic mcqs = Some q →
  In q mcqs ∧ In (q_topic q) (ExamManager.expanded_topics topic).
Proof.
  unfold Search.last_resort. intros (entry & He & Hq)%first_return_Some.
  destruct (_ || _) eqn:Hn; [|done].
  apply first_return_Some in Hq as (variation & Hv & Hq).
  destruct (Search.sort_by_order _) as [|a l] eqn:Es; [done|]. injection Hq as <-.
  assert (Hin : In a (Search.sort_by_order
                        (List.filter (fun q => String.eqb (q_topic q) variation) mcqs)))
    by (rewrite Es; by left).
  apply sort_by_order_In, filter_In in Hin as [Hin Ht]. apply String.eqb_eq in Ht.
  split; [done|]. rewrite Ht. by eapply names_expanded.
Qed.

Lemma In_partial_matches topic d mcqs q :
  In q (partial_matches topic d mcqs)
  ↔ In q mcqs ∧ Py.str_in (Py.lower topic) (Py.lower (q_topic q)) = true
    ∧ Py.str_in (Py.lower d) (Py.lower (q_difficulty q)) = true.
Proof. unfold partial_matches. rewrite filter_In, andb_true_iff. tauto. Qed.

Lemma search_random_In topic d mcqs g q :
  (Search.get_random_question_by_topic_and_difficulty topic d mcqs g).1 = Some q →
  In q mcqs.
Proof.
  unfold Search.get_random_question_by_topic_and_difficulty.
  destruct (alias_matches _ _ _) as [|a l] eqn:Ea.
  - destruct (partial_matches _ _ _) as [|p l'] eqn:Ep.
    + simpl. by intros [? _]%In_last_resort.
    + simpl. intros [= <-].
      assert (Hin : In (choice p (p :: l') g).1
                       (partial_matches topic (standard_difficulty d) mcqs))
        by (rewrite Ep; by apply choice_In).
      apply In_partial_matches in Hin. tauto.
  - simpl. intros [= <-].
    assert (Hin : In (choice a (a :: l) g).1
                     (alias_matches topic (standard_difficulty d) mcqs))
      by (rewrite Ea; by apply choice_In).
    apply In_alias_matches in Hin. tauto.
Qed.

Lemma search_random_exact topic d mcqs g :
  exact_matches topic (standard_difficulty d) mcqs ≠ [] →
  ∃ q, (Search.get_random_question_by_topic_and_difficulty topic d mcqs g).1 = Some q
       ∧ q_topic q = topic ∧ q_difficulty q = standard_difficulty d.
Proof.
  intros Hne. unfold Search.get_random_question_by_topic_and_difficulty, alias_matches.
  destruct (exact_matches _ _ _) as [|a l] eqn:Ea; [done|].
  eexists. split; [reflexivity|].
  assert (Hin : In (choice a (a :: l) g).1
                   (exact_matches topic (standard_difficulty d) mcqs))
    by (rewrite Ea; by apply choice_In).
  apply In_exact_matches in Hin. tauto.
Qed.

Lemma draws_for_spec mcqs st topic :
  ∃ new,
    (Search.draws_for mcqs st topic).1 = st.1 ++ new
    ∧ length new ≤ 3
    ∧ (∀ q, In q new → In q mcqs)
    ∧ ∀ d, In d ["Easy"; "Medium"; "Hard"] → exact_matches topic d mcqs ≠ [] →
           ∃ q, In q new ∧ q_topic q = topic ∧ q_difficulty q = d.
Proof.
  destruct st as [acc g]. unfold Search.draws_for. cbn [foldl fst snd].
  pose proof (search_random_In topic "Easy" mcqs g) as Hi1.
  pose proof (search_random_exact topic "Easy" mcqs g) as He1.
  destruct (Search.get_random_question_by_topic_and_difficulty topic "Easy" mcqs g)
    as [r1 g1]. cbn [fst snd] in *.
  set (st1 := match r1 with Some question => (acc ++ [question], g1) | None => (acc, g1) end).
  assert (Hg1 : st1.2 = g1) by (subst st1; by destruct r1). rewrite Hg1.
  pose proof (search_random_In topic "Medium" mcqs g1) as Hi2.
  pose proof (search_random_exact topic "Medium" mcqs g1) as He2.
  destruct (Search.get_random_question_by_topic_and_difficulty topic "Medium" mcqs g1)
    as [r2 g2]. cbn [fst snd] in *.
  set (st2 := match r2 with Some question => (st1.1 ++ [question], g2) | None => (st1.1, g2) end).
  assert (Hg2 : st2.2 = g2) by (subst st2; by destruct r2). rewrite Hg2.
  pose proof (search_random_In topic "Hard" mcqs g2) as Hi3.
  pose proof (search_random_exact topic "Hard" mcqs g2) as He3.
  destruct (Search.get_random_question_by_topic_and_difficulty topic "Hard" mcqs g2)
    as [r3 g3]. cbn [fst snd] in *.
  exists (option_list r1 ++ option_list r2 ++ option_list r3).
  split; [|split; [|split]].
  - subst st2 st1. destruct r1, r2, r3; cbn; by rewrite <- ?app_assoc, ?app_nil_r.
  - destruct r1, r2, r3; cbn; lia.
  - intros q Hq. rewrite !in_app_iff in Hq.
    destruct Hq as [Hq|[Hq|Hq]]; [destruct r1|destruct r2|destruct r3];
      cbn in Hq; try done; destruct Hq as [<-|[]]; auto.
  - intros d Hd Hne. change (standard_difficulty "Easy") with "Easy" in He1.
    change (standard_difficulty "Medium") with "Medium" in He2.
    change (standard_difficulty "Hard") with "Hard" in He3.
    destruct Hd as [<-|[<-|[<-|[]]]].
    + destruct (He1 Hne) as (q & -> & ? & ?). exists q. split; [by left|done].
    + destruct (He2 Hne) as (q & -> & ? & ?). exists q. split; [|done].
      apply in_or_app. right. by left.
    + destruct (He3 Hne) as (q & -> & ? & ?). exists q. split; [|done].
      apply in_or_app. right. apply in_or_app. right. by left.
Qed.

Lemma mini_test_draws_spec mcqs weak_topics : ∀ st,
  let r := foldl (Search.draws_for mcqs) st weak_topics in
  ∃ new,
    r.1 = st.1 ++ new
    ∧ length new ≤ 3 * length weak_topics
    ∧ (∀ q, In q new → In q mcqs)
    ∧ ∀ t d, In t weak_topics → In d ["Easy"; "Medium"; "Hard"] →
             exact_matches t d mcqs ≠ [] →
             ∃ q, In q new ∧ q_topic q = t ∧ q_difficulty q = d.
Proof.
  induction weak_topics as [|t rest IH]; intros st; cbn zeta.
  - exists []. rewrite app_nil_r. simpl. split; [done|]. split; [lia|]. split; [done|].
    intros ? ? [].
  - cbn [foldl]. destruct (draws_for_spec mcqs st t) as (new1 & H1 & Hl1 & Hi1 & He1).
    destruct (IH (Search.draws_for mcqs st t)) as (new2 & H2 & Hl2 & Hi2 & He2).
    exists (new1 ++ new2). split; [|split; [|split]].
    + by rewrite H2, H1, app_assoc.
    + rewrite length_app. simpl. lia.
    + intros q [?|?]%in_app_or; auto.
    + intros t' d [<-|Ht'] Hd Hne.
      * destruct (He1 d Hd Hne) as (q & ? & ?). exists q. split; [|done].
        apply in_or_app. by left.
      * destruct (He2 t' d Ht' Hd Hne) as (q & ? & ?). exists q. split; [|done].
        apply in_or_app. by right.
Qed.

Lemma get_questions_for_mini_test_spec weak_topics mcqs g :
  let qs := (Search.get_questions_for_mini_test weak_topics mcqs g).1 in
  length qs ≤ 3 * length weak_topics
  ∧ (∀ q, In q qs → In q mcqs)
  ∧ ∀ t d, In t weak_topics → In d ["Easy"; "Medium"; "Hard"] →
           exact_matches t d mcqs ≠ [] →
           ∃ q, In q qs ∧ q_topic q = t ∧ q_difficulty q = d.
Proof.
  unfold Search.get_questions_for_mini_test, Search.mini_test_draws.
  destruct (mini_test_draws_spec mcqs weak_topics ([], g)) as (new & Hr & Hl & Hi & He).
  destruct (foldl (Search.draws_for mcqs) ([], g) weak_topics) as [result g1].
  cbn [fst snd app] in Hr. subst new.
  destruct (shuffle result g1) as [qs g2] eqn:Es. apply shuffle_perm in Es. cbn [fst].
  split; [by rewrite Es|]. split.
  - intros q Hq. apply Hi. apply list_elem_of_In. rewrite <- Es. by apply list_elem_of_In.
  - intros t d Ht Hd Hne. destruct (He t d Ht Hd Hne) as (q & Hq & ?). exists q.
    split; [|done]. apply list_elem_of_In. rewrite Es. by apply list_elem_of_In.
Qed.

Lemma current_question_after_start ty qs w :
  (Tracker.get_current_question (UserTracker.start_test_session ty qs w))
  = (UserTracker.start_test_session ty qs w, head qs).
Proof.
  destruct (start_test_session_spec ty qs w) as (data & Hdata & Hs & _).
  unfold Tracker.get_current_question, UserTracker.cached_user_data.
  rewrite Hdata, Hs. cbn. by destruct qs.
Qed.

(** X13.  The mini test of a learner without a running test and with weak
    topics on record.  Its questions are drawn from the bank, at most three
    per weak topic, and for every weak topic and each of Easy, Medium and
    Hard at which the bank files a question under that very topic, one
    question of that topic and difficulty is among them.  If the draws
    found nothing the start is refused and nothing is stored; otherwise a
    fresh session of type Mini Test over these questions is put in cache
    and store and its first question is returned, while the history and
    the weak topics stay as they were. *)
Theorem mini_test_covers_weak_topics (mcqs : list Question) (w : World) :
  (Tracker.has_active_test w).2 = false →
  db_weak_topics w ≠ [] →
  let qs := (Search.get_questions_for_mini_test (db_weak_topics w) mcqs (rng w)).1 in
  length qs ≤ 3 * length (db_weak_topics w)
  ∧ (∀ q, In q qs → In q mcqs)
  ∧ (∀ t d, In t (db_weak_topics w) → In d ["Easy"; "Medium"; "Hard"] →
            exact_matches t d mcqs ≠ [] →
            ∃ q, In q qs ∧ q_topic q = t ∧ q_difficulty q = d)
  ∧ ∃ w',
      db_tests w' = db_tests w
      ∧ db_weak_topics w' = db_weak_topics w
      ∧ match qs with
        | [] =>
            MiniTest.start_mini_test mcqs w
            = (w', Err "Failed to create mini test. No questions available for your weak topics.")
            ∧ cached_session w' = None
            ∧ db_session w' = db_session w
        | q :: _ =>
            MiniTest.start_mini_test mcqs w = (w', Ok {| st_first_question := Some q |})
            ∧ cached_session w'
              = Some (Sequential
                  {| test_type := "Mini Test"; questions := qs; current_question_index := 0;
                     correct_answers := 0; incorrect_topics := []; seq_topics := [];
                     user_answers := [] |})
            ∧ db_session w' = cached_session w'
        end.
Proof.
  intros Hidle Hweak qs.
  destruct (get_questions_for_mini_test_spec (db_weak_topics w) mcqs (rng w))
    as (Hlen & Hin & Hcover). fold qs in Hlen, Hin, Hcover.
  split; [exact Hlen|]. split; [exact Hin|]. split; [exact Hcover|].
  unfold MiniTest.start_mini_test.
  unfold Tracker.has_active_test in *.
  destruct (UserTracker.cached_user_data w) as [w1 data] eqn:Ec. cbn [snd] in Hidle.
  assert (Hw1 : user_data w1 = Some data ∧ db_weak_topics w1 = db_weak_topics w
                ∧ db_tests w1 = db_tests w ∧ rng w1 = rng w ∧ db_session w1 = db_session w).
  { unfold UserTracker.cached_user_data in Ec.
    destruct (user_data w) as [d|] eqn:Eu; injection Ec as <- <-; cbn; by rewrite ?Eu. }
  destruct Hw1 as (Hu & Hwk & Hts & Hrng & Hdb).
  destruct (current_test_session data) as [?|] eqn:Es; [done|].
  rewrite Hwk, Hrng. destruct (db_weak_topics w) as [|t0 rest] eqn:Ew; [done|].
  subst qs. destruct (Search.get_questions_for_mini_test (t0 :: rest) mcqs (rng w))
    as [[|q qs] g] eqn:Eq; cbn [fst].
  - exists (set_rng g w1). cbn. rewrite ?Hts, ?Hwk, ?Hdb. split; [done|]. split; [done|].
    split; [done|]. split; [|done]. unfold cached_session. cbn. by rewrite Hu, Es.
  - rewrite current_question_after_start.
    destruct (start_test_session_spec "Mini Test" (q :: qs) (set_rng g w1))
      as (data' & Hdata' & Hs' & Hd' & Hts' & Hwk').
    eexists. split; [|split; [|split; [reflexivity|]]].
    + by rewrite Hts'.
    + by rewrite Hwk'.
    + unfold cached_session at 1 2. rewrite Hdata', Hs'. split; [done|].
      by rewrite Hd', Hs'.
Qed.

Lemma mini_test_covers_weak_topics_witness :
  let w := set_db_weak_topics ["Queues"] (new_learner []) in
  let qs := (Search.get_questions_for_mini_test ["Queues"] one_of_each []).1 in
  length qs ≤ 3
  ∧ ∃ q, In q qs ∧ q_topic q = "Queues" ∧ q_difficulty q = "Hard".
Proof.
  destruct (mini_test_covers_weak_topics one_of_each
              (set_db_weak_topics ["Queues"] (new_learner [])))
    as (Hlen & _ & Hcover & _); [reflexivity|discriminate|].
  split; [exact Hlen|]. apply Hcover; [by left|right; right; by left|].
  vm_compute. discriminate.
Defined.

Lemma variation_matches_names topic d mcqs p :
  In p (variation_matches topic d mcqs) → In (q_topic p) (ExamManager.expanded_topics topic).
Proof.
  unfold variation_matches. rewrite in_flat_map. intros (entry & He & Hp).
  destruct (_ || _) eqn:Hn; [|done].
  apply in_flat_map in Hp as (v & Hv & Hp). apply In_exact_matches in Hp as (_ & -> & _).
  by eapply names_expanded.
Qed.

Lemma alias_matches_names topic d mcqs p :
  In p (alias_matches topic d mcqs) → In (q_topic p) (ExamManager.expanded_topics topic).
Proof.
  unfold alias_matches. destruct (exact_matches topic d mcqs) as [|a l] eqn:E.
  - apply variation_matches_names.
  - rewrite <- E, In_exact_matches. intros (_ & -> & _). by left.
Qed.

Lemma nothing_in {A} (l : list A) : (∀ x, ¬ In x l) → l = [].
Proof. destruct l as [|a l]; [done|]. intros Hl. destruct (Hl a). by left. Qed.

Lemma main_topic_entry t : In t TOPICS → ∃ variations, In (t, variations) TOPIC_MAPPING.
Proof.
  intros Ht. repeat (destruct Ht as [<-|Ht]; [eexists; unfold TOPIC_MAPPING; simpl; eauto 12|]).
  destruct Ht.
Qed.

Lemma other_level_not_within d d' :
  In d ["Easy"; "Medium"; "Hard"] → In d' ["Easy"; "Medium"; "Hard"] → d ≠ d' →
  Py.str_in (Py.lower d) (Py.lower d') = false.
Proof.
  intros Hd Hd' Hne.
  repeat (destruct Hd as [<-|Hd]); try destruct Hd;
    repeat (destruct Hd' as [<-|Hd']); try destruct Hd'; done.
Qed.

Section Lone.
Variables (t : string) (q : Question) (mcqs : list Question).
Hypothesis Hmain : In t TOPICS.
Hypothesis Hq : In q mcqs.
Hypothesis Htopic : q_topic q = t.
Hypothesis Hlevel : In (q_difficulty q) ["Easy"; "Medium"; "Hard"].
Hypothesis Hlone : ∀ p, In p mcqs →
  p = q ∨ (Py.str_in (Py.lower t) (Py.lower (q_topic p)) = false
           ∧ ¬ In (q_topic p) (ExamManager.expanded_topics t)).

Lemma lone_named p : In p mcqs → In (q_topic p) (ExamManager.expanded_topics t) → p = q.
Proof. intros Hp Hn. destruct (Hlone p Hp) as [|[_ Hno]]; done. Qed.

Lemma lone_last_resort : Search.last_resort t mcqs = Some q.
Proof.
  destruct (Search.last_resort t mcqs) as [p|] eqn:E.
  - apply In_last_resort in E as [Hp Hn]. f_equal. by apply lone_named.
  - exfalso. destruct (main_topic_entry t Hmain) as [variations He].
    unfold Search.last_resort in E.
    pose proof (first_return_None _ _ E _ He) as Hentry. cbn [fst snd] in Hentry.
    rewrite String.eqb_refl in Hentry. cbn [orb] in Hentry.
    pose proof (first_return_None _ _ Hentry t (or_introl eq_refl)) as Hhead.
    cbv beta in Hhead.
    assert (Hin : In q (Search.sort_by_order
                         (List.filter (fun p => String.eqb (q_topic p) t) mcqs))).
    { apply sort_by_order_In, filter_In. split; [done|]. by apply String.eqb_eq. }
    destruct (Search.sort_by_order _); [destruct Hin|discriminate Hhead].
Qed.

Lemma lone_draw d g :
  In d ["Easy"; "Medium"; "Hard"] →
  (Search.get_random_question_by_topic_and_difficulty t d mcqs g).1 = Some q.
Proof.
  intros Hd.
  assert (Hstd : standard_difficulty d = d)
    by (repeat (destruct Hd as [<-|Hd]; [done|]); destruct Hd).
  destruct (String.eqb_spec d (q_difficulty q)) as [->|Hne].
  - destruct (search_random_exact t (q_difficulty q) mcqs g) as (p & Hp & Hpt & _).
    + rewrite Hstd. intros Hnone.
      assert (Hin : In q (exact_matches t (q_difficulty q) mcqs))
        by (by apply In_exact_matches).
      by rewrite Hnone in Hin.
    + rewrite Hp. f_equal. apply lone_named.
      * eapply search_random_In, Hp.
      * rewrite Hpt. by left.
  - unfold Search.get_random_question_by_topic_and_difficulty. rewrite Hstd.
    rewrite (nothing_in (alias_matches t d mcqs)).
    + rewrite (nothing_in (partial_matches t d mcqs)); [apply lone_last_resort|].
      intros p (Hp & Hpt & Hpd)%In_partial_matches.
      destruct (Hlone p Hp) as [->|[Hno _]]; [|congruence].
      by rewrite other_level_not_within in Hpd.
    + intros p Hp. pose proof (alias_matches_names _ _ _ _ Hp) as Hn.
      apply In_alias_matches in Hp as [Hp Hpd].
      apply Hne. rewrite <- Hpd. f_equal. by apply lone_named.
Qed.

Lemma lone_draws g : (Search.mini_test_draws [t] mcqs g).1 = [q; q; q].
Proof.
  unfold Search.mini_test_draws, Search.draws_for. cbn [foldl fst snd].
  pose proof (lone_draw "Easy" g (or_introl eq_refl)) as H1.
  destruct (Search.get_random_question_by_topic_and_difficulty t "Easy" mcqs g) as [r1 g1].
  cbn [fst] in H1. subst r1. cbn [fst snd].
  pose proof (lone_draw "Medium" g1 (or_intror (or_introl eq_refl))) as H2.
  destruct (Search.get_random_question_by_topic_and_difficulty t "Medium" mcqs g1) as [r2 g2].
  cbn [fst] in H2. subst r2. cbn [fst snd].
  pose proof (lone_draw "Hard" g2 (or_intror (or_intror (or_introl eq_refl)))) as H3.
  destruct (Search.get_random_question_by_topic_and_difficulty t "Hard" mcqs g2) as [r3 g3].
  cbn [fst] in H3. subst r3. done.
Qed.

Lemma lone_mini_test g : (Search.get_questions_for_mini_test [t] mcqs g).1 = [q; q; q].
Proof.
  unfold Search.get_questions_for_mini_test. pose proof (lone_draws g) as Hdraws.
  destruct (Search.mini_test_draws [t] mcqs g) as [result g1]. cbn [fst] in Hdraws.
  subst result. destruct (shuffle [q; q; q] g1) as [r g2] eqn:Es. cbn [fst].
  apply shuffle_perm in Es.
  assert (Hall : ∀ p, In p r → p = q).
  { intros p Hp. apply list_elem_of_In in Hp. rewrite Es in Hp.
    apply list_elem_of_In in Hp. simpl in Hp. intuition. }
  apply Permutation_length in Es.
  destruct r as [|a [|b [|c [|]]]]; try done.
  rewrite (Hall a), (Hall b), (Hall c); simpl; auto.
Qed.

End Lone.

(** X14.  A weak topic of [TOPICS] with a single question in the bank, at
    Easy, Medium or Hard, and nothing else filed under the topic, one of
    its other names or a topic that contains its name: the draws for the
    two other difficulties fall back on that same question, so the mini
    test of a learner with this one weak topic consists of the question
    three times. *)
Theorem mini_test_repeats_lone_question
    (t : string) (q : Question) (mcqs : list Question) (w : World) :
  In t TOPICS →
  In q mcqs →
  q_topic q = t →
  In (q_difficulty q) ["Easy"; "Medium"; "Hard"] →
  (∀ p, In p mcqs →
        p = q ∨ (Py.str_in (Py.lower t) (Py.lower (q_topic p)) = false
                 ∧ ¬ In (q_topic p) (ExamManager.expanded_topics t))) →
  (Tracker.has_active_test w).2 = false →
  db_weak_topics w = [t] →
  ∃ w',
    MiniTest.start_mini_test mcqs w = (w', Ok {| st_first_question := Some q |})
    ∧ cached_session w'
      = Some (Sequential
          {| test_type := "Mini Test"; questions := [q; q; q]; current_question_index := 0;
             correct_answers := 0; incorrect_topics := []; seq_topics := [];
             user_answers := [] |})
    ∧ db_session w' = cached_session w'.
Proof.
  intros Hmain Hq Htopic Hlevel Hlone Hidle Hweak.
  pose proof (lone_mini_test t q mcqs Hmain Hq Htopic Hlevel Hlone (rng w)) as Hqs.
  unfold MiniTest.start_mini_test. unfold Tracker.has_active_test in *.
  destruct (UserTracker.cached_user_data w) as [w1 data] eqn:Ec. cbn [snd] in Hidle.
  assert (Hw1 : db_weak_topics w1 = db_weak_topics w ∧ rng w1 = rng w).
  { unfold UserTracker.cached_user_data in Ec.
    destruct (user_data w) as [d|] eqn:Eu; by injection Ec as <- <-. }
  destruct Hw1 as [Hwk Hrng].
  destruct (current_test_session data) as [?|] eqn:Es; [done|].
  rewrite Hwk, Hrng, Hweak.
  destruct (Search.get_questions_for_mini_test [t] mcqs (rng w)) as [qs g]. cbn [fst] in Hqs.
  subst qs. rewrite current_question_after_start.
  destruct (start_test_session_spec "Mini Test" [q; q; q] (set_rng g w1))
    as (data' & Hdata' & Hs' & Hd' & _).
  eexists. split; [reflexivity|]. unfold cached_session at 1 2. rewrite Hdata', Hs'.
  split; [done|]. by rewrite Hd', Hs'.
Qed.

Lemma mini_test_repeats_lone_question_witness :
  ∃ w',
    MiniTest.start_mini_test medium_only (set_db_weak_topics ["Queues"] (new_learner []))
    = (w', Ok {| st_first_question := Some (mcq "Queues" "Medium" "m1") |})
    ∧ cached_session w'
      = Some (Sequential
          {| test_type := "Mini Test";
             questions := [mcq "Queues" "Medium" "m1"; mcq "Queues" "Medium" "m1";
                           mcq "Queues" "Medium" "m1"];
             current_question_index := 0; correct_answers := 0; incorrect_topics := [];
             seq_topics := []; user_answers := [] |}).
Proof.
  destruct (mini_test_repeats_lone_question "Queues" (mcq "Queues" "Medium" "m1") medium_only
              (set_db_weak_topics ["Queues"] (new_learner [])))
    as (w' & Hrun & Hc & _).
  - vm_compute. tauto.
  - by left.
  - reflexivity.
  - vm_compute. tauto.
  - intros p [<-|[]]. by left.
  - reflexivity.
  - reflexivity.
  - by exists w'.
Defined.

(** ** A sitting of a follow-up test *)

Lemma process_followup_answer_unfold advanced a s w :
  load_user_session w = Some (Sequential s) →
  followup_kind advanced s →
  process_followup_answer advanced a w
  = process_sequential_answer (followup_is_weak advanced) (followup_result_type advanced) a s w.
Proof.
  intros Hload Hkind. unfold process_followup_answer, followup_kind in *. destruct advanced.
  - unfold process_reevaluation_answer_advanced. rewrite Hload. cbn [session_test_type].
    by rewrite Hkind.
  - unfold process_reevaluation_answer. rewrite Hload. cbn [session_test_type].
    by destruct Hkind as [-> ->].
Qed.

Lemma followup_step_goes_on advanced a w s q :
  load_user_session w = Some (Sequential s) →
  followup_kind advanced s →
  questions s !! current_question_index s = Some q →
  S (current_question_index s) < length (questions s) →
  ∃ w' r,
    process_followup_answer advanced a w = (w', Ok r)
    ∧ followup_reply (questions s) (current_question_index s) (q, a) (Ok r)
    ∧ load_user_session w'
      = Some (Sequential (score_answer None (graded_upper (q, a)) q s))
    ∧ db_tests w' = db_tests w
    ∧ (∀ x, known_weak w' x ↔ known_weak w x)
    ∧ (∀ x, known_needs_training w' x ↔ known_needs_training w x).
Proof.
  intros Hload Hkind Hq Hlt. rewrite (process_followup_answer_unfold _ _ s) by done.
  unfold process_sequential_answer. rewrite Hq.
  change (String.eqb (Py.upper a) (Py.upper (q_correct_answer q)))
    with (graded_upper (q, a)).
  cbn [score_answer questions current_question_index correct_answers seq_topics].
  assert (Hgo : (length (questions s) <=? S (current_question_index s)) = false)
    by (apply Nat.leb_gt; lia).
  rewrite Hgo. eexists _, _. split; [reflexivity|]. split.
  { cbn. rewrite !bool_decide_eq_false_2 by lia. done. }
  unfold known_weak, known_needs_training, cached_weak_pool, cached_needs_pool.
  destruct w as [[d|] dbs dbw dbn dbt g]; (split; [done|]); (split; [done|]);
    split; intros x; cbn -[insert_all]; rewrite ?In_insert_all; tauto.
Qed.

Lemma followup_step_completes advanced a w s q :
  load_user_session w = Some (Sequential s) →
  followup_kind advanced s →
  questions s !! current_question_index s = Some q →
  S (current_question_index s) = length (questions s) →
  let c := if graded_upper (q, a) then S (correct_answers s) else correct_answers s in
  let weak := if followup_is_weak advanced c (length (questions s))
              then seq_topics s else [] in
  let tr := {| tr_test_type := followup_result_type advanced s; tr_topics := seq_topics s;
               tr_score := Some (c, length (questions s));
               tr_weak_topics := weak; tr_passed_topics := [];
               tr_needs_more_training := [] |} in
  ∃ w' r,
    process_followup_answer advanced a w = (w', Ok r)
    ∧ followup_reply (questions s) (current_question_index s) (q, a) (Ok r)
    ∧ sr_test_results r = Some tr
    ∧ db_tests w' = db_tests w ++ [tr]
    ∧ cached_session w' = None
    ∧ load_user_session w' = None
    ∧ (∀ x, In x (db_weak_topics w') ↔ In x weak ∨ known_weak w x)
    ∧ (∀ x, In x (db_needs_training w') ↔ known_needs_training w x).
Proof.
  intros Hload Hkind Hq Hlast c weak tr.
  rewrite (process_followup_answer_unfold _ _ s) by done.
  unfold process_sequential_answer. rewrite Hq. cbv zeta.
  change (String.eqb (Py.upper a) (Py.upper (q_correct_answer q)))
    with (graded_upper (q, a)).
  set (s' := score_answer None (graded_upper (q, a)) q s).
  assert (Hqs : questions s' = questions s) by done.
  assert (Hidx : current_question_index s' = S (current_question_index s)) by done.
  assert (Hc : correct_answers s' = c) by done.
  assert (Htp : seq_topics s' = seq_topics s) by done.
  assert (Hty : followup_result_type advanced s' = followup_result_type advanced s)
    by (by destruct advanced).
  rewrite Hqs, Hidx, Hc, Htp, Hty.
  assert (Hdone : (length (questions s) <=? S (current_question_index s)) = true)
    by (apply Nat.leb_le; lia).
  rewrite Hdone. fold weak. fold tr.
  eexists _, _. split; [reflexivity|]. split.
  { cbn. rewrite !bool_decide_eq_true_2 by lia. done. }
  split; [done|].
  unfold known_weak, known_needs_training, cached_weak_pool, cached_needs_pool.
  clearbody tr weak c s'.
  destruct w as [[d|] dbs dbw dbn dbt g]; (split; [done|]); (split; [done|]);
    (split; [done|]); split; intros x; cbn -[insert_all]; rewrite ?In_insert_all; tauto.
Qed.

Lemma followup_kind_test_type advanced s s' :
  test_type s' = test_type s → followup_kind advanced s → followup_kind advanced s'.
Proof. unfold followup_kind. by intros ->. Qed.

Lemma followup_run (advanced : bool) (ty : string) (qs : list Question) (tp ua : list string) :
  ∀ (answer_list : list string) (i c : nat) (inc : list string) (w : World),
    let s := {| test_type := ty; questions := qs; current_question_index := i;
                correct_answers := c; incorrect_topics := inc; seq_topics := tp;
                user_answers := ua |} in
    load_user_session w = Some (Sequential s) →
    followup_kind advanced s →
    i < length qs →
    length answer_list = length qs - i →
    let pairs := zip (drop i qs) answer_list in
    let right := c + length (List.filter graded_upper pairs) in
    let weak := if followup_is_weak advanced right (length qs) then tp else [] in
    let tr := {| tr_test_type := followup_result_type advanced s; tr_topics := tp;
                 tr_score := Some (right, length qs);
                 tr_weak_topics := weak; tr_passed_topics := [];
                 tr_needs_more_training := [] |} in
    ∃ w' replies,
      take_followup advanced answer_list w = (w', replies)
      ∧ length replies = length answer_list
      ∧ (∀ j qa r, pairs !! j = Some qa → replies !! j = Some r →
                   followup_reply qs (i + j) qa r)
      ∧ (∃ r, last replies = Some (Ok r) ∧ sr_test_results r = Some tr)
      ∧ db_tests w' = db_tests w ++ [tr]
      ∧ cached_session w' = None
      ∧ load_user_session w' = None
      ∧ (∀ x, In x (db_weak_topics w') ↔ In x weak ∨ known_weak w x)
      ∧ (∀ x, In x (db_needs_training w') ↔ known_needs_training w x).
Proof.
  induction answer_list as [|a rest IH]; intros i c inc w s Hload Hkind Hi Hlen.
  { cbn [length] in Hlen. lia. }
  destruct (lookup_lt_is_Some_2 qs i Hi) as [q Hq].
  rewrite (drop_S qs q i Hq). cbn [zip zip_with List.filter].
  cbn [length] in Hlen. destruct rest as [|a' rest'].
  - (* the last answer *)
    cbn [length] in Hlen.
    assert (Hlast : S (current_question_index s) = length (questions s)) by (simpl; lia).
    destruct (followup_step_completes advanced a w s q Hload Hkind Hq Hlast)
      as (w' & r & Hrun & Hreply & Hres & Htests & Hc & Hd & Hweak & Hneeds).
    cbn [s questions current_question_index correct_answers seq_topics]
      in Hreply, Hres, Htests, Hweak.
    exists w', [Ok r]. cbn [take_followup]. rewrite Hrun.
    rewrite zip_with_nil_r.
    assert (Hright : c + length (if graded_upper (q, a) then [(q, a)] else [])
                     = if graded_upper (q, a) then S c else c).
    { destruct (graded_upper (q, a)); simpl; lia. }
    cbn [List.filter]. rewrite Hright.
    split; [done|]. split; [done|]. split.
    { intros [|j] qa r0 Hqa Hr0; simpl in Hqa, Hr0; [|done].
      injection Hqa as <-. injection Hr0 as <-. by rewrite Nat.add_0_r. }
    split; [by exists r|]. done.
  - (* the sitting goes on *)
    set (rest := a' :: rest') in *.
    assert (Hmore : 0 < length rest) by (simpl; lia). clearbody rest.
    assert (Hgo : S (current_question_index s) < length (questions s)) by (simpl; lia).
    destruct (followup_step_goes_on advanced a w s q Hload Hkind Hq Hgo)
      as (w1 & r & Hrun & Hreply & Hload1 & Htests & Hweak & Hneeds).
    cbn [s score_answer questions current_question_index correct_answers incorrect_topics
         test_type seq_topics user_answers] in Hreply, Hload1.
    destruct (IH (S i) _ _ w1 Hload1) as
      (w' & replies & Hrest & Hlen' & Hreplies & (rl & Hlast & Hres) & Htests'
       & Hc & Hd & Hweak' & Hneeds').
    { by eapply followup_kind_test_type, Hkind. }
    { simpl in Hgo. lia. }
    { lia. }
    assert (Hty : ∀ i' c' inc',
              followup_result_type advanced
                {| test_type := ty; questions := qs; current_question_index := i';
                   correct_answers := c'; incorrect_topics := inc'; seq_topics := tp;
                   user_answers := ua |}
              = followup_result_type advanced s) by (by destruct advanced).
    rewrite Hty in Hres, Htests'.
    assert (Hright : ∀ l : list (Question * string),
              (if graded_upper (q, a) then S c else c) + length l
              = c + length (if graded_upper (q, a) then (q, a) :: l else l)).
    { intros l. destruct (graded_upper (q, a)); simpl; lia. }
    rewrite Hright in Hres, Htests', Hweak'.
    exists w', (Ok r :: replies). cbn [take_followup]. rewrite Hrun, Hrest.
    split; [done|]. split; [simpl; by rewrite Hlen'|]. split.
    { intros [|j] qa r0 Hqa Hr0; simpl in Hqa, Hr0.
      - injection Hqa as <-. injection Hr0 as <-. by rewrite Nat.add_0_r.
      - replace (i + S j) with (S i + j) by lia. by apply Hreplies. }
    split.
    { exists rl. split; [|exact Hres].
      destruct replies as [|r1 replies']; [simpl in Hlen'; lia|exact Hlast]. }
    split; [by rewrite Htests', Htests|]. split; [done|]. split; [done|]. split.
    + intros x. rewrite Hweak', Hweak. done.
    + intros x. rewrite Hneeds', Hneeds. done.
Qed.

(** X15.  A sitting of a follow-up test, Standard or Advanced, from its
    first question to its last.  Every answer gets a reply for the
    question at its position, graded by comparing answer and stored
    correct answer in upper case, and carrying the next question until the
    last one.  The last reply carries the result: as score the number of
    answers that matched out of the number of questions, and as weak
    topics the topics of the test if that score fails the test of the
    kind, none otherwise.  That result is the one row added to the
    history, the session is gone from cache and store, and the weak-topic
    table holds the topics just marked and what table or cached pool held
    before; the needs-training table holds what table or cached pool held
    before. *)
Theorem followup_sitting_is_scored
    (advanced : bool) (s : SequentialSession) (answer_list : list string) (w : World) :
  load_user_session w = Some (Sequential s) →
  followup_kind advanced s →
  current_question_index s = 0 →
  correct_answers s = 0 →
  questions s ≠ [] →
  length answer_list = length (questions s) →
  let pairs := zip (questions s) answer_list in
  let right := length (List.filter graded_upper pairs) in
  let weak := if followup_is_weak advanced right (length (questions s))
              then seq_topics s else [] in
  ∃ w' replies r tr,
    take_followup advanced answer_list w = (w', replies)
    ∧ length replies = length (questions s)
    ∧ (∀ i qa reply, pairs !! i = Some qa → replies !! i = Some reply →
                     followup_reply (questions s) i qa reply)
    ∧ last replies = Some (Ok r)
    ∧ sr_test_results r = Some tr
    ∧ tr_test_type tr = followup_result_type advanced s
    ∧ tr_score tr = Some (right, length (questions s))
    ∧ tr_weak_topics tr = weak
    ∧ db_tests w' = db_tests w ++ [tr]
    ∧ cached_session w' = None
    ∧ load_user_session w' = None
    ∧ (∀ x, In x (db_weak_topics w') ↔ In x weak ∨ known_weak w x)
    ∧ (∀ x, In x (db_needs_training w') ↔ known_needs_training w x).
Proof.
  destruct s as [ty qs i c inc tp ua]. cbn [questions current_question_index correct_answers
                                            seq_topics].
  intros Hload Hkind -> -> Hqs Hlen.
  destruct (followup_run advanced ty qs tp ua answer_list 0 0 inc w Hload Hkind)
    as (w' & replies & Hrun & Hlen' & Hreplies & (r & Hlast & Hres) & Htests & Hc & Hd
        & Hweak & Hneeds).
  { destruct qs; [done|]. simpl. lia. }
  { rewrite Hlen. lia. }
  rewrite drop_0 in *. cbn [Nat.add] in *.
  eexists w', replies, r, _. split; [exact Hrun|]. split; [by rewrite Hlen'|].
  split; [exact Hreplies|]. split; [exact Hlast|]. split; [exact Hres|].
  do 3 (split; [reflexivity|]). split; [exact Htests|]. done.
Qed.

Lemma followup_sitting_is_scored_witness :
  ∃ w' replies r tr,
    take_followup false ["a"; "B"; "C"]
      (start_reevaluation_test "Queues" one_of_each (new_learner [])).1 = (w', replies)
    ∧ last replies = Some (Ok r)
    ∧ sr_test_results r = Some tr
    ∧ tr_score tr = Some (1, 3)
    ∧ tr_weak_topics tr = ["Queues"]
    ∧ In "Queues" (db_weak_topics w').
Proof.
  assert (∃ s, load_user_session (start_reevaluation_test "Queues" one_of_each (new_learner [])).1
               = Some (Sequential s)
               ∧ test_type s = "Reevaluation: Queues"
               ∧ questions s = one_of_each
               ∧ current_question_index s = 0 ∧ correct_answers s = 0
               ∧ seq_topics s = ["Queues"]) as (s & Hload & Hty & Hqs & Hi & Hc & Htp).
  { eexists. split; [vm_compute; reflexivity|]. by vm_compute. }
  revert Hload. generalize (start_reevaluation_test "Queues" one_of_each (new_learner [])).1.
  intros w Hload.
  destruct (followup_sitting_is_scored false s ["a"; "B"; "C"] w Hload)
    as (w' & replies & r & tr & Hrun & _ & _ & Hlast & Hres & _ & Hscore & Hweak & _ & _ & _
        & Hpool & _).
  - unfold followup_kind. rewrite Hty. by vm_compute.
  - exact Hi.
  - exact Hc.
  - by rewrite Hqs.
  - by rewrite Hqs.
  - rewrite Hqs, Htp in *. exists w', replies, r, tr.
    split; [exact Hrun|]. split; [exact Hlast|]. split; [exact Hres|].
    split; [exact Hscore|]. split; [exact Hweak|]. apply Hpool. left. by left.
Defined.

(** ** The reset of a learner *)

(** X16.  [/reset] drops the topic selection and never touches the
    history; the pool tables afterwards hold what table or cached pool
    held before.  For a learner in the cache it removes the session from
    cache and store, so that an answer to the question last shown is
    refused and changes nothing.  For a learner who is not in the cache it
    changes nothing at all: a session in the store stays there. *)
Theorem reset_clears_cached_session
    `{Md5} (sel : option Selection) (answer : string) (bank : list Question) (w : World) :
  let w' := (reset_command sel w).1 in
  (reset_command sel w).2 = None
  ∧ db_tests w' = db_tests w
  ∧ (∀ x, In x (db_weak_topics w') ↔ known_weak w x)
  ∧ (∀ x, In x (db_needs_training w') ↔ known_needs_training w x)
  ∧ cached_session w' = None
  ∧ match user_data w with
    | Some _ =>
        db_session w' = None
        ∧ handle_adaptive_answer answer bank w'
          = (w', shown_error "No active test session. Please start a new test.")
    | None => w' = w
    end.
Proof.
  unfold known_weak, known_needs_training, cached_weak_pool, cached_needs_pool.
  destruct w as [[d|] dbs dbw dbn dbt g]; cbn -[insert_all];
    (split; [done|]); (split; [done|]);
    (split; [intros x; rewrite ?In_insert_all; tauto|]);
    (split; [intros x; rewrite ?In_insert_all; tauto|]); done.
Qed.

(** ** Serialisation of a session *)

Lemma PyValue_nested_ind (P : PyValue → Prop) :
  (∀ a, P (py_atom a)) →
  (∀ items, Forall P items → P (py_list items)) →
  (∀ items, Forall (fun kv : string * PyValue => P kv.2) items → P (py_dict items)) →
  (∀ members, P (py_set members)) →
  ∀ v, P v.
Proof.
  intros Ha Hl Hd Hs. fix IH 1. intros [a|items|items|members].
  - apply Ha.
  - apply Hl. induction items as [|x r IHr]; constructor; [apply IH|exact IHr].
  - apply Hd. induction items as [|[k x] r IHr]; constructor; [apply IH|exact IHr].
  - apply Hs.
Qed.

Lemma existsb_map_false {A B} (f : A → B) (p : B → bool) (l : list A) :
  Forall (fun x => p (f x) = false) l → existsb p (map f l) = false.
Proof. induction 1 as [|x r Hx _ IH]; simpl; [done|]. by rewrite Hx, IH. Qed.

Lemma flat_map_map {A B C} (f : A → B) (g : B → list C) (l : list A) :
  flat_map g (map f l) = flat_map (fun x => g (f x)) l.
Proof. induction l as [|x r IH]; simpl; [done|]. by rewrite IH. Qed.

Lemma flat_map_ext_Forall {A B} (f g : A → list B) (l : list A) :
  Forall (fun x => f x = g x) l → flat_map f l = flat_map g l.
Proof. induction 1 as [|x r Hx _ IH]; simpl; [done|]. by rewrite Hx, IH. Qed.

Lemma map_id_guarded {A} (f : A → A) (p : A → bool) (l : list A) :
  Forall (fun x => p x = false → f x = x) l → existsb p l = false → map f l = l.
Proof.
  induction 1 as [|x r Hx _ IH]; simpl; [done|].
  intros [Hp Hr]%orb_false_iff. by rewrite Hx, IH.
Qed.

(** X17.  The conversion applied to a session before it is written as
    JSON leaves no set anywhere in lists and dictionaries, so the result
    can be serialised; it keeps every atom in its place (the members of a
    set in iteration order) and every dictionary key; a value without
    sets comes back unchanged, so converting twice is converting once. *)
Theorem conversion_leaves_no_set (data : PyValue) :
  has_set (convert_sets_to_lists data) = false
  ∧ atoms (convert_sets_to_lists data) = atoms data
  ∧ dict_keys (convert_sets_to_lists data) = dict_keys data
  ∧ (has_set data = false → convert_sets_to_lists data = data)
  ∧ convert_sets_to_lists (convert_sets_to_lists data) = convert_sets_to_lists data.
Proof.
  assert (Hset : ∀ v, has_set (convert_sets_to_lists v) = false).
  { induction v as [a|items IH|items IH|members] using PyValue_nested_ind; simpl.
    - done.
    - by apply existsb_map_false.
    - apply existsb_map_false. eapply Forall_impl; [exact IH|]. by intros [k v].
    - apply existsb_map_false. by apply Forall_forall. }
  assert (Hsame : ∀ v, has_set v = false → convert_sets_to_lists v = v).
  { induction v as [a|items IH|items IH|members] using PyValue_nested_ind; simpl.
    - done.
    - intros Hno. f_equal. by eapply map_id_guarded.
    - intros Hno. f_equal. eapply map_id_guarded; [|exact Hno].
      eapply Forall_impl; [exact IH|]. intros [k x] Hx Hn. simpl in *. f_equal. auto.
    - done. }
  split; [apply Hset|]. split; [|split; [|split; [apply Hsame|apply Hsame, Hset]]].
  - induction data as [a|items IH|items IH|members] using PyValue_nested_ind; simpl.
    + done.
    + rewrite flat_map_map. by apply flat_map_ext_Forall.
    + rewrite flat_map_map. apply flat_map_ext_Forall.
      eapply Forall_impl; [exact IH|]. by intros [k v].
    + induction members as [|a r IHr]; simpl; [done|]. by rewrite IHr.
  - induction data as [a|items IH|items IH|members] using PyValue_nested_ind; simpl.
    + done.
    + rewrite flat_map_map. by apply flat_map_ext_Forall.
    + rewrite flat_map_map. apply flat_map_ext_Forall.
      eapply Forall_impl; [exact IH|]. intros [k v] Hv. simpl in *. by rewrite Hv.
    + by induction members as [|a r IHr].
Qed.

(** ** The hash of a question *)

Lemma leb_cases s1 s2 :
  String.leb s1 s2 = true ↔ s1 = s2 ∨ OrderedTypeEx.String_as_OT.lt s1 s2.
Proof.
  unfold String.leb. destruct (String.compare s1 s2) eqn:E.
  - apply OrderedTypeEx.String_as_OT.cmp_eq in E. tauto.
  - apply OrderedTypeEx.String_as_OT.cmp_lt in E. tauto.
  - split; [done|]. intros [->|Hlt].
    + assert (String.compare s2 s2 = Eq) by (by apply OrderedTypeEx.String_as_OT.cmp_eq).
      congruence.
    + apply OrderedTypeEx.String_as_OT.cmp_lt in Hlt.
      unfold OrderedTypeEx.String_as_OT.cmp in Hlt. congruence.
Qed.

Lemma item_leb_cases a b :
  Py.item_leb a b = true
  ↔ OrderedTypeEx.String_as_OT.lt a.1 b.1
    ∨ (a.1 = b.1 ∧ (a.2 = b.2 ∨ OrderedTypeEx.String_as_OT.lt a.2 b.2)).
Proof.
  unfold Py.item_leb. destruct (String.compare a.1 b.1) eqn:E.
  - apply OrderedTypeEx.String_as_OT.cmp_eq in E. rewrite leb_cases. split; [tauto|].
    intros [Hlt|[_ H]]; [|done]. rewrite E in Hlt.
    by apply OrderedTypeEx.String_as_OT.lt_not_eq in Hlt.
  - apply OrderedTypeEx.String_as_OT.cmp_lt in E. tauto.
  - split; [done|]. intros [Hlt|[Heq _]].
    + apply OrderedTypeEx.String_as_OT.cmp_lt in Hlt.
      unfold OrderedTypeEx.String_as_OT.cmp in Hlt. congruence.
    + apply OrderedTypeEx.String_as_OT.cmp_eq in Heq.
      unfold OrderedTypeEx.String_as_OT.cmp in Heq. congruence.
Qed.

Lemma lt_asym s1 s2 :
  OrderedTypeEx.String_as_OT.lt s1 s2 → OrderedTypeEx.String_as_OT.lt s2 s1 → False.
Proof.
  intros H1 H2. pose proof (OrderedTypeEx.String_as_OT.lt_trans _ _ _ H1 H2) as H.
  by apply OrderedTypeEx.String_as_OT.lt_not_eq in H.
Qed.

Lemma item_le_trans : Transitive item_le.
Proof.
  intros a b c. unfold item_le. rewrite !item_leb_cases.
  intros [H1|[E1 H1]] [H2|[E2 H2]].
  - left. eapply OrderedTypeEx.String_as_OT.lt_trans; eauto.
  - left. by rewrite <- E2.
  - left. by rewrite E1.
  - right. split; [congruence|]. destruct H1 as [->|H1]; [done|].
    destruct H2 as [<-|H2]; [by right|]. right.
    eapply OrderedTypeEx.String_as_OT.lt_trans; eauto.
Qed.

Lemma item_le_antisym : AntiSymm eq item_le.
Proof.
  intros [k1 v1] [k2 v2]. unfold item_le. rewrite !item_leb_cases. simpl.
  intros [H1|[E1 H1]] [H2|[E2 H2]].
  - destruct (lt_asym _ _ H1 H2).
  - subst. by apply OrderedTypeEx.String_as_OT.lt_not_eq in H1.
  - subst. by apply OrderedTypeEx.String_as_OT.lt_not_eq in H2.
  - subst. destruct H1 as [->|H1]; [done|]. destruct H2 as [->|H2]; [done|].
    destruct (lt_asym _ _ H1 H2).
Qed.

Lemma item_leb_total a b : Py.item_leb a b = false → item_le b a.
Proof.
  unfold item_le, Py.item_leb. rewrite (String.compare_antisym a.1 b.1).
  destruct (String.compare b.1 a.1) eqn:E; simpl; try done.
  unfold String.leb. rewrite (String.compare_antisym a.2 b.2).
  by destruct (String.compare b.2 a.2).
Qed.

Lemma insert_sorted_perm a l : Py.insert_sorted a l ≡ₚ a :: l.
Proof.
  induction l as [|b r IH]; simpl; [done|].
  destruct (Py.item_leb a b); [done|]. rewrite IH. apply Permutation_swap.
Qed.

Lemma insert_sorted_Sorted a l :
  Sorted.Sorted item_le l → Sorted.Sorted item_le (Py.insert_sorted a l).
Proof.
  induction 1 as [|b r Hr IH Hb]; simpl.
  - repeat constructor.
  - destruct (Py.item_leb a b) eqn:E.
    + constructor; [by constructor|]. by constructor.
    + constructor; [exact IH|]. apply item_leb_total in E.
      destruct Hb as [|c r' Hbc]; simpl.
      * by constructor.
      * destruct (Py.item_leb a c); by constructor.
Qed.

Lemma sorted_items_spec l :
  Sorted.Sorted item_le (Py.sorted_items l) ∧ Py.sorted_items l ≡ₚ l.
Proof.
  induction l as [|a r [IHs IHp]]; simpl; [by split; [constructor|]|].
  split; [by apply insert_sorted_Sorted|]. by rewrite insert_sorted_perm, IHp.
Qed.

(** X18.  The hash of a question depends only on its text, its correct
    answer and the set of its choices: two questions that agree on these
    have the same hash, whatever the order in which the choices are
    stored and whatever topic, difficulty and explanation they are filed
    with. *)
Theorem question_hash_ignores_filing `{Md5} (q1 q2 : Question) :
  q_question q1 = q_question q2 →
  q_correct_answer q1 = q_correct_answer q2 →
  q_choices q1 ≡ₚ q_choices q2 →
  get_question_hash q1 = get_question_hash q2.
Proof.
  intros Htext Hanswer Hchoices. unfold get_question_hash. cbv zeta.
  rewrite Htext, Hanswer. do 6 f_equal.
  destruct (sorted_items_spec (q_choices q1)) as [Hs1 Hp1].
  destruct (sorted_items_spec (q_choices q2)) as [Hs2 Hp2].
  apply (sorting.Sorted_unique item_le (Transitive0 := item_le_trans)
           (AntiSymm0 := item_le_antisym)); [done|done|].
  by rewrite Hp1, Hp2.
Qed.

Lemma question_hash_ignores_filing_witness :
  get_question_hash (H := short_digest) (mcq "Stacks" "Easy" "e1")
  = get_question_hash (H := short_digest)
      {| q_topic := "Queues"; q_difficulty := "Hard"; q_question := "e1";
         q_choices := [("D", "fourth"); ("B", "second"); ("A", "first"); ("C", "third")];
         q_correct_answer := "A"; q_explanation := "see the slides" |}.
Proof.
  apply (question_hash_ignores_filing (H := short_digest)); [reflexivity|reflexivity|].
  apply (bool_decide_unpack _). vm_compute. exact Logic.I.
Defined.

(** ** Exams with a question count *)

Lemma sample_submseteq {A} k (l : list A) g :
  (sample k l g).1 ⊆+ l ∧ length (sample k l g).1 = min k (length l).
Proof.
  destruct (sample k l g) as [r g'] eqn:E. apply sample_spec in E as [Hlen [rest Hperm]].
  split; [|done]. simpl. rewrite <- Hperm. by apply submseteq_inserts_r.
Qed.

Lemma take_sample_spec k l g :
  (Balanced.take_sample k l g).1 ⊆+ l ∧ length (Balanced.take_sample k l g).1 ≤ k.
Proof.
  unfold Balanced.take_sample. destruct (Nat.leb_spec (length l) k).
  - by split.
  - destruct (sample_submseteq k l g) as [Hsub Hlen]. split; [done|]. lia.
Qed.

Lemma shuffle_times_perm {A} n : ∀ (l : list A) g, (Balanced.shuffle_times n l g).1 ≡ₚ l.
Proof.
  induction n as [|n IH]; intros l g; simpl; [done|].
  destruct (shuffle l g) as [l' g'] eqn:E. apply shuffle_perm in E. by rewrite IH.
Qed.

Lemma filter_perm {A} (p : A → bool) (l k : list A) :
  l ≡ₚ k → List.filter p l ≡ₚ List.filter p k.
Proof.
  induction 1 as [|x l k _ IH|x y l|l k m _ IH1 _ IH2]; simpl.
  - done.
  - destruct (p x); by rewrite IH.
  - destruct (p x), (p y); try done. apply Permutation_swap.
  - by rewrite IH1.
Qed.

Lemma filter_none {A} (p : A → bool) (l : list A) :
  (∀ x, In x l → p x = false) → List.filter p l = [].
Proof.
  induction l as [|x r IH]; simpl; [done|]. intros Hp.
  rewrite (Hp x) by (by left). apply IH. intros y Hy. apply Hp. by right.
Qed.

Lemma filter_all {A} (p : A → bool) (l : list A) :
  (∀ x, In x l → p x = true) → List.filter p l = l.
Proof.
  induction l as [|x r IH]; simpl; [done|]. intros Hp.
  rewrite (Hp x) by (by left). f_equal. apply IH. intros y Hy. apply Hp. by right.
Qed.

(** The three difficulty classes of a topic do not overlap. *)
Lemma by_difficulty_submseteq (l : list Question) :
  List.filter (fun q => String.eqb (q_difficulty q) "Easy") l
  ++ List.filter (fun q => String.eqb (q_difficulty q) "Medium") l
  ++ List.filter (fun q => String.eqb (q_difficulty q) "Hard") l ⊆+ l.
Proof.
  induction l as [|q r IH]; [done|]. cbn [List.filter].
  destruct (String.eqb_spec (q_difficulty q) "Easy") as [He|_].
  { rewrite He. cbn. by constructor. }
  destruct (String.eqb_spec (q_difficulty q) "Medium") as [Hm|_].
  { rewrite Hm. cbn [String.eqb Ascii.eqb Bool.eqb andb]. cbv iota.
    cbn [app]. rewrite <- Permutation_middle. by constructor. }
  destruct (String.eqb_spec (q_difficulty q) "Hard") as [Hh|_].
  { rewrite app_assoc, <- Permutation_middle, <- app_assoc. by constructor. }
  by apply submseteq_cons.
Qed.

Lemma balanced_for_topic_spec c l g :
  (Balanced.balanced_for_topic c l g).1 ⊆+ l
  ∧ length (Balanced.balanced_for_topic c l g).1 ≤ c.
Proof.
  unfold Balanced.balanced_for_topic. cbv zeta.
  set (fe := List.filter (fun q => String.eqb (q_difficulty q) "Easy") l).
  set (fm := List.filter (fun q => String.eqb (q_difficulty q) "Medium") l).
  set (fh := List.filter (fun q => String.eqb (q_difficulty q) "Hard") l).
  destruct (take_sample_spec (c / 3) fe g) as [He Hle].
  destruct (Balanced.take_sample (c / 3) fe g) as [e g1]. cbn [fst] in He, Hle.
  destruct (take_sample_spec (c / 3 + (c - c / 3 * 3)) fm g1) as [Hm Hlm].
  destruct (Balanced.take_sample (c / 3 + (c - c / 3 * 3)) fm g1) as [m g2].
  cbn [fst] in Hm, Hlm.
  destruct (take_sample_spec (c / 3) fh g2) as [Hh Hlh].
  destruct (Balanced.take_sample (c / 3) fh g2) as [h g3]. cbn [fst] in Hh, Hlh.
  destruct (shuffle (e ++ m ++ h) g3) as [r g4] eqn:Es. apply shuffle_perm in Es. cbn [fst].
  rewrite Es. split.
  - etrans; [|apply (by_difficulty_submseteq l)].
    apply submseteq_app; [done|]. by apply submseteq_app.
  - rewrite !length_app. pose proof (Nat.Div0.mul_div_le c 3). lia.
Qed.

Lemma group_add_spec q groups :
  flat_map snd (Balanced.group_add q groups) ≡ₚ q :: flat_map snd groups
  ∧ (∀ t, In t (map fst (Balanced.group_add q groups))
          ↔ t = q_topic q ∨ In t (map fst groups))
  ∧ (NoDup (map fst groups) → NoDup (map fst (Balanced.group_add q groups))).
Proof.
  induction groups as [|[t l] r (IHp & IHk & IHn)]; cbn [Balanced.group_add].
  - split; [done|]. split; [intros t; simpl; intuition congruence|].
    intros _. simpl. apply NoDup_singleton.
  - destruct (String.eqb_spec t (q_topic q)) as [->|Hne]; cbn [flat_map map fst snd].
    + split; [|split; [|done]].
      * rewrite <- app_assoc. cbn [app]. by rewrite <- Permutation_middle.
      * intros t'. simpl. intuition congruence.
    + split; [|split].
      * rewrite IHp. by rewrite Permutation_middle.
      * intros t'. simpl. rewrite IHk. intuition congruence.
      * intros [Ht Hr]%NoDup_cons. apply NoDup_cons. split; [|auto].
        rewrite list_elem_of_In, IHk. intros [->|Hin]; [done|].
        by apply Ht, list_elem_of_In.
Qed.

Lemma group_fold_spec mcqs : ∀ groups,
  let G := foldl (fun groups mcq => Balanced.group_add mcq groups) groups mcqs in
  flat_map snd G ≡ₚ flat_map snd groups ++ mcqs
  ∧ (∀ t, In t (map fst G) ↔ In t (map fst groups) ∨ ∃ q, In q mcqs ∧ q_topic q = t)
  ∧ (NoDup (map fst groups) → NoDup (map fst G)).
Proof.
  induction mcqs as [|q r IH]; intros groups; cbn zeta; cbn [foldl].
  - rewrite app_nil_r. split; [done|]. split; [|done]. intros t. split; [tauto|].
    intros [?|(q & [] & _)]; done.
  - destruct (IH (Balanced.group_add q groups)) as (Hp & Hk & Hn).
    destruct (group_add_spec q groups) as (Hp1 & Hk1 & Hn1).
    split; [|split].
    + rewrite Hp, Hp1. by rewrite <- Permutation_middle.
    + intros t. rewrite Hk, Hk1. split.
      * intros [[->|Hin]|(q' & Hq' & Ht)]; [right; exists q; split; [by left|done]|by left|].
        right. exists q'. split; [by right|done].
      * intros [Hin|(q' & [<-|Hq'] & Ht)]; [tauto|left; by left|].
        right. by exists q'.
    + intros Hnd. auto.
Qed.

Lemma group_by_topic_spec mcqs :
  flat_map snd (Balanced.group_by_topic mcqs) ≡ₚ mcqs
  ∧ NoDup (map fst (Balanced.group_by_topic mcqs))
  ∧ ∀ t, In t (map fst (Balanced.group_by_topic mcqs)) → ∃ q, In q mcqs ∧ q_topic q = t.
Proof.
  destruct (group_fold_spec mcqs []) as (Hp & Hk & Hn). split; [exact Hp|]. split.
  - apply Hn. constructor.
  - intros t Ht. apply Hk in Ht as [[]|Ht]. exact Ht.
Qed.

(** There are no more groups than topic names queried. *)
Lemma groups_bounded (names : list string) (mcqs : list Question) :
  (∀ q, In q mcqs → In (q_topic q) names) →
  length (Balanced.group_by_topic mcqs) ≤ length (remove_dups names).
Proof.
  intros Hnames. destruct (group_by_topic_spec mcqs) as (_ & Hnd & Hk).
  rewrite <- (length_map fst). apply submseteq_length, NoDup_submseteq; [done|].
  intros t Ht. apply elem_of_remove_dups, list_elem_of_In.
  apply list_elem_of_In, Hk in Ht as (q & Hq & <-). auto.
Qed.

Lemma group_by_topic_nonempty mcqs : mcqs ≠ [] → Balanced.group_by_topic mcqs ≠ [].
Proof.
  intros Hne HG. destruct (group_by_topic_spec mcqs) as (Hp & _). rewrite HG in Hp.
  simpl in Hp. apply Permutation_nil_l in Hp. done.
Qed.

Lemma balanced_loop_spec qpt rem groups : ∀ i g,
  (Balanced.balanced_loop qpt rem i groups g).1 ⊆+ flat_map snd groups
  ∧ length (Balanced.balanced_loop qpt rem i groups g).1 ≤ qpt * length groups + (rem - i).
Proof.
  induction groups as [|[t l] r IH]; intros i g; cbn [Balanced.balanced_loop].
  - split; [done|]. simpl. lia.
  - destruct (balanced_for_topic_spec (qpt + (if i <? rem then 1 else 0)) l g) as [Hs Hl].
    destruct (Balanced.balanced_for_topic _ l g) as [picked g1]. cbn [fst] in Hs, Hl.
    destruct (IH (S i) g1) as [Hs' Hl'].
    destruct (Balanced.balanced_loop qpt rem (S i) r g1) as [more g2]. cbn [fst] in *.
    cbn [flat_map snd]. split; [by apply submseteq_app|].
    rewrite length_app. cbn [length]. destruct (Nat.ltb_spec i rem); nia.
Qed.

(** There are no more groups than questions. *)
Lemma groups_no_more_than_questions (mcqs : list Question) :
  length (Balanced.group_by_topic mcqs) ≤ length mcqs.
Proof.
  destruct (group_by_topic_spec mcqs) as (_ & Hnd & Hk).
  rewrite <- (length_map fst), <- (length_map q_topic mcqs).
  apply submseteq_length, NoDup_submseteq; [done|].
  intros t Ht. apply list_elem_of_In.
  apply list_elem_of_In, Hk in Ht as (q & Hq & <-). by apply in_map.
Qed.

Lemma ids_NoDup_app (r k : list Question) :
  NoDup (map question_id (r ++ k)) →
  NoDup (map question_id r)
  ∧ NoDup (map question_id k)
  ∧ ∀ q, In q k → ¬ In (question_id q) (map question_id r).
Proof.
  rewrite map_app. intros (Hr & Hd & Hk)%NoDup_app. split; [done|]. split; [done|].
  intros q Hq Hin. apply (Hd (question_id q)); [by apply list_elem_of_In|].
  apply list_elem_of_In, in_map, Hq.
Qed.

Lemma ids_NoDup_sub (r l : list Question) :
  NoDup (map question_id l) → r ⊆+ l → NoDup (map question_id r).
Proof.
  intros Hl Hsub. apply submseteq_Permutation in Hsub as [k Hk].
  assert (Hperm : map question_id l ≡ₚ map question_id (r ++ k))
    by (apply Permutation_map; exact Hk).
  rewrite Hperm in Hl. by apply ids_NoDup_app in Hl as [? _].
Qed.

(** The questions not yet selected are the rest of the list. *)
Lemma unseen_rest (r l : list Question) :
  NoDup (map question_id l) → r ⊆+ l →
  r ++ List.filter (Balanced.unseen (map question_id r)) l ≡ₚ l.
Proof.
  intros Hl Hsub. apply submseteq_Permutation in Hsub as [k Hk].
  assert (Hperm : map question_id l ≡ₚ map question_id (r ++ k))
    by (apply Permutation_map; exact Hk).
  rewrite Hperm in Hl. apply ids_NoDup_app in Hl as (_ & _ & Hfresh).
  rewrite (filter_perm _ _ _ Hk), List.filter_app.
  rewrite (filter_none _ r), (filter_all _ k); [by rewrite Hk| |].
  - intros q Hq. unfold Balanced.unseen. apply negb_true_iff, mem_false_In. auto.
  - intros q Hq. unfold Balanced.unseen. apply negb_false_iff, mem_In, in_map, Hq.
Qed.

Lemma unique_by_id_NoDup (l : list Question) : ∀ seen,
  NoDup (map question_id l) →
  (∀ q, In q l → ¬ In (question_id q) seen) →
  ExamManager.unique_by_id seen l = l.
Proof.
  induction l as [|q r IH]; intros seen Hnd Hseen; cbn [ExamManager.unique_by_id]; [done|].
  cbn [map] in Hnd. apply NoDup_cons in Hnd as [Hq Hr].
  rewrite (proj2 (mem_false_In _ _)) by (apply Hseen; by left).
  f_equal. apply IH; [done|]. intros q' Hq' [Heq|Hin].
  - apply Hq, list_elem_of_In. rewrite Heq. apply in_map, Hq'.
  - apply (Hseen q'); [by right|done].
Qed.

Lemma balanced_count (n count : nat) :
  0 < n → n ≤ count → Nat.max 1 (count / n) * n + (count - Nat.max 1 (count / n) * n) = count.
Proof.
  intros Hn Hle. assert (1 ≤ count / n) by (apply Nat.div_le_lower_bound; lia).
  rewrite Nat.max_r by done. pose proof (Nat.Div0.mul_div_le count n). lia.
Qed.

(** With pairwise distinct identifiers and no more topics than questions
    asked for, the balanced selection has [count] questions, or all there
    are if those are fewer. *)
Lemma get_balanced_questions_exact (mcqs : list Question) (count : nat) (g : Rng) :
  NoDup (map question_id mcqs) →
  0 < count →
  length (Balanced.group_by_topic mcqs) ≤ count →
  (Balanced.get_balanced_questions_from_list mcqs count g).1 ⊆+ mcqs
  ∧ length (Balanced.get_balanced_questions_from_list mcqs count g).1
    = min count (length mcqs).
Proof.
  intros Hnd Hpos Hgroups. unfold Balanced.get_balanced_questions_from_list. cbv zeta.
  destruct (group_by_topic_spec mcqs) as (Hparts & _ & _).
  set (G := Balanced.group_by_topic mcqs) in *.
  destruct G as [|g0 G'] eqn:EG.
  { simpl in Hparts. apply Permutation_nil_l in Hparts. subst mcqs.
    split; [done|simpl; lia]. }
  rewrite <- EG in *.
  assert (HG : 0 < length G) by (rewrite EG; simpl; lia). clear EG g0 G'.
  set (qpt := Nat.max 1 (count / length G)).
  set (rem := count - qpt * length G).
  destruct (balanced_loop_spec qpt rem G 0 g) as [Hsub Hlen].
  destruct (Balanced.balanced_loop qpt rem 0 G g) as [result g1]. cbn [fst] in Hsub, Hlen.
  rewrite Hparts in Hsub.
  assert (Hle : length result ≤ count).
  { pose proof (balanced_count (length G) count HG Hgroups) as Hc. fold qpt in Hc.
    fold rem in Hc. lia. }
  assert (Hfill : ∃ result' g',
            (if length result <? count then
               match List.filter (Balanced.unseen (map question_id result)) mcqs with
               | [] => (result, g1)
               | (_ :: _) as unused_questions =>
                   let '(unused_questions, g) :=
                     Balanced.shuffle_times 5 unused_questions g1 in
                   (result ++ take (count - length result) unused_questions, g)
               end
             else (result, g1)) = (result', g')
            ∧ result' ⊆+ mcqs ∧ length result' = min count (length mcqs)).
  { pose proof (submseteq_length _ _ Hsub) as Hrl.
    destruct (Nat.ltb_spec (length result) count) as [Hlt|Hge].
    - pose proof (unseen_rest result mcqs Hnd Hsub) as Hrest.
      set (unused := List.filter (Balanced.unseen (map question_id result)) mcqs) in *.
      assert (Hul : length result + length unused = length mcqs)
        by (by rewrite <- Hrest, length_app).
      destruct unused as [|u us] eqn:Eu.
      { eexists _, _. split; [reflexivity|]. split; [done|]. simpl in Hul. lia. }
      rewrite <- Eu in *.
      pose proof (shuffle_times_perm 5 unused g1) as Hsh.
      destruct (Balanced.shuffle_times 5 unused g1) as [unused' g2]. cbn [fst] in Hsh.
      eexists _, _. split; [reflexivity|]. split.
      + rewrite <- Hrest. apply submseteq_app; [done|]. rewrite <- Hsh.
        apply sublist_submseteq, sublist_take.
      + rewrite length_app, length_take. apply Permutation_length in Hsh. lia.
    - eexists _, _. split; [reflexivity|]. split; [done|lia]. }
  destruct Hfill as (result' & g' & -> & Hsub' & Hlen').
  destruct (shuffle result' g') as [shuffled g2] eqn:Es. apply shuffle_perm in Es.
  cbn [fst]. rewrite unique_by_id_NoDup.
  - rewrite Es. by split.
  - apply (ids_NoDup_sub _ mcqs); [done|]. by rewrite Es.
  - intros q _ [].
Qed.

Lemma get_questions_by_topic_grouped
    (topics : list string) (count : nat) (all_mcqs : list Question) (g : Rng) :
  let mcqs := Balanced.eligible topics all_mcqs in
  NoDup (map question_id mcqs) →
  0 < count →
  length (Balanced.group_by_topic mcqs) ≤ count →
  (Balanced.get_questions_by_topic topics count all_mcqs g).1 ⊆+ mcqs
  ∧ length (Balanced.get_questions_by_topic topics count all_mcqs g).1
    = min count (length mcqs).
Proof.
  intros mcqs Hnd Hpos Hgroups. unfold Balanced.get_questions_by_topic. cbv zeta.
  fold (Balanced.eligible topics all_mcqs). fold mcqs.
  rewrite (proj2 (Nat.ltb_lt 0 count)) by done.
  destruct (get_balanced_questions_exact mcqs count g Hnd Hpos Hgroups) as [Hsub Hlen].
  destruct (Balanced.get_balanced_questions_from_list mcqs count g) as [result g1].
  cbn [fst] in Hsub, Hlen.
  destruct (Nat.ltb_spec (length result) count) as [Hlt|Hge]; cbn [andb].
  2: { cbn [fst]. by split. }
  destruct (Nat.ltb_spec 0 (length mcqs)) as [Hsome|Hnone]; cbn [fst].
  2: { by split. }
  assert (Hall : result ≡ₚ mcqs) by (apply submseteq_length_Permutation; [done|lia]).
  assert (Hids : NoDup (map question_id result)) by (by apply (ids_NoDup_sub _ mcqs)).
  rewrite unique_by_id_NoDup by (done || by intros q _ []).
  rewrite (filter_none _ mcqs).
  2: { intros q Hq. unfold Balanced.unseen. apply negb_false_iff, mem_In, in_map.
       apply list_elem_of_In. rewrite Hall. by apply list_elem_of_In. }
  pose proof (shuffle_times_perm 5 result g1) as Hsh.
  destruct (Balanced.shuffle_times 5 result g1) as [shuffled g2]. cbn [fst] in *.
  rewrite take_ge by (rewrite Hsh; lia). rewrite Hsh. by split.
Qed.

Lemma get_questions_by_topic_exact
    (topics : list string) (count : nat) (all_mcqs : list Question) (g : Rng) :
  let mcqs := Balanced.eligible topics all_mcqs in
  NoDup (map question_id mcqs) →
  0 < count →
  length (remove_dups (Balanced.expand topics)) ≤ count →
  (Balanced.get_questions_by_topic topics count all_mcqs g).1 ⊆+ mcqs
  ∧ length (Balanced.get_questions_by_topic topics count all_mcqs g).1
    = min count (length mcqs).
Proof.
  intros mcqs Hnd Hpos Hnames. apply get_questions_by_topic_grouped; [done|done|].
  etrans; [|exact Hnames]. apply groups_bounded. intros q Hq.
  apply filter_In in Hq as [_ Hq]. by apply mem_In.
Qed.

Lemma start_exam_grouped
    (ty : string) (topics : list string) (count : nat) (bank : list Question) (w : World) :
  (Tracker.has_active_test w).2 = false →
  NoDup (map question_id (Balanced.eligible topics bank)) →
  0 < count →
  length (Balanced.group_by_topic (Balanced.eligible topics bank)) ≤ count →
  ∃ w' reply qs,
    Balanced.start_exam ty topics count bank w = (w', reply)
    ∧ length qs = min count (length (Balanced.eligible topics bank))
    ∧ NoDup (map question_id qs)
    ∧ (∀ q, In q qs → In q (Balanced.eligible topics bank))
    ∧ db_tests w' = db_tests w
    ∧ (qs = [] →
       reply = Err "Failed to create exam. No questions available for these topics."
       ∧ cached_session w' = None
       ∧ db_session w' = db_session w)
    ∧ (qs ≠ [] → exam_started ty qs w' reply).
Proof.
  intros Hidle Hnd Hpos Hnames. unfold Balanced.start_exam.
  unfold Tracker.has_active_test in *.
  destruct (UserTracker.cached_user_data w) as [w1 data] eqn:Ec. cbn [snd] in Hidle.
  assert (Hw1 : db_tests w1 = db_tests w ∧ rng w1 = rng w ∧ db_session w1 = db_session w
                ∧ user_data w1 = Some data).
  { unfold UserTracker.cached_user_data in Ec.
    destruct (user_data w) as [d|] eqn:Eu; injection Ec as <- <-; cbn; by rewrite ?Eu. }
  destruct Hw1 as (Hts & Hrng & Hdb & Hu).
  destruct (current_test_session data) as [?|] eqn:Es; [done|]. rewrite Hrng.
  destruct (get_questions_by_topic_grouped topics count bank (rng w) Hnd Hpos Hnames)
    as [Hsub Hlen].
  destruct (Balanced.get_questions_by_topic topics count bank (rng w)) as [qs0 g].
  cbn [fst] in Hsub, Hlen.
  destruct qs0 as [|q0 qs0'] eqn:Eq.
  { exists (set_rng g w1), (Err "Failed to create exam. No questions available for these topics."), [].
    split; [reflexivity|]. split; [exact Hlen|]. split; [constructor|].
    split; [by intros q []|]. split; [exact Hts|]. split; [|done]. intros _.
    split; [done|]. split; [|exact Hdb]. unfold cached_session. cbn. by rewrite Hu, Es. }
  rewrite <- Eq in *.
  assert (Hsome : qs0 ≠ []) by (by rewrite Eq). clear Eq q0 qs0'.
  pose proof (shuffle_times_perm 3 qs0 g) as Hsh.
  destruct (Balanced.shuffle_times 3 qs0 g) as [qs g1]. cbn [fst] in Hsh.
  rewrite current_question_after_start.
  destruct (start_test_session_spec ty qs (set_rng g1 w1))
    as (data' & Hdata' & Hs' & Hd' & Hts' & _).
  eexists _, _, qs. split; [reflexivity|].
  split; [by rewrite Hsh|]. split.
  { apply (ids_NoDup_sub _ (Balanced.eligible topics bank)); [done|]. by rewrite Hsh. }
  split.
  { intros q Hq. apply list_elem_of_In. eapply elem_of_submseteq; [|exact Hsub].
    rewrite <- Hsh. by apply list_elem_of_In. }
  split; [by rewrite Hts'|]. split.
  { intros ->. apply Permutation_nil_l in Hsh. by subst qs0. }
  intros _. split; [done|]. unfold cached_session. rewrite Hdata', Hs'. split; [done|].
  by rewrite Hd', Hs'.
Qed.

Lemma start_exam_exact
    (ty : string) (topics : list string) (count : nat) (bank : list Question) (w : World) :
  (Tracker.has_active_test w).2 = false →
  NoDup (map question_id (Balanced.eligible topics bank)) →
  0 < count →
  length (remove_dups (Balanced.expand topics)) ≤ count →
  ∃ w' reply qs,
    Balanced.start_exam ty topics count bank w = (w', reply)
    ∧ length qs = min count (length (Balanced.eligible topics bank))
    ∧ NoDup (map question_id qs)
    ∧ (∀ q, In q qs → In q (Balanced.eligible topics bank))
    ∧ db_tests w' = db_tests w
    ∧ (qs = [] →
       reply = Err "Failed to create exam. No questions available for these topics."
       ∧ cached_session w' = None
       ∧ db_session w' = db_session w)
    ∧ (qs ≠ [] → exam_started ty qs w' reply).
Proof.
  intros Hidle Hnd Hpos Hnames. apply start_exam_grouped; [done|done|done|].
  etrans; [|exact Hnames]. apply groups_bounded. intros q Hq.
  apply filter_In in Hq as [_ Hq]. by apply mem_In.
Qed.

(** X19.  The first and the second exam of a learner without a running
    test, over a bank whose questions filed under the topics of the exam
    (aliases included) have pairwise different identifiers (the first 50
    characters of the text).  The exam consists of twenty of these
    questions, or of all of them if they are fewer, with pairwise
    different identifiers; the history is untouched.  If there is none the
    start is refused and nothing is stored; otherwise the reply carries
    the first question and cache and store hold the fresh session.  With
    Hashing excluded, no question of the second exam is filed under
    Searching and Hashing or one of its other names. *)
Theorem exams_have_twenty_questions (bank : list Question) (w : World) :
  (Tracker.has_active_test w).2 = false →
  (NoDup (map question_id (Balanced.eligible Balanced.first_exam_topics bank)) →
   ∃ w' reply qs,
     Balanced.start_first_exam bank w = (w', reply)
     ∧ length qs = min 20 (length (Balanced.eligible Balanced.first_exam_topics bank))
     ∧ NoDup (map question_id qs)
     ∧ (∀ q, In q qs → In q (Balanced.eligible Balanced.first_exam_topics bank))
     ∧ db_tests w' = db_tests w
     ∧ (qs = [] →
        reply = Err "Failed to create exam. No questions available for these topics."
        ∧ cached_session w' = None
        ∧ db_session w' = db_session w)
     ∧ (qs ≠ [] → exam_started "First Exam" qs w' reply))
  ∧ (∀ exclude_hashing,
       NoDup (map question_id
                (Balanced.eligible (second_exam_selection exclude_hashing) bank)) →
       ∃ w' reply qs,
         Balanced.start_second_exam exclude_hashing bank w = (w', reply)
         ∧ length qs
           = min 20 (length (Balanced.eligible (second_exam_selection exclude_hashing) bank))
         ∧ NoDup (map question_id qs)
         ∧ (∀ q, In q qs →
                 In q (Balanced.eligible (second_exam_selection exclude_hashing) bank))
         ∧ db_tests w' = db_tests w
         ∧ (qs = [] →
            reply = Err "Failed to create exam. No questions available for these topics."
            ∧ cached_session w' = None
            ∧ db_session w' = db_session w)
         ∧ (qs ≠ [] → exam_started "Second Exam" qs w' reply)
         ∧ (exclude_hashing = true →
            ∀ q, In q qs →
                 ¬ In (q_topic q) ["Searching and Hashing"; "Hashing"; "Hash"; "Search";
                                   "Searching"])).
Proof.
  intros Hidle. split.
  - intros Hnd.
    apply (start_exam_exact "First Exam" Balanced.first_exam_topics 20 bank w);
      [done|done|lia|]. vm_compute. lia.
  - intros exclude_hashing Hnd.
    destruct (start_exam_exact "Second Exam" (second_exam_selection exclude_hashing) 20 bank w)
      as (w' & reply & qs & Hrun & Hlen & Hids & Hin & Hts & Hnone & Hsome);
      [done|done|lia|destruct exclude_hashing; vm_compute; lia|].
    exists w', reply, qs. split; [exact Hrun|]. do 6 (split; [done|]).
    intros -> q Hq Hhash. apply Hin in Hq.
    unfold Balanced.eligible, Balanced.get_mcqs_by_topic in Hq.
    apply filter_In in Hq as [_ Hq]. apply mem_In in Hq.
    revert Hq Hhash. generalize (q_topic q). intros t Ht Hhash.
    assert (Hnames : Balanced.expand (second_exam_selection true)
                     = ["Stacks"; "Stack"; "Stacks"; "Queues"; "Queue"; "Queues";
                        "Recursion"; "Recursive"; "Recursion"]) by (vm_compute; reflexivity).
    rewrite Hnames in Ht. simpl in Ht, Hhash.
    repeat (destruct Ht as [<-|Ht]; [intuition discriminate|]). done.
Qed.

Lemma exams_have_twenty_questions_witness :
  ∃ w' reply qs,
    Balanced.start_first_exam twenty_questions (new_learner []) = (w', reply)
    ∧ length qs = 20
    ∧ exam_started "First Exam" qs w' reply.
Proof.
  destruct (exams_have_twenty_questions twenty_questions (new_learner []) eq_refl)
    as [Hfirst _].
  destruct Hfirst as (w' & reply & qs & Hrun & Hlen & _ & _ & _ & _ & Hstart).
  - apply (bool_decide_unpack _). vm_compute. exact Logic.I.
  - assert (Hm : length (Balanced.eligible Balanced.first_exam_topics twenty_questions) = 20)
      by (vm_compute; reflexivity).
    rewrite Hm in Hlen. exists w', reply, qs. split; [exact Hrun|]. split; [exact Hlen|].
    apply Hstart. intros ->. discriminate Hlen.
Defined.

(** ** The final exam *)

Lemma In_insert_topic x t l : In x (insert_topic t l) ↔ x = t ∨ In x l.
Proof.
  induction l as [|u r IH]; simpl; [intuition congruence|].
  destruct (String.leb t u); simpl; [intuition congruence|]. rewrite IH. intuition congruence.
Qed.

Lemma In_get_all_topics t bank :
  In t (get_all_topics bank) ↔ ∃ q, In q bank ∧ q_topic q = t.
Proof.
  unfold get_all_topics.
  assert (Hsort : ∀ l, In t (foldr insert_topic [] l) ↔ In t l).
  { induction l as [|u r IH]; simpl; [done|]. rewrite In_insert_topic, IH.
    intuition congruence. }
  rewrite Hsort, <- list_elem_of_In, elem_of_remove_dups, list_elem_of_In, in_map_iff.
  split; intros (q & ? & ?); eauto.
Qed.

Lemma In_without_topics t exclude_topics topics :
  In t (Balanced.without_topics exclude_topics topics)
  ↔ In t topics
    ∧ Py.mem t exclude_topics = false
    ∧ existsb (fun et => String.eqb (Py.lower t) (Py.lower et)) exclude_topics = false.
Proof.
  unfold Balanced.without_topics.
  rewrite filter_In, andb_true_iff, !negb_true_iff. tauto.
Qed.

Lemma In_expand name topics :
  In name (Balanced.expand topics)
  ↔ ∃ t, In t topics ∧ In name (ExamManager.expanded_topics t).
Proof. unfold Balanced.expand. apply in_flat_map. Qed.

Lemma In_eligible q topics bank :
  In q (Balanced.eligible topics bank)
  ↔ In q bank ∧ In (q_topic q) (Balanced.expand topics).
Proof.
  unfold Balanced.eligible, Balanced.get_mcqs_by_topic. by rewrite filter_In, mem_In.
Qed.

Lemma expand_names_bounded topics :
  (∀ t, In t topics → In t TOPICS) →
  length (remove_dups (Balanced.expand topics)) ≤ 40.
Proof.
  intros Hsub. trans (length (remove_dups (Balanced.expand TOPICS))); [|vm_compute; lia].
  apply submseteq_length, NoDup_submseteq; [apply NoDup_remove_dups|].
  intros name. rewrite !elem_of_remove_dups, !list_elem_of_In, !In_expand.
  intros (t & Ht & Hname). exists t. auto.
Qed.

Lemma selection_in_bank exclude_big_o bank t :
  In t (final_exam_selection exclude_big_o bank) → ∃ q, In q bank ∧ q_topic q = t.
Proof.
  unfold final_exam_selection. destruct exclude_big_o.
  - intros [Ht _]%In_without_topics. by apply In_get_all_topics.
  - apply In_get_all_topics.
Qed.

(** X20.  The final exam of a learner without a running test, over a bank
    whose topics are among the ten of [TOPICS] and whose eligible
    questions have pairwise different identifiers: the exam consists of
    forty eligible questions, or of all of them if they are fewer, with
    pairwise different identifiers.  Without the exclusion every question
    of the bank is eligible; with Big-O excluded no question of the exam
    is filed under Algorithm Analysis and Big-O Notation. *)
Theorem final_exam_on_standard_topics
    (exclude_big_o : bool) (bank : list Question) (w : World) :
  (Tracker.has_active_test w).2 = false →
  (∀ q, In q bank → In (q_topic q) TOPICS) →
  NoDup (map question_id
           (Balanced.eligible (final_exam_selection exclude_big_o bank) bank)) →
  ∃ w' reply qs,
    start_final_exam exclude_big_o bank w = (w', reply)
    ∧ length qs
      = min 40 (length (Balanced.eligible (final_exam_selection exclude_big_o bank) bank))
    ∧ NoDup (map question_id qs)
    ∧ (∀ q, In q qs → In q bank)
    ∧ db_tests w' = db_tests w
    ∧ (qs = [] →
       reply = Err "Failed to create exam. No questions available for these topics."
       ∧ cached_session w' = None
       ∧ db_session w' = db_session w)
    ∧ (qs ≠ [] → exam_started "Final Exam" qs w' reply)
    ∧ (exclude_big_o = false →
       Balanced.eligible (final_exam_selection exclude_big_o bank) bank = bank)
    ∧ (exclude_big_o = true →
       ∀ q, In q qs → q_topic q ≠ "Algorithm Analysis and Big-O Notation").
Proof.
  intros Hidle Hstd Hnd.
  destruct (start_exam_exact "Final Exam" (final_exam_selection exclude_big_o bank) 40 bank w)
    as (w' & reply & qs & Hrun & Hlen & Hids & Hin & Hts & Hnone & Hsome);
    [done|done|lia| |].
  { apply expand_names_bounded. intros t (q & Hq & <-)%selection_in_bank. auto. }
  exists w', reply, qs. split; [exact Hrun|]. split; [exact Hlen|]. split; [exact Hids|].
  split; [intros q Hq; by apply Hin, In_eligible in Hq as [? _]|].
  do 3 (split; [done|]). split.
  - intros ->. apply filter_all. intros q Hq. apply mem_In, In_expand.
    exists (q_topic q). split; [|by left]. apply In_get_all_topics. eauto.
  - intros -> q Hq Htopic. apply Hin, In_eligible in Hq as [Hq Hname].
    apply In_expand in Hname as (t & Ht & Hname). rewrite Htopic in Hname.
    apply In_without_topics in Ht as (Ht & Hex & _).
    apply In_get_all_topics in Ht as (q' & Hq' & <-). apply Hstd in Hq'.
    revert Hex Hname. generalize (q_topic q'), Hq'. clear. intros t Ht Hex Hname.
    repeat (destruct Ht as [<-|Ht]; [vm_compute in Hex, Hname; intuition discriminate|]).
    destruct Ht.
Qed.

Lemma final_exam_on_standard_topics_witness :
  ∃ w' reply qs,
    start_final_exam true stacks_bank (new_learner []) = (w', reply)
    ∧ length qs = 10
    ∧ exam_started "Final Exam" qs w' reply.
Proof.
  destruct (final_exam_on_standard_topics true stacks_bank (new_learner []))
    as (w' & reply & qs & Hrun & Hlen & _ & _ & _ & _ & Hstart & _).
  - reflexivity.
  - intros q Hq. vm_compute in Hq. vm_compute.
    repeat (destruct Hq as [<-|Hq]; [tauto|]). destruct Hq.
  - apply (bool_decide_unpack _). vm_compute. exact Logic.I.
  - assert (Hm : length (Balanced.eligible
                           (final_exam_selection true stacks_bank)
                           stacks_bank) = 10) by (vm_compute; reflexivity).
    rewrite Hm in Hlen. exists w', reply, qs. split; [exact Hrun|]. split; [exact Hlen|].
    apply Hstart. intros ->. discriminate Hlen.
Defined.

Lemma alias_survives_exclusion bank alias_q :
  In alias_q bank → In (q_topic alias_q) big_o_aliases →
  In (q_topic alias_q) (final_exam_selection true bank)
  ∧ In "Algorithm Analysis and Big-O Notation" (ExamManager.expanded_topics (q_topic alias_q))
  ∧ In "Big-O" (ExamManager.expanded_topics (q_topic alias_q)).
Proof.
  intros Hq Halias. unfold final_exam_selection. rewrite In_without_topics, In_get_all_topics.
  assert (Hin : ∃ q, In q bank ∧ q_topic q = q_topic alias_q) by eauto.
  revert Halias Hin. generalize (q_topic alias_q). intros t Ht Hin.
  repeat (destruct Ht as [<-|Ht]; [split; [split; [exact Hin|by vm_compute]|vm_compute; tauto]|]).
  destruct Ht.
Qed.

Lemma NoDup_by_ids (l : list Question) : NoDup (map question_id l) → NoDup l.
Proof.
  induction l as [|q r IH]; cbn [map]; [constructor|].
  intros [Hq Hr]%NoDup_cons. apply NoDup_cons. split; [|auto].
  intros Hin. apply Hq, list_elem_of_In, in_map. by apply list_elem_of_In.
Qed.

(** X21.  The exclusion of Big-O from the final exam is undone when the
    bank files any question under another name of that topic (Algorithm
    Analysis, Algorithmic Analysis, Big O, Big-O Notation).  For every
    bank, that name stays among the topics of the exam and is expanded to
    all names of the topic again, so every question filed under Algorithm
    Analysis and Big-O Notation or under Big-O is eligible although Big-O
    is excluded.  For a learner without a running test, if the eligible
    questions are no more than forty and have pairwise different
    identifiers, each of them is in the exam that is started. *)
Theorem big_o_exclusion_undone_by_alias
    (bank : list Question) (alias_q q : Question) :
  In alias_q bank →
  In (q_topic alias_q) big_o_aliases →
  In q bank →
  In (q_topic q) ["Algorithm Analysis and Big-O Notation"; "Big-O"] →
  In (q_topic alias_q) (final_exam_selection true bank)
  ∧ In (q_topic q) (Balanced.expand (final_exam_selection true bank))
  ∧ In q (Balanced.eligible (final_exam_selection true bank) bank)
  ∧ ∀ w,
      (Tracker.has_active_test w).2 = false →
      NoDup (map question_id (Balanced.eligible (final_exam_selection true bank) bank)) →
      length (Balanced.eligible (final_exam_selection true bank) bank) ≤ 40 →
      ∃ w' reply qs,
        start_final_exam true bank w = (w', reply)
        ∧ exam_started "Final Exam" qs w' reply
        ∧ In q qs.
Proof.
  intros Halias_q Halias Hq Htopic.
  destruct (alias_survives_exclusion bank alias_q Halias_q Halias) as (Hsel & Hmain & Hshort).
  assert (Hname : In (q_topic q) (Balanced.expand (final_exam_selection true bank))).
  { apply In_expand. exists (q_topic alias_q).
    split; [done|]. destruct Htopic as [<-|[<-|[]]]; done. }
  assert (Helig : In q (Balanced.eligible (final_exam_selection true bank) bank)).
  { apply In_eligible. by split. }
  split; [exact Hsel|]. split; [exact Hname|]. split; [exact Helig|].
  intros w Hidle Hnd Hfew.
  destruct (start_exam_grouped "Final Exam" (final_exam_selection true bank) 40 bank w)
    as (w' & reply & qs & Hrun & Hlen & Hids & Hin & _ & _ & Hsome); [done|done|lia| |].
  { etrans; [apply groups_no_more_than_questions|exact Hfew]. }
  rewrite Nat.min_r in Hlen by done.
  assert (Hall : qs ≡ₚ Balanced.eligible (final_exam_selection true bank) bank).
  { apply submseteq_length_Permutation; [|lia]. apply NoDup_submseteq.
    - by apply NoDup_by_ids.
    - intros x Hx. by apply list_elem_of_In, Hin, list_elem_of_In. }
  assert (Hqs : In q qs) by (apply list_elem_of_In; rewrite Hall; by apply list_elem_of_In).
  exists w', reply, qs. split; [exact Hrun|]. split; [|exact Hqs].
  apply Hsome. intros ->. destruct Hqs.
Qed.

Lemma big_o_exclusion_undone_by_alias_witness :
  In (mcq "Algorithm Analysis and Big-O Notation" "Medium" "b1")
    (Balanced.eligible (final_exam_selection true aliased_bank) aliased_bank)
  ∧ ∃ w' reply qs,
      start_final_exam true aliased_bank (new_learner []) = (w', reply)
      ∧ exam_started "Final Exam" qs w' reply
      ∧ In (mcq "Algorithm Analysis and Big-O Notation" "Medium" "b1") qs.
Proof.
  destruct (big_o_exclusion_undone_by_alias aliased_bank
              (mcq "Big O" "Easy" "a1")
              (mcq "Algorithm Analysis and Big-O Notation" "Medium" "b1"))
    as (_ & _ & Helig & Hexam).
  - by left.
  - vm_compute. tauto.
  - right. by left.
  - by left.
  - split; [exact Helig|].
    destruct (Hexam (new_learner [])) as (w' & reply & qs & Hrun & Hstart & Hin).
    + reflexivity.
    + apply (bool_decide_unpack _). vm_compute. exact Logic.I.
    + vm_compute. lia.
    + exists w', reply, qs. split; [exact Hrun|]. split; [exact Hstart|exact Hin].
Defined.

(** ** The adaptive test of [ExamManager] *)

(** The state after [record_adaptive_answer] when cache entry and store
    hold the same adaptive session. *)
Lemma tracker_record_spec c t d w s :
  load_user_session w = Some (Adaptive s) →
  current_test_session (UserTracker.cached_user_data w).2 = Some (Adaptive s) →
  let s' := set_answers (answers s ++ [{| a_topic := t; a_difficulty := d; a_correct := c |}]) s in
  let w' := AdaptiveTracker.record_adaptive_answer c t d w in
  db_session w' = Some (Adaptive s')
  ∧ cached_session w' = Some (Adaptive s')
  ∧ db_tests w' = db_tests w
  ∧ db_weak_topics w' = db_weak_topics w
  ∧ rng w' = rng w.
Proof.
  intros Hload Hcache. unfold AdaptiveTracker.record_adaptive_answer.
  unfold UserTracker.cached_user_data in *. unfold load_user_session in Hload.
  destruct w as [[data|] dbs dbw dbn dbt g]; cbn in *.
  - rewrite Hcache. cbn. unfold cached_session. cbn. done.
  - rewrite Hload. cbn. unfold cached_session. cbn. done.
Qed.

(** X22.  In the adaptive test of [ExamManager], a right answer to a Hard
    question never completes the topic: the answer is logged in cache and
    store, the next action [topic_complete] carries no difficulty, and the
    retrieval of the next question raises on it.  The session stays as it
    is, with the answered question still current, and nothing reaches the
    history. *)
Theorem right_hard_answer_raises
    (answer : string) (mcqs : list Question) (w : World) (s : AdaptiveSession)
    (q : Question) :
  load_user_session w = Some (Adaptive s) →
  current_test_session (UserTracker.cached_user_data w).2 = Some (Adaptive s) →
  current_question s = Some q →
  q_difficulty q = "Hard" →
  Py.upper answer = q_correct_answer q →
  ∃ w' s',
    AdaptiveExams.process_adaptive_answer answer mcqs w = (w', raised "AttributeError")
    ∧ db_session w' = Some (Adaptive s')
    ∧ cached_session w' = Some (Adaptive s')
    ∧ answers s' = answers s ++ [{| a_topic := q_topic q; a_difficulty := "Hard";
                                    a_correct := true |}]
    ∧ current_question s' = Some q
    ∧ remaining_topics s' = remaining_topics s
    ∧ db_tests w' = db_tests w.
Proof.
  intros Hload Hcache Hq Hhard Hright.
  unfold AdaptiveExams.process_adaptive_answer, AdaptiveTracker.get_adaptive_test_session.
  rewrite Hload, Hq. cbv zeta. rewrite Hright, String.eqb_refl, Hhard.
  destruct (tracker_record_spec true (q_topic q) "Hard" w s Hload Hcache)
    as (Hd & Hc & Hts & _).
  cbn [AdaptiveExams.determine_next_adaptive_action String.eqb Ascii.eqb Bool.eqb andb
       action na_type na_difficulty ActionType_eqb orb].
  eexists _, _. split; [reflexivity|]. split; [exact Hd|]. split; [exact Hc|].
  split; [done|]. split; [exact Hq|]. split; [done|exact Hts].
Qed.

(** X23.  In the adaptive test of [ExamManager], a wrong answer to an Easy
    question is answered with the offer of a follow-up and no next
    question, and leaves no trace beyond the answer log: no row reaches
    the history, the weak-topic table is unchanged, and the session stays
    in cache and store with the answered question still current, the
    weak topics computed for the cached session being dropped when the
    cache entry is read from the store again. *)
Theorem wrong_easy_answer_marks_nothing
    (answer : string) (mcqs : list Question) (w : World) (s : AdaptiveSession)
    (q : Question) :
  load_user_session w = Some (Adaptive s) →
  current_test_session (UserTracker.cached_user_data w).2 = Some (Adaptive s) →
  current_question s = Some q →
  q_difficulty q = "Easy" →
  Py.upper answer ≠ q_correct_answer q →
  ∃ w' r s',
    AdaptiveExams.process_adaptive_answer answer mcqs w = (w', returned (Ok r))
    ∧ r_correct r = false
    ∧ na_type (r_next_action r) = act_offer_reevaluation
    ∧ r_next_question r = None
    ∧ db_session w' = Some (Adaptive s')
    ∧ cached_session w' = Some (Adaptive s')
    ∧ answers s' = answers s ++ [{| a_topic := q_topic q; a_difficulty := "Easy";
                                    a_correct := false |}]
    ∧ current_question s' = Some q
    ∧ weak_topics s' = weak_topics s
    ∧ db_tests w' = db_tests w
    ∧ db_weak_topics w' = db_weak_topics w.
Proof.
  intros Hload Hcache Hq Heasy Hwrong.
  unfold AdaptiveExams.process_adaptive_answer, AdaptiveTracker.get_adaptive_test_session.
  rewrite Hload, Hq. cbv zeta.
  rewrite (proj2 (String.eqb_neq _ _) Hwrong), Heasy.
  destruct (tracker_record_spec false (q_topic q) "Easy" w s Hload Hcache)
    as (Hd & Hc & Hts & Hwk & _).
  set (w1 := AdaptiveTracker.record_adaptive_answer false (q_topic q) "Easy" w) in *.
  cbn [AdaptiveExams.determine_next_adaptive_action String.eqb Ascii.eqb Bool.eqb andb
       action na_type na_difficulty ActionType_eqb orb].
  set (s' := set_answers (answers s ++ [{| a_topic := q_topic q; a_difficulty := "Easy";
                                          a_correct := false |}]) s) in *.
  assert (Hup : AdaptiveTracker.update_adaptive_test_results act_offer_reevaluation w1
                = set_user_data (Some (get_user_data w1)) w1).
  { unfold AdaptiveTracker.update_adaptive_test_results, UserTracker.cached_user_data.
    destruct (cached_session_user_data _ _ Hc) as (data & Hdata & Hs). by rewrite Hdata, Hs. }
  rewrite Hup. eexists (set_user_data (Some (get_user_data w1)) w1), _, s'.
  split; [reflexivity|]. do 3 (split; [reflexivity|]).
  split; [exact Hd|]. split; [unfold cached_session; cbn; exact Hd|].
  split; [done|]. split; [exact Hq|]. split; [done|]. split; [exact Hts|exact Hwk].
Qed.

Lemma tracker_test_at_spec q :
  ∃ s, load_user_session (tracker_test_at q) = Some (Adaptive s)
       ∧ current_test_session (UserTracker.cached_user_data (tracker_test_at q)).2
         = Some (Adaptive s)
       ∧ current_question s = Some q
       ∧ answers s = [].
Proof. eexists. split; [reflexivity|]. split; [reflexivity|]. split; reflexivity. Qed.

Lemma right_hard_answer_raises_witness :
  ∃ w' s',
    AdaptiveExams.process_adaptive_answer "a" stacks_bank
      (tracker_test_at (mcq "Stacks" "Hard" "h1")) = (w', raised "AttributeError")
    ∧ db_session w' = Some (Adaptive s')
    ∧ answers s' = [{| a_topic := "Stacks"; a_difficulty := "Hard"; a_correct := true |}].
Proof.
  destruct (tracker_test_at_spec (mcq "Stacks" "Hard" "h1")) as (s & Hload & Hcache & Hq & Ha).
  revert Hload Hcache. generalize (tracker_test_at (mcq "Stacks" "Hard" "h1")).
  intros w Hload Hcache.
  destruct (right_hard_answer_raises "a" stacks_bank w s (mcq "Stacks" "Hard" "h1")
              Hload Hcache Hq eq_refl eq_refl)
    as (w' & s' & Hrun & Hd & _ & Hlog & _).
  exists w', s'. split; [exact Hrun|]. split; [exact Hd|]. rewrite Hlog, Ha. reflexivity.
Defined.

Lemma wrong_easy_answer_marks_nothing_witness :
  ∃ w' r,
    AdaptiveExams.process_adaptive_answer "B" stacks_bank
      (tracker_test_at (mcq "Stacks" "Easy" "e1")) = (w', returned (Ok r))
    ∧ r_next_question r = None
    ∧ db_tests w' = []
    ∧ db_weak_topics w' = [].
Proof.
  destruct (tracker_test_at_spec (mcq "Stacks" "Easy" "e1")) as (s & Hload & Hcache & Hq & _).
  assert (Hts : db_tests (tracker_test_at (mcq "Stacks" "Easy" "e1")) = []) by reflexivity.
  assert (Hwk : db_weak_topics (tracker_test_at (mcq "Stacks" "Easy" "e1")) = [])
    by reflexivity.
  revert Hload Hcache Hts Hwk. generalize (tracker_test_at (mcq "Stacks" "Easy" "e1")).
  intros w Hload Hcache Hts Hwk.
  destruct (wrong_easy_answer_marks_nothing "B" stacks_bank w s (mcq "Stacks" "Easy" "e1")
              Hload Hcache Hq eq_refl)
    as (w' & r & s' & Hrun & _ & _ & Hnext & _ & _ & _ & _ & _ & Hts' & Hwk').
  - discriminate.
  - exists w', r. split; [exact Hrun|]. split; [exact Hnext|].
    split; [by rewrite Hts'|by rewrite Hwk'].
Defined.
